(** * fastchat: the SSE streaming layer of [internal/llm]

    A shallow embedding of [stream.go] (ParseSSE), [claude.go]
    (claudeProvider.Stream and its decoding callback) and [openai.go]
    (openaiProvider.Stream and parseChunk), with the properties the
    specification states about them.

    Conventions.
    - Go [string] and [[]byte] are [string] (a sequence of bytes).
    - A Go [error] value is [option error]; [None] is [nil].
    - A goroutine is a function from what it observes of its environment
      (the scheduling of its [select] statements, see [sched]) to the list
      of events it performs and whether it returns.
    - Library calls whose result the code only inspects ([json.Marshal],
      [json.Unmarshal], [url.Parse] inside [http.NewRequestWithContext])
      are fields of the class [GoLib]; every theorem holds for every
      implementation of them. *)

From Stdlib Require Import ZArith List Bool Lia DecimalString.
From stdpp Require Import gmap strings list.

Set Warnings "-register-all".

(** ** Values of the Go runtime *)

(** [errors.errorString] and [fmt.wrapError]. *)
Inductive error :=
| errorString (s : string)
| wrapError (msg : string) (err : error).

(** The [Error()] method. *)
Definition error_text (e : error) : string :=
  match e with
  | errorString s => s
  | wrapError msg _ => msg
  end.

(** [fmt.Errorf(prefix + ": %w", err)]. *)
Definition Errorf_w (prefix : string) (err : error) : error :=
  wrapError (prefix +:+ ": " +:+ error_text err) err.

(** [%d] of an [int]. *)
Definition itoa (n : Z) : string := NilZero.string_of_int (Z.to_int n).

(** [strings.HasPrefix]: [len(s) >= len(prefix) && s[:len(prefix)] == prefix]. *)
Definition HasPrefix (s prefix : string) : bool :=
  (String.length prefix <=? String.length s)%nat
  && String.eqb (String.substring 0 (String.length prefix) s) prefix.

(** [strings.TrimPrefix]: [s[len(prefix):]] when [s] has the prefix, else [s]. *)
Definition TrimPrefix (s prefix : string) : string :=
  if HasPrefix s prefix
  then String.substring (String.length prefix) (String.length s - String.length prefix) s
  else s.

(** ** provider.go: the data model *)

Record StreamChunk := {
  Content : string;
  Done : bool;
  Error : option error
}.

(** The zero value [StreamChunk{}]. *)
Definition StreamChunk_zero : StreamChunk :=
  {| Content := ""; Done := false; Error := None |}.

(** [Role] and [Content]; the second is [MsgContent] here, [Content] being
    the field of [StreamChunk]. *)
Record ChatMessage := {
  Role : string;
  MsgContent : string
}.

(** A value held in an [interface{}]: what [json.Unmarshal] stores in a
    [map[string]interface{}], and what the request maps hold. *)
Inductive any :=
| any_nil
| any_bool (b : bool)
| any_float64 (bits : Z)
| any_int (n : Z)
| any_string (s : string)
| any_slice (l : list any)
| any_map (m : gmap string any)
| any_messages (l : list ChatMessage).

(** [m[key].(string)] on a [map[string]interface{}]: a missing key reads as
    the nil interface, on which the assertion fails. *)
Definition assert_string (v : option any) : option string :=
  match v with
  | Some (any_string s) => Some s
  | _ => None
  end.

(** [m[key].(map[string]interface{})]. *)
Definition assert_map (v : option any) : option (gmap string any) :=
  match v with
  | Some (any_map m) => Some m
  | _ => None
  end.

(** ** Goroutines, channels and [select] *)

(** [http.Request], as far as the providers fill it. *)
Record Request := {
  Method : string;
  URL : string;
  Header : gmap string string;
  Body : string
}.

(** What a goroutine does that another party can see. *)
Inductive event :=
| EvDo (req : Request)          (* [client.Do(req)] *)
| EvOnData (data : string)      (* the decoding callback is called *)
| EvSend (c : StreamChunk)      (* [ch <- c] completed *)
| EvBodyClose                   (* [body.Close()] *)
| EvChanClose.                  (* [close(ch)] *)

(** When neither case of a blocking [select] is ready, which one becomes
    ready first, if any. *)
Inductive wakeup := WakeSend | WakeDone | WakeNever.

(** What one goroutine observes at the [k]-th [select] it executes. Every
    combination is allowed here, also some that no run of the program
    produces (a context seen cancelled and later not): what is proved for
    every [sched] holds of every run. *)
Record sched := {
  done_ready : nat -> bool;  (* [ctx.Done()] is already closed *)
  send_ready : nat -> bool;  (* the channel takes a value at once *)
  coin : nat -> bool;        (* both ready: [true] picks the send *)
  wake : nat -> wakeup       (* neither ready *)
}.

(** A cancelled context stays cancelled. *)
Definition ctx_monotone (w : sched) : Prop :=
  forall i j : nat, (i <= j)%nat -> done_ready w i = true -> done_ready w j = true.

Inductive selected := SelSend | SelDone | SelBlocked.

(** [select { case ch <- chunk: ... case <-ctx.Done(): ... }]: a ready case
    runs; of two ready cases Go picks one at random; with none ready the
    goroutine sleeps until one is, possibly for ever. *)
Definition select_send (w : sched) (k : nat) : selected :=
  match send_ready w k, done_ready w k with
  | true, true => if coin w k then SelSend else SelDone
  | true, false => SelSend
  | false, true => SelDone
  | false, false =>
      match wake w k with
      | WakeSend => SelSend
      | WakeDone => SelDone
      | WakeNever => SelBlocked
      end
  end.

(** [select { case <-ctx.Done(): return; default: }]. *)
Definition select_poll (w : sched) (k : nat) : bool := done_ready w k.

(** How a loop iteration ends. *)
Inductive flow :=
| Continue    (* go on with the next iteration *)
| Return      (* [return]: the deferred calls run *)
| Block.      (* asleep for ever in a [select] *)

Record goroutine := {
  trace : list event;
  exited : bool
}.

(** What [bufio.Scanner] delivers from a response body that ends, each of
    its reads returning: [scanner.Text()] at each successful [Scan], then
    [scanner.Err()]; and what [io.ReadAll] returns from the same body. A
    body with a read that never returns is the subject of
    [ParseSSE_stalled]. *)
Record ReadCloser := {
  lines : list string;
  scan_err : option error;
  read_all : string
}.

(** ** stream.go *)

(** One iteration of [for scanner.Scan() { ... }]; [k] counts the [select]
    statements executed so far. *)
Definition iteration (w : sched) (onData : string -> StreamChunk * bool)
    (k : nat) (line : string) : list event * nat * flow :=
  if select_poll w k then ([], S k, Return)
  else if String.eqb line "" then ([], S k, Continue)
  else if HasPrefix line ":" then ([], S k, Continue)
  else if HasPrefix line "data: " then
    let data := TrimPrefix line "data: " in
    let '(chunk, stop) := onData data in
    match select_send w (S k) with
    | SelSend =>
        ([EvOnData data; EvSend chunk], S (S k), if stop then Return else Continue)
    | SelDone => ([EvOnData data], S (S k), Return)
    | SelBlocked => ([EvOnData data], S (S k), Block)
    end
  else ([], S k, Continue).

Fixpoint scan_loop (w : sched) (onData : string -> StreamChunk * bool)
    (k : nat) (ls : list string) : list event * nat * flow :=
  match ls with
  | [] => ([], k, Continue)
  | line :: rest =>
      let '(evs, k', f) := iteration w onData k line in
      match f with
      | Continue =>
          let '(evs', k'', f') := scan_loop w onData k' rest in
          (evs ++ evs', k'', f')
      | _ => (evs, k', f)
      end
  end.

(** [defer close(ch); defer body.Close()]: run last-in first-out. *)
Definition ParseSSE_deferred : list event := [EvBodyClose; EvChanClose].

(** The goroutine started by [ParseSSE]. *)
Definition ParseSSE (w : sched) (body : ReadCloser)
    (onData : string -> StreamChunk * bool) : goroutine :=
  let '(evs, k, f) := scan_loop w onData 0 (lines body) in
  match f with
  | Block => {| trace := evs; exited := false |}
  | Return => {| trace := evs ++ ParseSSE_deferred; exited := true |}
  | Continue =>
      match scan_err body with
      | Some err =>
          match select_send w k with
          | SelSend =>
              {| trace := evs
                   ++ [EvSend {| Content := ""; Done := false; Error := Some err |}]
                   ++ ParseSSE_deferred;
                 exited := true |}
          | SelDone => {| trace := evs ++ ParseSSE_deferred; exited := true |}
          | SelBlocked => {| trace := evs; exited := false |}
          end
      | None => {| trace := evs ++ ParseSSE_deferred; exited := true |}
      end
  end.

(** The same goroutine on a body that delivers the lines [ls] and whose
    next read never returns: [scanner.Scan()] does not come back, so the
    loop is not left and the deferred calls do not run. Nothing in the
    goroutine watches the context while it waits there. *)
Definition ParseSSE_stalled (w : sched) (ls : list string)
    (onData : string -> StreamChunk * bool) : goroutine :=
  let '(evs, _, f) := scan_loop w onData 0 ls in
  match f with
  | Return => {| trace := evs ++ ParseSSE_deferred; exited := true |}
  | Continue | Block => {| trace := evs; exited := false |}
  end.

(** The scheduling in which the context is never cancelled and every send
    goes through at once. *)
Definition quiet : sched :=
  {| done_ready := fun _ => false;
     send_ready := fun _ => true;
     coin := fun _ => true;
     wake := fun _ => WakeSend |}.


(** ** The library calls *)

Inductive result (A : Type) :=
| Ok (a : A)
| Err (e : error).
Arguments Ok {A} a.
Arguments Err {A} e.

Record Response := {
  StatusCode : Z;
  RespBody : ReadCloser
}.

(** The anonymous struct [parseChunk] decodes into. *)
Record openai_delta := { DeltaContent : string }.
Record openai_choice := { Delta : openai_delta; FinishReason : option string }.
Record openai_response := { Choices : list openai_choice }.

Class GoLib := {
  (* [json.Marshal] of a [map[string]interface{}] *)
  json_Marshal : gmap string any -> result string;
  (* [json.Unmarshal] into a [map[string]interface{}] *)
  json_Unmarshal_map : string -> result (gmap string any);
  (* [json.Unmarshal] into the struct of [parseChunk] *)
  json_Unmarshal_response : string -> result openai_response;
  (* [url.Parse], the one step of [http.NewRequestWithContext] that can
     fail for the method "POST" *)
  url_Parse : string -> option error
}.

(** [http.NewRequestWithContext(ctx, method, url, bytes.NewReader(body))]. *)
Definition NewRequestWithContext `{GoLib} (method url body : string) : result Request :=
  match url_Parse url with
  | Some err => Err err
  | None => Ok {| Method := method; URL := url; Header := ∅; Body := body |}
  end.

(** [req.Header.Set(key, value)]. The library stores and looks up header
    names in canonical case; names are kept here as the code writes them. *)
Definition Header_Set (req : Request) (key value : string) : Request :=
  {| Method := Method req; URL := URL req;
     Header := <[key := value]> (Header req); Body := Body req |}.

(** [http.StatusOK]. *)
Definition StatusOK : Z := 200.

(** What [Stream] hands back: the goroutine feeding the returned channel,
    and the goroutine of the nested [ParseSSE] where there is one. *)
Record stream := {
  out : goroutine;
  nested : option goroutine
}.

(** A call of [Stream]: the pair it returns and what it did before
    returning. *)
Record call := {
  ret_chan : option stream;
  ret_err : option error;
  effects : list event
}.

Definition fail (err : error) (evs : list event) : call :=
  {| ret_chan := None; ret_err := Some err; effects := evs |}.

(** The chunks a goroutine sent, in order: what the receiver of its channel
    gets. *)
Definition sent (t : list event) : list StreamChunk :=
  flat_map (fun e => match e with EvSend c => [c] | _ => [] end) t.

(** How many times the response body was closed. *)
Definition body_closes (t : list event) : nat :=
  length (List.filter (fun e => match e with EvBodyClose => true | _ => false end) t).

(** How many times the channel was closed. *)
Definition chan_closes (t : list event) : nat :=
  length (List.filter (fun e => match e with EvChanClose => true | _ => false end) t).

(** [err != nil]. *)
Definition not_nil (err : option error) : bool :=
  match err with
  | Some _ => true
  | None => false
  end.

(** ** claude.go *)

Module claude.

Record claudeProvider := {
  name : string;
  apiKey : string;
  baseURL : string;
  model : string;
  systemPrompt : string;
  maxTokens : Z;
  client : Request -> result Response
}.

Definition Name (p : claudeProvider) : string := name p.

(** The callback [Stream] passes to [ParseSSE]. *)
Definition onData `{GoLib} (data : string) : StreamChunk * bool :=
  match json_Unmarshal_map data with
  | Err err =>
      ({| Content := ""; Done := false;
          Error := Some (Errorf_w "failed to parse SSE data" err) |}, true)
  | Ok event =>
      match assert_string (event !! "type") with
      | None => (StreamChunk_zero, false)
      | Some eventType =>
          if String.eqb eventType "content_block_delta" then
            match assert_map (event !! "delta") with
            | None => (StreamChunk_zero, false)
            | Some delta =>
                match assert_string (delta !! "text") with
                | None => (StreamChunk_zero, false)
                | Some text =>
                    ({| Content := text; Done := false; Error := None |}, false)
                end
            end
          else if String.eqb eventType "message_stop" then
            ({| Content := ""; Done := true; Error := None |}, true)
          else if String.eqb eventType "error" then
            let errMsg :=
              match assert_map (event !! "error") with
              | Some errData =>
                  match assert_string (errData !! "message") with
                  | Some msg => msg
                  | None => "unknown error"
                  end
              | None => "unknown error"
              end in
            ({| Content := ""; Done := false;
                Error := Some (errorString ("API error: " +:+ errMsg)) |}, true)
          else (StreamChunk_zero, false)
      end
  end.

(** [chunk.Content != "" || chunk.Done || chunk.Error != nil]. *)
Definition passes (chunk : StreamChunk) : bool :=
  negb (String.eqb (Content chunk) "") || Done chunk || not_nil (Error chunk).

(** [for chunk := range sseChannel { ... }] over the chunks received. *)
Fixpoint forward (w : sched) (k : nat) (chunks : list StreamChunk)
    : list event * nat * flow :=
  match chunks with
  | [] => ([], k, Continue)
  | chunk :: rest =>
      if passes chunk then
        match select_send w k with
        | SelSend =>
            let '(evs, k', f) := forward w (S k) rest in
            (EvSend chunk :: evs, k', f)
        | SelDone => ([], S k, Return)
        | SelBlocked => ([], S k, Block)
        end
      else forward w k rest
  end.

(** [defer close(ch); defer resp.Body.Close()]. *)
Definition Stream_deferred : list event := [EvBodyClose; EvChanClose].

(** The goroutine started by [Stream]; [sse] is the goroutine of the
    [ParseSSE] it calls. The [range] loop ends when [sseChannel] is
    closed, which [sse] does on its way out. *)
Definition forwarder (w : sched) (sse : goroutine) : goroutine :=
  let '(evs, _, f) := forward w 0 (sent (trace sse)) in
  match f with
  | Block => {| trace := evs; exited := false |}
  | Return => {| trace := evs ++ Stream_deferred; exited := true |}
  | Continue =>
      if exited sse
      then {| trace := evs ++ Stream_deferred; exited := true |}
      else {| trace := evs; exited := false |}
  end.

(** [Stream]; [w] schedules the goroutine it starts and [w_sse] the one
    [ParseSSE] starts. *)
Definition Stream `{GoLib} (p : claudeProvider) (w w_sse : sched)
    (messages : list ChatMessage) : call :=
  let reqBody : gmap string any :=
    <["messages" := any_messages messages]>
      (<["stream" := any_bool true]>
         (<["max_tokens" := any_int (maxTokens p)]>
            (<["model" := any_string (model p)]> ∅))) in
  let reqBody :=
    if negb (String.eqb (systemPrompt p) "")
    then <["system" := any_string (systemPrompt p)]> reqBody
    else reqBody in
  match json_Marshal reqBody with
  | Err err => fail (Errorf_w "failed to marshal request" err) []
  | Ok bodyBytes =>
      let url := baseURL p +:+ "/v1/messages" in
      match NewRequestWithContext "POST" url bodyBytes with
      | Err err => fail (Errorf_w "failed to create request" err) []
      | Ok req =>
          let req := Header_Set req "x-api-key" (apiKey p) in
          let req := Header_Set req "anthropic-version" "2023-06-01" in
          let req := Header_Set req "content-type" "application/json" in
          match client p req with
          | Err err => fail (Errorf_w "failed to send request" err) [EvDo req]
          | Ok resp =>
              if negb (StatusCode resp =? StatusOK)%Z then
                let body := read_all (RespBody resp) in
                fail (errorString ("API error (status " +:+ itoa (StatusCode resp)
                                     +:+ "): " +:+ body))
                     [EvDo req; EvBodyClose]
              else
                let sse := ParseSSE w_sse (RespBody resp) onData in
                {| ret_chan := Some {| out := forwarder w sse; nested := Some sse |};
                   ret_err := None;
                   effects := [EvDo req] |}
          end
      end
  end.

End claude.

(** ** openai.go *)

Module openai.

Record openaiProvider := {
  name : string;
  apiKey : string;
  baseURL : string;
  model : string;
  systemPrompt : string;
  maxTokens : Z;
  client : Request -> result Response
}.

Definition Name (p : openaiProvider) : string := name p.

Definition parseChunk `{GoLib} (data : string) : StreamChunk * bool :=
  if String.eqb data "[DONE]" then
    ({| Content := ""; Done := true; Error := None |}, true)
  else
    match json_Unmarshal_response data with
    | Err err =>
        ({| Content := ""; Done := false;
            Error := Some (Errorf_w "failed to parse chunk" err) |}, true)
    | Ok response =>
        match Choices response with
        | choice :: _ =>
            let content := DeltaContent (Delta choice) in
            let finishReason := FinishReason choice in
            match finishReason with
            | Some reason =>
                if negb (String.eqb reason "")
                then ({| Content := content; Done := false; Error := None |}, false)
                else ({| Content := content; Done := false; Error := None |}, false)
            | None => ({| Content := content; Done := false; Error := None |}, false)
            end
        | [] => (StreamChunk_zero, false)
        end
    end.

Definition Stream `{GoLib} (p : openaiProvider) (w : sched)
    (messages : list ChatMessage) : call :=
  let reqMessages : list ChatMessage := [] in
  let reqMessages :=
    if negb (String.eqb (systemPrompt p) "")
    then reqMessages ++ [{| Role := "system"; MsgContent := systemPrompt p |}]
    else reqMessages in
  let reqMessages := reqMessages ++ messages in
  let reqBody : gmap string any :=
    <["messages" := any_messages reqMessages]>
      (<["stream" := any_bool true]>
         (<["max_tokens" := any_int (maxTokens p)]>
            (<["model" := any_string (model p)]> ∅))) in
  match json_Marshal reqBody with
  | Err err => fail (Errorf_w "failed to marshal request" err) []
  | Ok bodyBytes =>
      let url := baseURL p +:+ "/chat/completions" in
      match NewRequestWithContext "POST" url bodyBytes with
      | Err err => fail (Errorf_w "failed to create request" err) []
      | Ok req =>
          let req := Header_Set req "Authorization" ("Bearer " +:+ apiKey p) in
          let req := Header_Set req "Content-Type" "application/json" in
          match client p req with
          | Err err => fail (Errorf_w "failed to send request" err) [EvDo req]
          | Ok resp =>
              if negb (StatusCode resp =? StatusOK)%Z then
                let bodyBytes := read_all (RespBody resp) in
                fail (errorString ("API error " +:+ itoa (StatusCode resp)
                                     +:+ ": " +:+ bodyBytes))
                     [EvDo req; EvBodyClose]
              else
                {| ret_chan :=
                     Some {| out := ParseSSE w (RespBody resp) parseChunk;
                             nested := None |};
                   ret_err := None;
                   effects := [EvDo req] |}
          end
      end
  end.

End openai.

(** ** The frame extractor in the words of the specification *)

(** The payload event a line carries, if any: a blank line and a comment
    carry none, a line with the prefix "data: " carries what follows the
    prefix, any other line carries none. *)
Definition payload_of (line : string) : option string :=
  if String.eqb line "" then None
  else if HasPrefix line ":" then None
  else if HasPrefix line "data: " then Some (TrimPrefix line "data: ")
  else None.

Definition payloads (ls : list string) : list string := omap payload_of ls.

(** The payloads up to and including the first on which the decoder says
    stop. *)
Fixpoint upto_stop (onData : string -> StreamChunk * bool) (ps : list string)
    : list string :=
  match ps with
  | [] => []
  | d :: rest => if snd (onData d) then [d] else d :: upto_stop onData rest
  end.

(** The decoder calls of a trace, in order. *)
Definition invoked (t : list event) : list string :=
  flat_map (fun e => match e with EvOnData d => [d] | _ => [] end) t.

(** One decoder call and one chunk sent per payload. *)
Definition emit (onData : string -> StreamChunk * bool) (ps : list string)
    : list event :=
  flat_map (fun d => [EvOnData d; EvSend (fst (onData d))]) ps.

(** No cancellation is ever observed and no send waits for ever. *)
Definition undisturbed (w : sched) : Prop :=
  forall k : nat, done_ready w k = false /\ select_send w k = SelSend.

(** No [select] of the goroutine sleeps for ever: at each one the context
    is cancelled or the channel takes the value, at once or later. *)
Definition never_asleep (w : sched) : Prop :=
  forall k : nat, select_send w k <> SelBlocked.

(** "data:" followed by exactly one space: a space, then no second one. *)
Definition one_space_after_data (line : string) : bool :=
  HasPrefix line "data: " && negb (HasPrefix line "data:  ").

(** [StreamChunk{Error: err}]. *)
Definition error_chunk (err : error) : StreamChunk :=
  {| Content := ""; Done := false; Error := Some err |}.

(** What follows the last payload when the loop is left alone: the read
    error, unless the decoder stopped the stream before the source ended. *)
Definition trailer (onData : string -> StreamChunk * bool) (body : ReadCloser)
    : list event :=
  if existsb (fun d => snd (onData d)) (payloads (lines body)) then []
  else match scan_err body with
       | Some err => [EvSend (error_chunk err)]
       | None => []
       end.

(** A chunk that ends a stream for its reader: done, or an error. *)
Definition terminal (c : StreamChunk) : bool := Done c || not_nil (Error c).

(** A decoder that says stop with every terminal chunk. *)
Definition stops_on_terminal (onData : string -> StreamChunk * bool) : Prop :=
  forall d : string, terminal (fst (onData d)) = true -> snd (onData d) = true.

(** Once a terminal chunk has been sent, nothing more is sent. *)
Definition no_send_after_terminal (t : list event) : Prop :=
  forall (t1 : list event) (c : StreamChunk) (t2 : list event),
    t = t1 ++ EvSend c :: t2 -> terminal c = true -> sent t2 = [].

(** The same on the list of chunks sent, by recursion on the list. *)
Fixpoint terminal_last (cs : list StreamChunk) : Prop :=
  match cs with
  | [] => True
  | c :: rest => (terminal c = true -> rest = []) /\ terminal_last rest
  end.

(** The channel is closed at most once, the close is the last thing the
    goroutine does, and a goroutine that returns has closed it. *)
Definition closes_channel_once (g : goroutine) : Prop :=
  (chan_closes (trace g) <= 1)%nat /\
  (forall t1 t2 : list event, trace g = t1 ++ EvChanClose :: t2 -> t2 = []) /\
  (exited g = true -> chan_closes (trace g) = 1%nat).

(** Once a terminal chunk has been sent the goroutine returns, and the
    channel has been closed exactly once. *)
Definition terminal_then_closed (g : goroutine) : Prop :=
  Exists (fun c => terminal c = true) (sent (trace g)) ->
  exited g = true /\ chan_closes (trace g) = 1%nat.

(** The [Close] calls on the response body over all goroutines of a stream. *)
Definition stream_body_closes (s : stream) : nat :=
  (body_closes (trace (out s))
   + match nested s with
     | Some g => body_closes (trace g)
     | None => 0
     end)%nat.

Definition is_close (e : event) : bool :=
  match e with
  | EvBodyClose | EvChanClose => true
  | _ => false
  end.

(** A goroutine whose trace is a run without closes, followed on return by
    the two deferred calls. *)
Definition deferred_shape (g : goroutine) : Prop :=
  exists evs : list event,
    Forall (fun e => is_close e = false) evs /\
    g = if exited g
        then {| trace := evs ++ [EvBodyClose; EvChanClose]; exited := true |}
        else {| trace := evs; exited := false |}.

(** ** Fixtures *)

(** A consumer that takes every chunk at once and cancels the context after
    the first: from the third [select] on, [ctx.Done()] is closed. *)
Definition cancel_after_first : sched :=
  {| done_ready := fun k => (2 <=? k)%nat;
     send_ready := fun _ => true;
     coin := fun _ => true;
     wake := fun _ => WakeNever |}.

(** One record, then the read fails as the request context is cancelled. *)
Definition body_dropped : ReadCloser :=
  {| lines := ["data: chunk1"];
     scan_err := Some (errorString "context canceled");
     read_all := "" |}.

(** The callback of stream_test.go: the payload as the content, never stop. *)
Definition echo (data : string) : StreamChunk * bool :=
  ({| Content := data; Done := false; Error := None |}, false).

(** The input of TestParseSSE_CommentsIgnored, with a blank line and an
    "event:" field added. *)
Definition body_comments : ReadCloser :=
  {| lines := [":comment line"; "data: chunk1"; ": another comment"; "";
               "event: x"; "data: chunk2"];
     scan_err := None;
     read_all := "" |}.

(** The message of the nested error object of an error event, "unknown
    error" when there is none. *)
Definition nested_message (event : gmap string any) : string :=
  match event !! "error" with
  | Some (any_map errData) =>
      match errData !! "message" with
      | Some (any_string msg) => msg
      | _ => "unknown error"
      end
  | _ => "unknown error"
  end.

(** A chunk that carries something: content, the done marker or an error. *)
Definition meaningful (c : StreamChunk) : bool :=
  negb (String.eqb (Content c) "") || Done c || not_nil (Error c).

(** A success status: 2xx. *)
Definition is_2xx (code : Z) : bool := (200 <=? code)%Z && (code <? 300)%Z.

(** The request of the event-typed provider, in the words of the
    specification. *)
Definition claude_request_ok `{GoLib} (p : claude.claudeProvider)
    (messages : list ChatMessage) (req : Request) : Prop :=
  Method req = "POST" /\
  URL req = claude.baseURL p +:+ "/v1/messages" /\
  Header req !! "x-api-key" = Some (claude.apiKey p) /\
  Header req !! "anthropic-version" = Some "2023-06-01" /\
  Header req !! "content-type" = Some "application/json" /\
  exists m : gmap string any,
    json_Marshal m = Ok (Body req) /\
    m !! "model" = Some (any_string (claude.model p)) /\
    m !! "max_tokens" = Some (any_int (claude.maxTokens p)) /\
    m !! "stream" = Some (any_bool true) /\
    m !! "messages" = Some (any_messages messages) /\
    m !! "system" = (if String.eqb (claude.systemPrompt p) "" then None
                     else Some (any_string (claude.systemPrompt p))) /\
    (forall key : string,
        is_Some (m !! key) ->
        key ∈ ["model"; "max_tokens"; "stream"; "messages"; "system"]).

(** The request of the delta-typed provider, in the words of the
    specification. *)
Definition openai_request_ok `{GoLib} (p : openai.openaiProvider)
    (messages : list ChatMessage) (req : Request) : Prop :=
  Method req = "POST" /\
  URL req = openai.baseURL p +:+ "/chat/completions" /\
  Header req !! "Authorization" = Some ("Bearer " +:+ openai.apiKey p) /\
  Header req !! "Content-Type" = Some "application/json" /\
  exists m : gmap string any,
    json_Marshal m = Ok (Body req) /\
    m !! "model" = Some (any_string (openai.model p)) /\
    m !! "max_tokens" = Some (any_int (openai.maxTokens p)) /\
    m !! "stream" = Some (any_bool true) /\
    m !! "messages"
    = Some (any_messages
              ((if String.eqb (openai.systemPrompt p) "" then []
                else [{| Role := "system"; MsgContent := openai.systemPrompt p |}])
               ++ messages)) /\
    (forall key : string,
        is_Some (m !! key) -> key ∈ ["model"; "max_tokens"; "stream"; "messages"]).

(** The body of the event-typed request before serialization, in the
    words of the specification: model, max_tokens, stream: true, messages,
    and system exactly when a system prompt is configured. *)
Definition claude_body_ok (p : claude.claudeProvider)
    (messages : list ChatMessage) (m : gmap string any) : Prop :=
  m !! "model" = Some (any_string (claude.model p)) /\
  m !! "max_tokens" = Some (any_int (claude.maxTokens p)) /\
  m !! "stream" = Some (any_bool true) /\
  m !! "messages" = Some (any_messages messages) /\
  m !! "system" = (if String.eqb (claude.systemPrompt p) "" then None
                   else Some (any_string (claude.systemPrompt p))) /\
  (forall key : string,
      is_Some (m !! key) ->
      key ∈ ["model"; "max_tokens"; "stream"; "messages"; "system"]).

(** The body of the delta-typed request before serialization: the
    messages are the caller's behind one system message exactly when a
    system prompt is configured. *)
Definition openai_body_ok (p : openai.openaiProvider)
    (messages : list ChatMessage) (m : gmap string any) : Prop :=
  m !! "model" = Some (any_string (openai.model p)) /\
  m !! "max_tokens" = Some (any_int (openai.maxTokens p)) /\
  m !! "stream" = Some (any_bool true) /\
  m !! "messages"
  = Some (any_messages
            ((if String.eqb (openai.systemPrompt p) "" then []
              else [{| Role := "system"; MsgContent := openai.systemPrompt p |}])
             ++ messages)) /\
  (forall key : string,
      is_Some (m !! key) -> key ∈ ["model"; "max_tokens"; "stream"; "messages"]).

(** The double quote, and a JSON string literal without escapes. *)
Definition dq : string := String (Ascii.ascii_of_nat 34) "".
Definition q (s : string) : string := dq +:+ s +:+ dq.

(** Payloads of the provider tests. *)
Definition json_text_delta : string :=
  "{" +:+ q "type" +:+ ":" +:+ q "content_block_delta" +:+ "," +:+ q "index" +:+ ":0,"
  +:+ q "delta" +:+ ":{" +:+ q "type" +:+ ":" +:+ q "text_delta" +:+ ","
  +:+ q "text" +:+ ":" +:+ q "Hello" +:+ "}}".

Definition json_block_stop : string :=
  "{" +:+ q "type" +:+ ":" +:+ q "content_block_stop" +:+ "," +:+ q "index" +:+ ":0}".

Definition json_message_stop : string :=
  "{" +:+ q "type" +:+ ":" +:+ q "message_stop" +:+ "}".

Definition json_error : string :=
  "{" +:+ q "type" +:+ ":" +:+ q "error" +:+ "," +:+ q "error" +:+ ":{"
  +:+ q "type" +:+ ":" +:+ q "overloaded_error" +:+ ","
  +:+ q "message" +:+ ":" +:+ q "Overloaded" +:+ "}}".

Definition json_choice_hello : string :=
  "{" +:+ q "choices" +:+ ":[{" +:+ q "delta" +:+ ":{" +:+ q "content" +:+ ":"
  +:+ q "Hello" +:+ "}," +:+ q "finish_reason" +:+ ":null}]}".

Definition json_choice_finish : string :=
  "{" +:+ q "choices" +:+ ":[{" +:+ q "delta" +:+ ":{" +:+ q "content" +:+ ":"
  +:+ q "" +:+ "}," +:+ q "finish_reason" +:+ ":" +:+ q "stop" +:+ "}]}".

Definition json_no_choices : string := "{" +:+ q "choices" +:+ ":[]}".

(** A stand-in for the library: it decodes the payloads above as
    encoding/json does and rejects every other text; its [json.Marshal]
    returns a fixed text and its [url.Parse] accepts everything. *)
Definition fixture_Unmarshal_map (data : string) : result (gmap string any) :=
  if String.eqb data json_text_delta then
    Ok (<["type" := any_string "content_block_delta"]>
          (<["index" := any_float64 0]>
             (<["delta" := any_map (<["type" := any_string "text_delta"]>
                                      (<["text" := any_string "Hello"]> ∅))]> ∅)))
  else if String.eqb data json_block_stop then
    Ok (<["type" := any_string "content_block_stop"]> (<["index" := any_float64 0]> ∅))
  else if String.eqb data json_message_stop then
    Ok (<["type" := any_string "message_stop"]> ∅)
  else if String.eqb data json_error then
    Ok (<["type" := any_string "error"]>
          (<["error" := any_map (<["type" := any_string "overloaded_error"]>
                                   (<["message" := any_string "Overloaded"]> ∅))]> ∅))
  else Err (errorString "invalid character").

Definition fixture_Unmarshal_response (data : string) : result openai_response :=
  if String.eqb data json_choice_hello then
    Ok {| Choices := [{| Delta := {| DeltaContent := "Hello" |};
                         FinishReason := None |}] |}
  else if String.eqb data json_choice_finish then
    Ok {| Choices := [{| Delta := {| DeltaContent := "" |};
                         FinishReason := Some "stop" |}] |}
  else if String.eqb data json_no_choices then
    Ok {| Choices := [] |}
  else Err (errorString "invalid character").

Definition fixture_lib : GoLib :=
  {| json_Marshal := fun _ => Ok "{}";
     json_Unmarshal_map := fixture_Unmarshal_map;
     json_Unmarshal_response := fixture_Unmarshal_response;
     url_Parse := fun _ => None |}.

(** The callback of TestParseSSE_StopSignal: stop after chunk2. *)
Definition stop_at_chunk2 (data : string) : StreamChunk * bool :=
  ({| Content := data; Done := false; Error := None |}, String.eqb data "chunk2").

(** The input of TestParseSSE_ContextCancellation. *)
Definition body_five : ReadCloser :=
  {| lines := ["data: chunk1"; "data: chunk2"; "data: chunk3"; "data: chunk4";
               "data: chunk5"];
     scan_err := None;
     read_all := "" |}.

(** A consumer of [ParseSSE] that has gone away without cancelling. The
    channel has one slot: the first send (the [select] number 1, after
    the poll number 0) fills it, no later send completes, and the context
    is never done. *)
Definition abandoned : sched :=
  {| done_ready := fun _ => false;
     send_ready := fun k => (k <=? 1)%nat;
     coin := fun _ => true;
     wake := fun _ => WakeNever |}.


(** A response with the given status and body, whatever the request. *)
Definition respond (code : Z) (body : ReadCloser) (req : Request) : result Response :=
  Ok {| StatusCode := code; RespBody := body |}.

Definition claude_fixture (code : Z) (body : ReadCloser) : claude.claudeProvider :=
  {| claude.name := "test-claude";
     claude.apiKey := "test-key";
     claude.baseURL := "http://127.0.0.1:8080";
     claude.model := "claude-3-5-sonnet-20241022";
     claude.systemPrompt := "";
     claude.maxTokens := 1024;
     claude.client := respond code body |}.

Definition openai_fixture (code : Z) (body : ReadCloser) : openai.openaiProvider :=
  {| openai.name := "test";
     openai.apiKey := "test-key";
     openai.baseURL := "http://127.0.0.1:8080";
     openai.model := "gpt-4";
     openai.systemPrompt := "You are helpful";
     openai.maxTokens := 4096;
     openai.client := respond code body |}.

Definition hello : list ChatMessage := [{| Role := "user"; MsgContent := "Hello" |}].

(** An event-typed stream: a text delta, a structural event, the stop. *)
Definition body_claude : ReadCloser :=
  {| lines := ["event: content_block_delta"; "data: " +:+ json_text_delta; "";
               "event: content_block_stop"; "data: " +:+ json_block_stop; "";
               "event: message_stop"; "data: " +:+ json_message_stop];
     scan_err := None;
     read_all := "" |}.

(** A delta-typed stream: a content delta, a record without choices, the
    sentinel. *)
Definition body_openai : ReadCloser :=
  {| lines := ["data: " +:+ json_choice_hello; "";
               "data: " +:+ json_no_choices; "";
               "data: [DONE]"];
     scan_err := None;
     read_all := "" |}.

(** The body of an error response. *)
Definition body_refused : ReadCloser :=
  {| lines := []; scan_err := None; read_all := "no content" |}.

(** How many requests were handed to [client.Do]. *)
Definition requests (t : list event) : nat :=
  length (List.filter (fun e => match e with EvDo _ => true | _ => false end) t).

(** * The rest of the program: configuration and provider construction *)

(** [strings.Contains]: [substr] occurs in [s] at some index. *)
Fixpoint Contains (s substr : string) : bool :=
  HasPrefix s substr
  || match s with
     | EmptyString => false
     | String _ s' => Contains s' substr
     end.

(** [s[n:]]. *)
Definition slice_from (n : nat) (s : string) : string :=
  String.substring n (String.length s - n) s.

(** ** config.go *)

Module config.

Record Provider := {
  APIKey : string;
  BaseURL : string;
  Model : string;
  SystemPrompt : string;
  MaxTokens : Z
}.

Record Storage := {
  DBPath : string;
  NotesDir : string
}.

Record UI := {
  ShowTokens : bool;
  MaxWidth : Z
}.

(** The fields [Storage] and [UI] are [Storage_] and [UI_] here, the names
    being those of their types. *)
Record Config := {
  DefaultProvider : string;
  Providers : gmap string Provider;
  Storage_ : Storage;
  UI_ : UI
}.

(** The host the program runs on, as far as config.go and provider.go ask
    it: [toml.DecodeFile], [os.UserHomeDir], [os.Getenv], [filepath.Join]
    and the client [&http.Client{}]. *)
Class Host := {
  toml_DecodeFile : string -> result Config;
  os_UserHomeDir : result string;
  os_Getenv : string -> string;
  filepath_Join : list string -> string;
  http_Client : Request -> result Response
}.

(** [provider.MaxTokens = n], [provider.APIKey = key]. *)
Definition set_MaxTokens (provider : Provider) (n : Z) : Provider :=
  {| APIKey := APIKey provider; BaseURL := BaseURL provider; Model := Model provider;
     SystemPrompt := SystemPrompt provider; MaxTokens := n |}.

Definition set_APIKey (provider : Provider) (key : string) : Provider :=
  {| APIKey := key; BaseURL := BaseURL provider; Model := Model provider;
     SystemPrompt := SystemPrompt provider; MaxTokens := MaxTokens provider |}.

Definition DefaultPath `{Host} : string :=
  match os_UserHomeDir with
  | Err _ => ""
  | Ok home => filepath_Join [home; ".config"; "ai-tui"; "config.toml"]
  end.

Definition applyDefaults (cfg : Config) : Config :=
  let providers :=
    (fun provider =>
       if (MaxTokens provider =? 0)%Z then set_MaxTokens provider 4096 else provider)
      <$> Providers cfg in
  let maxWidth :=
    if (MaxWidth (UI_ cfg) =? 0)%Z then 100%Z else MaxWidth (UI_ cfg) in
  let dbPath :=
    if String.eqb (DBPath (Storage_ cfg)) "" then "~/.local/share/ai-tui/ai-tui.db"
    else DBPath (Storage_ cfg) in
  let notesDir :=
    if String.eqb (NotesDir (Storage_ cfg)) "" then "~/ai-notes/"
    else NotesDir (Storage_ cfg) in
  {| DefaultProvider := DefaultProvider cfg;
     Providers := providers;
     Storage_ := {| DBPath := dbPath; NotesDir := notesDir |};
     UI_ := {| ShowTokens := ShowTokens (UI_ cfg); MaxWidth := maxWidth |} |}.

Definition expandHome `{Host} (path : string) : string :=
  if negb (HasPrefix path "~") then path
  else
    match os_UserHomeDir with
    | Err _ => path
    | Ok home =>
        if String.eqb path "~" then home
        else if HasPrefix path "~/" then filepath_Join [home; slice_from 2 path]
        else path
    end.

Definition expandConfig `{Host} (cfg : Config) : Config :=
  let providers :=
    (fun provider =>
       if HasPrefix (APIKey provider) "$" then
         let envVar := slice_from 1 (APIKey provider) in
         let val := os_Getenv envVar in
         if negb (String.eqb val "") then set_APIKey provider val else provider
       else provider)
      <$> Providers cfg in
  {| DefaultProvider := DefaultProvider cfg;
     Providers := providers;
     Storage_ := {| DBPath := expandHome (DBPath (Storage_ cfg));
                    NotesDir := expandHome (NotesDir (Storage_ cfg)) |};
     UI_ := UI_ cfg |}.

Definition validate (cfg : Config) : option error :=
  if (size (Providers cfg) =? 0)%nat then
    Some (errorString "at least one provider must be defined")
  else if String.eqb (DefaultProvider cfg) "" then
    Some (errorString "default_provider must be set")
  else
    match Providers cfg !! DefaultProvider cfg with
    | None =>
        Some (errorString ("default_provider '" +:+ DefaultProvider cfg
                             +:+ "' not found in providers"))
    | Some _ => None
    end.

Definition Load `{Host} (path : string) : result Config :=
  match toml_DecodeFile path with
  | Err err => Err (Errorf_w "failed to parse config file" err)
  | Ok cfg =>
      let cfg := applyDefaults cfg in
      let cfg := expandConfig cfg in
      match validate cfg with
      | Some err => Err err
      | None => Ok cfg
      end
  end.

End config.

(** ** provider.go *)

(** The interface [Provider] with its two implementations. *)
Inductive Provider :=
| Provider_claude (p : claude.claudeProvider)
| Provider_openai (p : openai.openaiProvider).

Definition Provider_Name (p : Provider) : string :=
  match p with
  | Provider_claude c => claude.Name c
  | Provider_openai o => openai.Name o
  end.

(** [p.Stream(ctx, messages)]; [w_sse] schedules the nested goroutine of
    the event-typed provider and is not used by the other. *)
Definition Provider_Stream `{GoLib} (p : Provider) (w w_sse : sched)
    (messages : list ChatMessage) : call :=
  match p with
  | Provider_claude c => claude.Stream c w w_sse messages
  | Provider_openai o => openai.Stream o w messages
  end.

Definition BuildProviders `{config.Host} (providers : gmap string config.Provider)
    : gmap string Provider :=
  map_imap
    (fun name cfg =>
       Some (if Contains (config.BaseURL cfg) "anthropic.com" then
               Provider_claude
                 {| claude.name := name;
                    claude.apiKey := config.APIKey cfg;
                    claude.baseURL := config.BaseURL cfg;
                    claude.model := config.Model cfg;
                    claude.systemPrompt := config.SystemPrompt cfg;
                    claude.maxTokens := config.MaxTokens cfg;
                    claude.client := config.http_Client |}
             else
               Provider_openai
                 {| openai.name := name;
                    openai.apiKey := config.APIKey cfg;
                    openai.baseURL := config.BaseURL cfg;
                    openai.model := config.Model cfg;
                    openai.systemPrompt := config.SystemPrompt cfg;
                    openai.maxTokens := config.MaxTokens cfg;
                    openai.client := config.http_Client |}))
    providers.

(** ** Fixtures for the configuration *)

(** A host with the home directory /home/u, one environment variable and a
    configuration file of two providers that sets no default. *)
Definition fixture_config : config.Config :=
  {| config.DefaultProvider := "anthropic";
     config.Providers :=
       <["anthropic" := {| config.APIKey := "$ANTHROPIC_API_KEY";
                           config.BaseURL := "https://api.anthropic.com";
                           config.Model := "claude-sonnet";
                           config.SystemPrompt := "";
                           config.MaxTokens := 0 |}]>
         (<["local" := {| config.APIKey := "none";
                          config.BaseURL := "http://localhost:11434/v1";
                          config.Model := "llama3";
                          config.SystemPrompt := "Be brief";
                          config.MaxTokens := 2000 |}]> ∅);
     config.Storage_ := {| config.DBPath := ""; config.NotesDir := "~/notes" |};
     config.UI_ := {| config.ShowTokens := true; config.MaxWidth := 0 |} |}.

Definition fixture_host : config.Host :=
  {| config.toml_DecodeFile := fun path =>
       if String.eqb path "/home/u/.config/ai-tui/config.toml"
       then Ok fixture_config
       else Err (errorString "no such file or directory");
     config.os_UserHomeDir := Ok "/home/u";
     config.os_Getenv := fun name =>
       if String.eqb name "ANTHROPIC_API_KEY" then "sk-ant-1" else "";
     config.filepath_Join := fun parts =>
       match parts with
       | [] => ""
       | first :: rest => fold_left (fun acc part => acc +:+ "/" +:+ part) rest first
       end;
     config.http_Client := respond 200 body_claude |}.

(** [chunk.Content], for use where another [Content] is in scope. *)
Definition chunk_Content (chunk : StreamChunk) : string := Content chunk.

(** * The compose view: the caller of [Stream] *)

(** A line feed. *)
Definition nl : string := String (Ascii.ascii_of_nat 10) "".

(** [db.Session], with its times as seconds. *)
Record Session := {
  ID : string;
  Title : string;
  SessionProvider : string;
  SessionModel : string;
  CreatedAt : Z;
  UpdatedAt : Z;
  Archived : bool
}.

Module compose.

Inductive KeyType := KeyEnter | KeyEsc | KeyCtrlC | KeyOther.

(** [tea.KeyMsg]: its type and, for the text area, the runes typed. *)
Record KeyMsg := {
  Type_ : KeyType;
  Runes : string
}.

Inductive style := userStyle | assistantStyle | errorStyle | helpStyle.

(** The libraries under the view: the text area and the viewport of
    bubbles, [lipgloss.Style.Render] and [strings.TrimSpace]. *)
Class Bubbles := {
  textarea : Type;
  textarea_cmd : Type;
  textarea_New : textarea;
  textarea_Value : textarea -> string;
  textarea_Reset : textarea -> textarea;
  textarea_Update : textarea -> KeyMsg -> textarea * textarea_cmd;
  viewport : Type;
  viewport_New : viewport;
  viewport_SetContent : viewport -> string -> viewport;
  viewport_GotoBottom : viewport -> viewport;
  Render : style -> string -> string;
  strings_TrimSpace : string -> string
}.

Record DisplayMessage := {
  Role : string;
  Content : string
}.

(** The messages of the view. [SessionCreatedMsg] holds the session itself:
    the one place that builds the message, [createSessionCmd], puts a
    pointer that is not nil. [OtherMsg] is any message of another type. *)
Inductive Msg :=
| Key (msg : KeyMsg)
| StreamChunkMsg (content : string) (done : bool)
| StreamErrMsg (err : option error)
| StreamStartedMsg
| SessionCreatedMsg (session : Session)
| MessageSavedMsg
| OtherMsg.

(** The commands [Update] returns, by the function that makes them. *)
Inductive Cmd `{Bubbles} :=
| createSessionCmd (provider : option Provider)
| saveMessageCmd (sessionID role content : string)
| updateTitleCmd (sessionID title : string)
| streamCmd (provider : Provider) (msgs : list ChatMessage)
| textareaCmd (c : textarea_cmd).

(** The model. [streamBuf] is the text of the builder; [db], [program] and
    [cancelFn] are kept as "is not nil", which is all the view asks of
    them. *)
Record Model `{Bubbles} := {
  textarea_ : textarea;
  viewport_ : viewport;
  messages : list DisplayMessage;
  streaming : bool;
  streamBuf : string;
  session : option Session;
  db : bool;
  provider : option Provider;
  program : bool;
  cancelFn : bool;
  err : option error;
  width : Z;
  height : Z
}.

Definition New `{Bubbles} (database : bool) (p : option Provider) : Model :=
  {| textarea_ := textarea_New;
     viewport_ := viewport_New;
     messages := [];
     streaming := false;
     streamBuf := "";
     session := None;
     db := database;
     provider := p;
     program := false;
     cancelFn := false;
     err := None;
     width := 0;
     height := 0 |}.

(** What [updateViewport] writes into the viewport. *)
Fixpoint render_messages `{Bubbles} (msgs : list DisplayMessage) : string :=
  match msgs with
  | [] => ""
  | msg :: rest =>
      (if String.eqb (Role msg) "user" then
         Render userStyle "You:" +:+ nl +:+ Content msg +:+ nl +:+ nl
       else if String.eqb (Role msg) "assistant" then
         Render assistantStyle "Assistant:" +:+ nl +:+ Content msg +:+ nl +:+ nl
       else "")
      +:+ render_messages rest
  end.

Definition viewport_text `{Bubbles} (m : Model) : string :=
  render_messages (messages m)
  +:+ (if streaming m && (0 <? String.length (streamBuf m))%nat
       then Render assistantStyle "Assistant:" +:+ nl +:+ streamBuf m +:+ nl
       else "")
  +:+ match err m with
      | Some e => Render errorStyle ("Error: " +:+ error_text e) +:+ nl
      | None => ""
      end.

Definition updateViewport `{Bubbles} (m : Model) : Model :=
  {| textarea_ := textarea_ m;
     viewport_ := viewport_GotoBottom (viewport_SetContent (viewport_ m) (viewport_text m));
     messages := messages m; streaming := streaming m; streamBuf := streamBuf m;
     session := session m; db := db m; provider := provider m; program := program m;
     cancelFn := cancelFn m; err := err m; width := width m; height := height m |}.

(** The chat messages built from the conversation on display. *)
Definition chatMsgs (msgs : list DisplayMessage) : list ChatMessage :=
  map (fun dm => Build_ChatMessage (Role dm) (Content dm)) msgs.

(** Assignments to fields of the model. *)
Definition set_textarea `{Bubbles} (m : Model) (ta : textarea) : Model :=
  {| textarea_ := ta; viewport_ := viewport_ m; messages := messages m;
     streaming := streaming m; streamBuf := streamBuf m; session := session m;
     db := db m; provider := provider m; program := program m;
     cancelFn := cancelFn m; err := err m; width := width m; height := height m |}.

Definition set_messages `{Bubbles} (m : Model) (msgs : list DisplayMessage) : Model :=
  {| textarea_ := textarea_ m; viewport_ := viewport_ m; messages := msgs;
     streaming := streaming m; streamBuf := streamBuf m; session := session m;
     db := db m; provider := provider m; program := program m;
     cancelFn := cancelFn m; err := err m; width := width m; height := height m |}.

Definition set_streaming `{Bubbles} (m : Model) (b : bool) : Model :=
  {| textarea_ := textarea_ m; viewport_ := viewport_ m; messages := messages m;
     streaming := b; streamBuf := streamBuf m; session := session m;
     db := db m; provider := provider m; program := program m;
     cancelFn := cancelFn m; err := err m; width := width m; height := height m |}.

Definition set_streamBuf `{Bubbles} (m : Model) (buf : string) : Model :=
  {| textarea_ := textarea_ m; viewport_ := viewport_ m; messages := messages m;
     streaming := streaming m; streamBuf := buf; session := session m;
     db := db m; provider := provider m; program := program m;
     cancelFn := cancelFn m; err := err m; width := width m; height := height m |}.

Definition set_session `{Bubbles} (m : Model) (s : option Session) : Model :=
  {| textarea_ := textarea_ m; viewport_ := viewport_ m; messages := messages m;
     streaming := streaming m; streamBuf := streamBuf m; session := s;
     db := db m; provider := provider m; program := program m;
     cancelFn := cancelFn m; err := err m; width := width m; height := height m |}.

Definition set_cancelFn `{Bubbles} (m : Model) (b : bool) : Model :=
  {| textarea_ := textarea_ m; viewport_ := viewport_ m; messages := messages m;
     streaming := streaming m; streamBuf := streamBuf m; session := session m;
     db := db m; provider := provider m; program := program m;
     cancelFn := b; err := err m; width := width m; height := height m |}.

Definition set_err `{Bubbles} (m : Model) (e : option error) : Model :=
  {| textarea_ := textarea_ m; viewport_ := viewport_ m; messages := messages m;
     streaming := streaming m; streamBuf := streamBuf m; session := session m;
     db := db m; provider := provider m; program := program m;
     cancelFn := cancelFn m; err := e; width := width m; height := height m |}.

Definition SetProgram `{Bubbles} (m : Model) : Model :=
  {| textarea_ := textarea_ m; viewport_ := viewport_ m; messages := messages m;
     streaming := streaming m; streamBuf := streamBuf m; session := session m;
     db := db m; provider := provider m; program := true;
     cancelFn := cancelFn m; err := err m; width := width m; height := height m |}.

(** [Update]: the model, the commands batched, and whether [m.cancelFn()]
    was called. *)
Definition Update `{Bubbles} (m : Model) (msg : Msg) : Model * list Cmd * bool :=
  match msg with
  | Key k =>
      match Type_ k with
      | KeyEnter =>
          if negb (streaming m)
             && negb (String.eqb (strings_TrimSpace (textarea_Value (textarea_ m))) "")
          then
            let text := strings_TrimSpace (textarea_Value (textarea_ m)) in
            let m := set_textarea m (textarea_Reset (textarea_ m)) in
            let m := set_messages m
                       (messages m ++ [{| Role := "user"; Content := text |}]) in
            let m := set_streaming m true in
            let m := set_err m None in
            let chat := chatMsgs (messages m) in
            let cmds : list Cmd := [] in
            let cmds :=
              match session m with
              | None => if db m then cmds ++ [createSessionCmd (provider m)] else cmds
              | Some _ => cmds
              end in
            let cmds :=
              match session m with
              | Some s => if db m then cmds ++ [saveMessageCmd (ID s) "user" text]
                          else cmds
              | None => cmds
              end in
            let cmds :=
              match provider m with
              | Some p => if program m then cmds ++ [streamCmd p chat] else cmds
              | None => cmds
              end in
            (updateViewport m, cmds, false)
          else
            let '(ta, c) := textarea_Update (textarea_ m) k in
            (set_textarea m ta, [textareaCmd c], false)
      | KeyEsc | KeyCtrlC =>
          if streaming m then
            let called := cancelFn m in
            let m := set_streaming m false in
            let m :=
              if (0 <? String.length (streamBuf m))%nat then
                set_streamBuf
                  (set_messages m
                     (messages m
                      ++ [{| Role := "assistant"; Content := streamBuf m |}]))
                  ""
              else m in
            (updateViewport m, [], called)
          else (m, [], false)
      | KeyOther =>
          if negb (streaming m) then
            let '(ta, c) := textarea_Update (textarea_ m) k in
            (set_textarea m ta, [textareaCmd c], false)
          else (m, [], false)
      end
  | StreamStartedMsg => (set_cancelFn m true, [], false)
  | SessionCreatedMsg s =>
      let m := set_session m (Some s) in
      let cmds : list Cmd :=
        if db m then
          match messages m with
          | firstMsg :: _ =>
              let title := Content firstMsg in
              let title :=
                if (60 <? String.length title)%nat
                then String.substring 0 60 title +:+ "..."
                else title in
              [saveMessageCmd (ID s) (Role firstMsg) (Content firstMsg);
               updateTitleCmd (ID s) title]
          | [] => []
          end
        else [] in
      (m, cmds, false)
  | StreamChunkMsg content done =>
      let m := set_streamBuf m (streamBuf m +:+ content) in
      if done then
        let m := set_streaming m false in
        let content := streamBuf m in
        let m := set_messages m
                   (messages m ++ [{| Role := "assistant"; Content := content |}]) in
        let m := set_streamBuf m "" in
        let cmds : list Cmd :=
          match session m with
          | Some s => if db m then [saveMessageCmd (ID s) "assistant" content] else []
          | None => []
          end in
        (updateViewport m, cmds, false)
      else (updateViewport m, [], false)
  | StreamErrMsg e =>
      let m := set_streaming m false in
      let m := set_err m e in
      let m := set_streamBuf m "" in
      (updateViewport m, [], false)
  | MessageSavedMsg => (m, [], false)
  | OtherMsg => (m, [], false)
  end.

(** The program delivering messages one after the other. *)
Fixpoint feed `{Bubbles} (m : Model) (msgs : list Msg) : Model :=
  match msgs with
  | [] => m
  | msg :: rest => feed (Update m msg).1.1 rest
  end.

(** The goroutine of [streamCmd], over the chunks it receives: what it
    sends to the program. *)
Fixpoint pump (chunks : list StreamChunk) : list Msg :=
  match chunks with
  | [] => []
  | chunk :: rest =>
      match Error chunk with
      | Some e => [StreamErrMsg (Some e)]
      | None => StreamChunkMsg (chunk_Content chunk) (Done chunk) :: pump rest
      end
  end.

(** The function [streamCmd] returns, run: the message it returns, the
    messages its goroutine sends to the program, and whether it called
    [cancel]. *)
Definition streamCmd_run `{GoLib} (p : Provider) (w w_sse : sched)
    (msgs : list ChatMessage) : Msg * list Msg * bool :=
  let c := Provider_Stream p w w_sse msgs in
  match ret_err c with
  | Some e => (StreamErrMsg (Some e), [], true)
  | None =>
      (StreamStartedMsg,
       match ret_chan c with
       | Some s => pump (sent (trace (out s)))
       | None => []
       end,
       false)
  end.

End compose.

(** All the text of a list of chunks. *)
Definition texts (cs : list StreamChunk) : string :=
  fold_right (fun c acc => Content c +:+ acc) "" cs.

(** ** Fixtures for the compose view *)

(** Libraries that do as little as can be: a text area that is its text,
    a viewport that is its content, styles that render nothing. *)
Definition fixture_bubbles : compose.Bubbles :=
  {| compose.textarea := string;
     compose.textarea_cmd := unit;
     compose.textarea_New := "";
     compose.textarea_Value := fun ta => ta;
     compose.textarea_Reset := fun _ => "";
     compose.textarea_Update := fun ta k => (ta +:+ compose.Runes k, tt);
     compose.viewport := string;
     compose.viewport_New := "";
     compose.viewport_SetContent := fun _ content => content;
     compose.viewport_GotoBottom := fun vp => vp;
     compose.Render := fun _ text => text;
     compose.strings_TrimSpace := fun text => text |}.

(** * export.go: a session as a markdown file *)

(** [db.Message], with its time as seconds. *)
Module db.

Record Message := {
  ID : Z;
  SessionID : string;
  Role : string;
  Content : string;
  CreatedAt : Z;
  Tokens : Z
}.

End db.

Module export.

(** The host, as far as export.go asks it: [strings.ToLower],
    [time.Time.Format] by layout, [filepath.Join] and [filepath.Abs],
    [os.MkdirAll], [os.WriteFile], and whether [os.Stat] fails with an
    error that [os.IsNotExist] accepts. *)
Class Host := {
  strings_ToLower : string -> string;
  time_Format : Z -> string -> string;
  filepath_Join : string -> string -> string;
  filepath_Abs : string -> result string;
  os_MkdirAll : string -> option error;
  os_WriteFile : string -> string -> option error;
  os_Stat_IsNotExist : string -> bool
}.

Definition hyphen : Ascii.ascii := Ascii.ascii_of_nat 45.

(** A byte in [a-z0-9]. *)
Definition lower_alnum (c : Ascii.ascii) : bool :=
  let n := Ascii.nat_of_ascii c in
  ((97 <=? n) && (n <=? 122))%nat || ((48 <=? n) && (n <=? 57))%nat.

(** [regexp.MustCompile(class+).ReplaceAllString(s, "-")] for a class of
    single bytes or, as in [^a-z0-9], the complement of one: every
    maximal run of bytes of the class becomes one hyphen. [in_run] tells
    that the byte before was of the class. *)
Fixpoint replace_runs (class : Ascii.ascii -> bool) (in_run : bool) (s : string)
    : string :=
  match s with
  | EmptyString => EmptyString
  | String c rest =>
      if class c then
        if in_run then replace_runs class true rest
        else String hyphen (replace_runs class true rest)
      else String c (replace_runs class false rest)
  end.

(** [strings.TrimLeft(s, "-")] and [strings.TrimRight(s, "-")], and
    [strings.Trim(s, "-")] which is both. *)
Fixpoint TrimLeft_hyphen (s : string) : string :=
  match s with
  | EmptyString => EmptyString
  | String c rest => if Ascii.eqb c hyphen then TrimLeft_hyphen rest else s
  end.

Fixpoint TrimRight_hyphen (s : string) : string :=
  match s with
  | EmptyString => EmptyString
  | String c rest =>
      match TrimRight_hyphen rest with
      | EmptyString => if Ascii.eqb c hyphen then EmptyString else String c EmptyString
      | rest' => String c rest'
      end
  end.

Definition Trim_hyphen (s : string) : string := TrimRight_hyphen (TrimLeft_hyphen s).

Definition sanitizeTitle `{Host} (title : string) : string :=
  if String.eqb title "" then "untitled"
  else
    let s := strings_ToLower title in
    let s := replace_runs (fun c => negb (lower_alnum c)) false s in
    let s := replace_runs (fun c => Ascii.eqb c hyphen) false s in
    let s := Trim_hyphen s in
    let s :=
      if (50 <? String.length s)%nat
      then TrimRight_hyphen (String.substring 0 50 s)
      else s in
    if String.eqb s "" then "untitled" else s.

Fixpoint write_messages (messages : list db.Message) : string :=
  match messages with
  | [] => ""
  | msg :: rest =>
      (if String.eqb (db.Role msg) "system" then ""
       else
         "---" +:+ nl +:+ nl
         +:+ (if String.eqb (db.Role msg) "user" then "**You:**" +:+ nl +:+ nl
              else if String.eqb (db.Role msg) "assistant"
                   then "**Assistant:**" +:+ nl +:+ nl
                   else "")
         +:+ db.Content msg +:+ nl +:+ nl)
      +:+ write_messages rest
  end.

Definition buildMarkdownContent `{Host} (session : Session)
    (messages : list db.Message) : string :=
  ("# " +:+ Title session +:+ nl +:+ nl)
  +:+ ("**Provider:** " +:+ SessionProvider session +:+ " | **Model:** "
       +:+ SessionModel session +:+ "  " +:+ nl)
  +:+ ("**Date:** " +:+ time_Format (CreatedAt session) "January 2, 2006 3:04 PM"
       +:+ nl +:+ nl)
  +:+ write_messages messages
  +:+ ("---" +:+ nl).

(** The loop that looks for a name not yet taken. It ends when [os.Stat]
    says the file does not exist; [fuel] bounds the number of names
    tried, and [None] is a loop that has not ended within it. *)
Fixpoint free_filename `{Host} (fuel : nat) (dir datePrefix sanitizedTitle : string)
    (filename : string) (counter : Z) : option string :=
  match fuel with
  | O => None
  | S fuel' =>
      if os_Stat_IsNotExist (filepath_Join dir filename) then Some filename
      else
        free_filename fuel' dir datePrefix sanitizedTitle
          (datePrefix +:+ "-" +:+ sanitizedTitle +:+ "-" +:+ itoa counter +:+ ".md")
          (counter + 1)
  end.

(** [ToMarkdown]: what it returns, and the file it wrote if it wrote one;
    [None] when the search for a name has not ended within [fuel]. *)
Definition ToMarkdown `{Host} (fuel : nat) (session : Session)
    (messages : list db.Message) (dir : string)
    : option (result string * option (string * string)) :=
  match os_MkdirAll dir with
  | Some err => Some (Err (Errorf_w "failed to create directory" err), None)
  | None =>
      let datePrefix := time_Format (CreatedAt session) "2006-01-02" in
      let sanitizedTitle := sanitizeTitle (Title session) in
      let baseFilename := datePrefix +:+ "-" +:+ sanitizedTitle +:+ ".md" in
      match free_filename fuel dir datePrefix sanitizedTitle baseFilename 1 with
      | None => None
      | Some filename =>
          let fullPath := filepath_Join dir filename in
          let content := buildMarkdownContent session messages in
          match os_WriteFile fullPath content with
          | Some err => Some (Err (Errorf_w "failed to write file" err), None)
          | None =>
              match filepath_Abs fullPath with
              | Err _ => Some (Ok fullPath, Some (fullPath, content))
              | Ok absPath => Some (Ok absPath, Some (fullPath, content))
              end
          end
      end
  end.

End export.

(** Every byte of a string satisfies [p]. *)
Fixpoint string_forall (p : Ascii.ascii -> bool) (s : string) : bool :=
  match s with
  | EmptyString => true
  | String c rest => p c && string_forall p rest
  end.

(** No two hyphens in a row. *)
Fixpoint no_double_hyphen (s : string) : bool :=
  match s with
  | String c (String d _ as rest) =>
      negb (Ascii.eqb c export.hyphen && Ascii.eqb d export.hyphen)
      && no_double_hyphen rest
  | _ => true
  end.

(** The last byte of a string. *)
Fixpoint last_byte (s : string) : option Ascii.ascii :=
  match s with
  | EmptyString => None
  | String c EmptyString => Some c
  | String _ rest => last_byte rest
  end.

Definition first_byte (s : string) : option Ascii.ascii :=
  match s with
  | EmptyString => None
  | String c _ => Some c
  end.

(** A byte in [a-z0-9-]. *)
Definition alnum_or_hyphen (c : Ascii.ascii) : bool :=
  export.lower_alnum c || Ascii.eqb c export.hyphen.

(** A name fit to be part of a file name: not empty, at most 50 bytes, all
    in [a-z0-9-], no two hyphens in a row and none at either end. *)
Definition safe_component (s : string) : Prop :=
  s <> "" /\
  (String.length s <= 50)%nat /\
  string_forall alnum_or_hyphen s = true /\
  no_double_hyphen s = true /\
  first_byte s <> Some export.hyphen /\
  last_byte s <> Some export.hyphen.

(** The names [ToMarkdown] tries, in order: date-title.md, then
    date-title-1.md, date-title-2.md and so on. *)
Definition candidate (datePrefix sanitizedTitle : string) (k : nat) : string :=
  match k with
  | O => datePrefix +:+ "-" +:+ sanitizedTitle +:+ ".md"
  | S _ => datePrefix +:+ "-" +:+ sanitizedTitle +:+ "-" +:+ itoa (Z.of_nat k) +:+ ".md"
  end.

(** ** Fixtures for the export *)

(** A host on which ASCII letters are lowered byte by byte, dates are
    fixed texts, two names of the directory are taken and nothing fails. *)
Definition ascii_lower (c : Ascii.ascii) : Ascii.ascii :=
  let n := Ascii.nat_of_ascii c in
  if ((65 <=? n) && (n <=? 90))%nat then Ascii.ascii_of_nat (n + 32) else c.

Fixpoint map_string (f : Ascii.ascii -> Ascii.ascii) (s : string) : string :=
  match s with
  | EmptyString => EmptyString
  | String c rest => String (f c) (map_string f rest)
  end.

Definition fixture_export : export.Host :=
  {| export.strings_ToLower := map_string ascii_lower;
     export.time_Format := fun _ layout =>
       if String.eqb layout "2006-01-02" then "2026-02-03"
       else "February 3, 2026 2:30 PM";
     export.filepath_Join := fun dir name => dir +:+ "/" +:+ name;
     export.filepath_Abs := fun path => Ok path;
     export.os_MkdirAll := fun _ => None;
     export.os_WriteFile := fun _ _ => None;
     export.os_Stat_IsNotExist := fun path =>
       negb (String.eqb path "/notes/2026-02-03-test-session.md"
             || String.eqb path "/notes/2026-02-03-test-session-1.md") |}.

Definition fixture_session : Session :=
  {| ID := "session-123"; Title := "Test Session!"; SessionProvider := "anthropic";
     SessionModel := "claude-opus-4"; CreatedAt := 1770129000;
     UpdatedAt := 1770129000; Archived := false |}.

(** * Properties *)

Example ParseSSE_comments_ignored :
  trace (ParseSSE quiet body_comments echo)
  = [EvOnData "chunk1"; EvSend {| Content := "chunk1"; Done := false; Error := None |};
     EvOnData "chunk2"; EvSend {| Content := "chunk2"; Done := false; Error := None |};
     EvBodyClose; EvChanClose].
Proof. reflexivity. Qed.

(** TestParseSSE_StopSignal: chunk1 and chunk2 only. *)
Example ParseSSE_stop_signal :
  sent (trace (ParseSSE quiet body_five stop_at_chunk2))
  = [{| Content := "chunk1"; Done := false; Error := None |};
     {| Content := "chunk2"; Done := false; Error := None |}].
Proof. reflexivity. Qed.

(** TestParseSSE_ContextCancellation: the consumer reads one chunk and
    cancels; the goroutine sees it before the second line and returns. *)
Example ParseSSE_context_cancellation :
  ParseSSE cancel_after_first body_five echo
  = {| trace := [EvOnData "chunk1";
                 EvSend {| Content := "chunk1"; Done := false; Error := None |};
                 EvBodyClose; EvChanClose];
       exited := true |}.
Proof. reflexivity. Qed.

(** With the consumer gone and the context never cancelled the first chunk
    fills the slot of the channel and the goroutine sleeps in its second
    send: it does not return and closes nothing. *)
Example ParseSSE_abandoned :
  ParseSSE abandoned body_five echo
  = {| trace := [EvOnData "chunk1";
                 EvSend {| Content := "chunk1"; Done := false; Error := None |};
                 EvOnData "chunk2"];
       exited := false |}.
Proof. reflexivity. Qed.

Lemma quiet_undisturbed : undisturbed quiet.
Proof. intros k. split; reflexivity. Qed.

(** ** Strings *)

Lemma HasPrefix_nil (s : string) : HasPrefix s "" = true.
Proof. unfold HasPrefix. by destruct s. Qed.

Lemma HasPrefix_empty (c : Ascii.ascii) (p : string) : HasPrefix "" (String c p) = false.
Proof. reflexivity. Qed.

Lemma HasPrefix_cons (c d : Ascii.ascii) (s p : string) :
  HasPrefix (String c s) (String d p) = Ascii.eqb c d && HasPrefix s p.
Proof.
  unfold HasPrefix. cbn [String.length String.substring String.eqb].
  change (S (String.length p) <=? S (String.length s))%nat
    with (String.length p <=? String.length s)%nat.
  destruct (Ascii.eqb c d), (String.length p <=? String.length s)%nat; reflexivity.
Qed.

Lemma app_nil_string (r : string) : "" +:+ r = r.
Proof. reflexivity. Qed.

Lemma app_cons_string (c : Ascii.ascii) (p r : string) :
  String c p +:+ r = String c (p +:+ r).
Proof. reflexivity. Qed.

Lemma HasPrefix_app (p r : string) : HasPrefix (p +:+ r) p = true.
Proof.
  induction p as [|c p IH].
  - apply HasPrefix_nil.
  - rewrite app_cons_string, HasPrefix_cons, Ascii.eqb_refl. exact IH.
Qed.

Lemma HasPrefix_inv (s p : string) :
  HasPrefix s p = true -> exists r : string, s = p +:+ r.
Proof.
  revert s. induction p as [|d p IH]; intros s H.
  - by exists s.
  - destruct s as [|c s]; [discriminate|].
    rewrite HasPrefix_cons in H. apply andb_prop in H as [Hc Hs].
    apply Ascii.eqb_eq in Hc as ->.
    destruct (IH _ Hs) as [r ->]. by exists r.
Qed.

Lemma substring_app_drop (p r : string) :
  String.substring (String.length p) (String.length r) (p +:+ r) = r.
Proof.
  induction p as [|c p IH].
  - rewrite app_nil_string. cbn [String.length].
    induction r as [|c r IH]; cbn; [done | by rewrite IH].
  - rewrite app_cons_string. cbn [String.length String.substring]. exact IH.
Qed.

Lemma length_app_string (p r : string) :
  String.length (p +:+ r) = (String.length p + String.length r)%nat.
Proof.
  induction p as [|c p IH]; [done|].
  rewrite app_cons_string. cbn [String.length]. by rewrite IH.
Qed.

Lemma TrimPrefix_app (p r : string) : TrimPrefix (p +:+ r) p = r.
Proof.
  unfold TrimPrefix. rewrite HasPrefix_app, length_app_string.
  replace (String.length p + String.length r - String.length p)%nat
    with (String.length r) by lia.
  apply substring_app_drop.
Qed.

Lemma app_assoc_string (p q r : string) : (p +:+ q) +:+ r = p +:+ (q +:+ r).
Proof.
  induction p as [|c p IH]; [done|].
  by rewrite !app_cons_string, IH.
Qed.

Lemma HasPrefix_trans (s p q : string) :
  HasPrefix s p = true -> HasPrefix p q = true -> HasPrefix s q = true.
Proof.
  intros [r ->]%HasPrefix_inv [r' ->]%HasPrefix_inv.
  rewrite app_assoc_string. apply HasPrefix_app.
Qed.

(** ** stream.go: one line at a time *)

Lemma payload_of_blank : payload_of "" = None.
Proof. reflexivity. Qed.

Lemma payload_of_comment (line : string) :
  HasPrefix line ":" = true -> payload_of line = None.
Proof. unfold payload_of. intros ->. by destruct (String.eqb line ""). Qed.

Lemma payload_of_data (d : string) : payload_of ("data: " +:+ d) = Some d.
Proof.
  unfold payload_of. rewrite HasPrefix_app, TrimPrefix_app. reflexivity.
Qed.

Lemma payload_of_other (line : string) :
  HasPrefix line "data: " = false -> payload_of line = None.
Proof.
  unfold payload_of. intros ->.
  by destruct (String.eqb line ""), (HasPrefix line ":").
Qed.

Lemma payload_of_Some (line d : string) :
  payload_of line = Some d -> line = "data: " +:+ d.
Proof.
  unfold payload_of.
  destruct (String.eqb line ""); [done|].
  destruct (HasPrefix line ":"); [done|].
  destruct (HasPrefix line "data: ") eqn:E; [|done].
  apply HasPrefix_inv in E as [r ->]. rewrite TrimPrefix_app. congruence.
Qed.

(** The loop body, read through [payload_of]. *)
Lemma iteration_payload_of (w : sched) (onData : string -> StreamChunk * bool)
    (k : nat) (line : string) :
  iteration w onData k line =
  if select_poll w k then ([], S k, Return)
  else match payload_of line with
       | None => ([], S k, Continue)
       | Some d =>
           match select_send w (S k) with
           | SelSend =>
               ([EvOnData d; EvSend (fst (onData d))], S (S k),
                if snd (onData d) then Return else Continue)
           | SelDone => ([EvOnData d], S (S k), Return)
           | SelBlocked => ([EvOnData d], S (S k), Block)
           end
       end.
Proof.
  unfold iteration, payload_of.
  destruct (select_poll w k); [done|].
  destruct (String.eqb line ""); [done|].
  destruct (HasPrefix line ":"); [done|].
  destruct (HasPrefix line "data: "); [|done].
  by destruct (onData (TrimPrefix line "data: ")).
Qed.

Lemma iteration_ignores (w : sched) (onData : string -> StreamChunk * bool)
    (k : nat) (line : string) :
  payload_of line = None ->
  iteration w onData k line
  = ([], S k, if select_poll w k then Return else Continue).
Proof.
  intros H. rewrite iteration_payload_of, H. by destruct (select_poll w k).
Qed.

Lemma iteration_data (w : sched) (onData : string -> StreamChunk * bool)
    (k : nat) (d : string) :
  select_poll w k = false -> select_send w (S k) = SelSend ->
  iteration w onData k ("data: " +:+ d)
  = ([EvOnData d; EvSend (fst (onData d))], S (S k),
     if snd (onData d) then Return else Continue).
Proof.
  intros Hp Hs. by rewrite iteration_payload_of, Hp, payload_of_data, Hs.
Qed.

(** ** stream.go: the loop *)

Lemma invoked_app (t u : list event) : invoked (t ++ u) = invoked t ++ invoked u.
Proof. apply flat_map_app. Qed.

Lemma sent_app (t u : list event) : sent (t ++ u) = sent t ++ sent u.
Proof. apply flat_map_app. Qed.

Lemma sent_emit (onData : string -> StreamChunk * bool) (ps : list string) :
  sent (emit onData ps) = map (fun d => fst (onData d)) ps.
Proof.
  induction ps as [|d ps IH]; [done|]. unfold sent, emit in *. cbn. by f_equal.
Qed.

Lemma scan_loop_cons (w : sched) (onData : string -> StreamChunk * bool)
    (k : nat) (line : string) (rest : list string) :
  scan_loop w onData k (line :: rest) =
  match iteration w onData k line with
  | (evs, k', Continue) =>
      match scan_loop w onData k' rest with
      | (evs', k'', f') => (evs ++ evs', k'', f')
      end
  | (evs, k', f) => (evs, k', f)
  end.
Proof.
  cbn [scan_loop]. destruct (iteration w onData k line) as [[evs k'] f].
  by destruct f.
Qed.

Lemma payloads_cons (line : string) (rest : list string) :
  payloads (line :: rest)
  = match payload_of line with
    | Some d => d :: payloads rest
    | None => payloads rest
    end.
Proof. reflexivity. Qed.

(** The decoder is called on payloads of the source only, in source order,
    whatever the scheduling. *)
Lemma scan_loop_invoked (w : sched) (onData : string -> StreamChunk * bool)
    (ls : list string) (k : nat) :
  invoked (scan_loop w onData k ls).1.1 `prefix_of` payloads ls.
Proof.
  revert k. induction ls as [|line rest IH]; intros k.
  - done.
  - rewrite scan_loop_cons, iteration_payload_of, payloads_cons.
    destruct (select_poll w k); [apply prefix_nil|].
    destruct (payload_of line) as [d|].
    + destruct (select_send w (S k)); cbn.
      * destruct (snd (onData d)).
        -- apply prefix_cons, prefix_nil.
        -- specialize (IH (S (S k))).
           destruct (scan_loop w onData (S (S k)) rest) as [[evs' k''] f'].
           cbn in *. by apply prefix_cons.
      * apply prefix_cons, prefix_nil.
      * apply prefix_cons, prefix_nil.
    + specialize (IH (S k)).
      by destruct (scan_loop w onData (S k) rest) as [[evs' k''] f'].
Qed.

(** Every chunk sent is the decoder's answer to a call made before it, one
    chunk per call at most, in the order of the calls. *)
Lemma scan_loop_sent (w : sched) (onData : string -> StreamChunk * bool)
    (ls : list string) (k : nat) :
  sent (scan_loop w onData k ls).1.1
    `prefix_of` map (fun d => fst (onData d)) (invoked (scan_loop w onData k ls).1.1).
Proof.
  revert k. induction ls as [|line rest IH]; intros k.
  - done.
  - rewrite scan_loop_cons, iteration_payload_of.
    destruct (select_poll w k); [done|].
    destruct (payload_of line) as [d|].
    + destruct (select_send w (S k)); cbn.
      * destruct (snd (onData d)); [done|].
        specialize (IH (S (S k))).
        destruct (scan_loop w onData (S (S k)) rest) as [[evs' k''] f'].
        cbn in *. by apply prefix_cons.
      * apply prefix_nil.
      * apply prefix_nil.
    + specialize (IH (S k)).
      by destruct (scan_loop w onData (S k) rest) as [[evs' k''] f'].
Qed.

(** Left alone, the loop makes one call and sends one chunk per payload, up
    to the first stop. *)
Lemma scan_loop_undisturbed (w : sched) (onData : string -> StreamChunk * bool)
    (ls : list string) (k : nat) :
  undisturbed w ->
  exists k' : nat,
    scan_loop w onData k ls
    = (emit onData (upto_stop onData (payloads ls)), k',
       if existsb (fun d => snd (onData d)) (payloads ls) then Return else Continue).
Proof.
  intros Hw. revert k. induction ls as [|line rest IH]; intros k.
  - by exists k.
  - rewrite scan_loop_cons, iteration_payload_of, payloads_cons.
    destruct (Hw k) as [Hd _]. unfold select_poll. rewrite Hd.
    destruct (payload_of line) as [d|].
    + destruct (Hw (S k)) as [_ ->]. cbn [upto_stop existsb].
      destruct (snd (onData d)); cbn [orb].
      * by exists (S (S k)).
      * destruct (IH (S (S k))) as [k' ->]. by exists k'.
    + destruct (IH (S k)) as [k' ->]. by exists k'.
Qed.

(** ** stream.go: the goroutine *)

Lemma ParseSSE_unfold (w : sched) (body : ReadCloser)
    (onData : string -> StreamChunk * bool) :
  ParseSSE w body onData =
  match scan_loop w onData 0 (lines body) with
  | (evs, _, Block) => {| trace := evs; exited := false |}
  | (evs, _, Return) => {| trace := evs ++ ParseSSE_deferred; exited := true |}
  | (evs, k, Continue) =>
      match scan_err body with
      | Some err =>
          match select_send w k with
          | SelSend =>
              {| trace := evs ++ [EvSend (error_chunk err)] ++ ParseSSE_deferred;
                 exited := true |}
          | SelDone => {| trace := evs ++ ParseSSE_deferred; exited := true |}
          | SelBlocked => {| trace := evs; exited := false |}
          end
      | None => {| trace := evs ++ ParseSSE_deferred; exited := true |}
      end
  end.
Proof.
  unfold ParseSSE. destruct (scan_loop w onData 0 (lines body)) as [[evs k] f].
  by destruct f.
Qed.

Lemma ParseSSE_invoked (w : sched) (body : ReadCloser)
    (onData : string -> StreamChunk * bool) :
  invoked (trace (ParseSSE w body onData))
  = invoked (scan_loop w onData 0 (lines body)).1.1.
Proof.
  rewrite ParseSSE_unfold.
  destruct (scan_loop w onData 0 (lines body)) as [[evs k] f].
  destruct f; cbn [trace fst]; rewrite ?invoked_app, ?app_nil_r; try done.
  destruct (scan_err body); [destruct (select_send w k)|];
    cbn [trace]; by rewrite ?invoked_app, ?app_nil_r.
Qed.

Lemma ParseSSE_undisturbed (w : sched) (body : ReadCloser)
    (onData : string -> StreamChunk * bool) :
  undisturbed w ->
  ParseSSE w body onData
  = {| trace := emit onData (upto_stop onData (payloads (lines body)))
                  ++ trailer onData body ++ ParseSSE_deferred;
       exited := true |}.
Proof.
  intros Hw. rewrite ParseSSE_unfold. unfold trailer.
  destruct (scan_loop_undisturbed w onData (lines body) 0 Hw) as [k ->].
  destruct (existsb _ _); [done|].
  destruct (scan_err body); [|done].
  by destruct (Hw k) as [_ ->].
Qed.

(** C5. For every line sequence fed to the frame extractor: a blank line or
    a line beginning with ":" never produces a decoder call or a chunk, and
    neither does any line without the prefix "data: "; a line "data: d"
    has exactly that prefix stripped and, when no cancellation is observed
    and the send goes through, yields one call of the decoder on [d] and one
    chunk sent; over the whole source the decoder is called on payloads of
    the source only, in source order, the chunks sent by the loop are the
    answers to these calls, one per call at most and in the same order,
    and a stream left alone makes exactly one call and one send per payload
    up to the first stop. *)
Theorem ParseSSE_frames (w : sched) (body : ReadCloser)
    (onData : string -> StreamChunk * bool) :
  (forall (line : string) (k : nat),
      line = "" \/ HasPrefix line ":" = true ->
      (iteration w onData k line).1.1 = []) /\
  (forall (line : string) (k : nat),
      HasPrefix line "data: " = false ->
      (iteration w onData k line).1.1 = []) /\
  (forall (d : string) (k : nat),
      select_poll w k = false -> select_send w (S k) = SelSend ->
      (iteration w onData k ("data: " +:+ d)).1.1
      = [EvOnData d; EvSend (fst (onData d))]) /\
  invoked (trace (ParseSSE w body onData)) `prefix_of` payloads (lines body) /\
  sent (scan_loop w onData 0 (lines body)).1.1
    `prefix_of` map (fun d => fst (onData d)) (invoked (trace (ParseSSE w body onData))) /\
  (undisturbed w ->
   trace (ParseSSE w body onData)
   = emit onData (upto_stop onData (payloads (lines body)))
       ++ trailer onData body ++ ParseSSE_deferred).
Proof.
  refine (conj _ (conj _ (conj _ (conj _ (conj _ _))))).
  - intros line k [-> | H].
    + rewrite iteration_ignores by apply payload_of_blank. done.
    + rewrite iteration_ignores by (by apply payload_of_comment). done.
  - intros line k H. rewrite iteration_ignores by (by apply payload_of_other). done.
  - intros d k Hp Hs. by rewrite iteration_data.
  - rewrite ParseSSE_invoked. apply scan_loop_invoked.
  - rewrite ParseSSE_invoked. apply scan_loop_sent.
  - intros Hw. by rewrite ParseSSE_undisturbed.
Qed.

Lemma ParseSSE_frames_witness :
  undisturbed quiet /\
  trace (ParseSSE quiet body_comments echo)
  = emit echo (upto_stop echo (payloads (lines body_comments)))
      ++ trailer echo body_comments ++ ParseSSE_deferred.
Proof.
  split.
  - exact quiet_undisturbed.
  - exact (proj2 (proj2 (proj2 (proj2 (proj2
             (ParseSSE_frames quiet body_comments echo))))) quiet_undisturbed).
Defined.

(** C10, as the code has it. A line that begins with "data:" but not with
    "data: " is ignored: the decoder is not called and no chunk is sent;
    the loop goes on to the next line unless it sees the cancellation. *)
Theorem iteration_data_without_space (w : sched)
    (onData : string -> StreamChunk * bool) (k : nat) (line : string) :
  HasPrefix line "data:" = true ->
  HasPrefix line "data: " = false ->
  iteration w onData k line
  = ([], S k, if select_poll w k then Return else Continue).
Proof. intros _ H. apply iteration_ignores. by apply payload_of_other. Qed.

Lemma iteration_data_without_space_witness :
  HasPrefix "data:[DONE]" "data:" = true /\
  HasPrefix "data:[DONE]" "data: " = false /\
  iteration quiet echo 0 "data:[DONE]" = ([], 1%nat, Continue).
Proof.
  split; [reflexivity|]. split; [reflexivity|].
  exact (iteration_data_without_space quiet echo 0 "data:[DONE]" eq_refl eq_refl).
Defined.

(** C10 as stated fails: in "data:  x" the prefix "data:" is followed by
    two spaces, not by exactly one, and the line is processed: the decoder
    is called on " x" and its chunk is sent. *)
Lemma data_two_spaces_processed :
  HasPrefix "data:  x" "data:" = true /\
  one_space_after_data "data:  x" = false /\
  (iteration quiet echo 0 "data:  x").1.1
  = [EvOnData " x"; EvSend {| Content := " x"; Done := false; Error := None |}].
Proof. repeat split. Qed.

(** ** stream.go: the read error *)

(** C8, where the code departs from it. The consumer takes the first chunk
    and cancels; the read then fails. At the last [select] the context is
    already cancelled and the channel has room, both cases are ready, and
    the goroutine may well take the send: the error chunk is published
    although cancellation had fired. *)
Theorem ParseSSE_read_error_after_cancel :
  ctx_monotone cancel_after_first /\
  done_ready cancel_after_first 2 = true /\
  ParseSSE cancel_after_first body_dropped echo
  = {| trace := [EvOnData "chunk1";
                 EvSend {| Content := "chunk1"; Done := false; Error := None |};
                 EvSend (error_chunk (errorString "context canceled"));
                 EvBodyClose; EvChanClose];
       exited := true |}.
Proof.
  split; [|split; reflexivity].
  intros i j Hij. unfold cancel_after_first. cbn [done_ready].
  rewrite !Nat.leb_le. lia.
Qed.

(** What does hold of the read error: with the source read to its end, a
    read error and the send taken, the error chunk is the last chunk. *)
Lemma ParseSSE_read_error_published (w : sched) (body : ReadCloser)
    (onData : string -> StreamChunk * bool) (evs : list event) (k : nat)
    (err : error) :
  scan_loop w onData 0 (lines body) = (evs, k, Continue) ->
  scan_err body = Some err ->
  select_send w k = SelSend ->
  trace (ParseSSE w body onData)
  = evs ++ [EvSend (error_chunk err)] ++ ParseSSE_deferred.
Proof. intros H1 H2 H3. by rewrite ParseSSE_unfold, H1, H2, H3. Qed.

(** When the last [select] takes the cancellation, no error chunk is sent. *)
Lemma ParseSSE_read_error_skipped (w : sched) (body : ReadCloser)
    (onData : string -> StreamChunk * bool) (evs : list event) (k : nat)
    (err : error) :
  scan_loop w onData 0 (lines body) = (evs, k, Continue) ->
  scan_err body = Some err ->
  select_send w k = SelDone ->
  trace (ParseSSE w body onData) = evs ++ ParseSSE_deferred.
Proof. intros H1 H2 H3. by rewrite ParseSSE_unfold, H1, H2, H3. Qed.

(** A source that ends without a read error gets no trailing chunk. *)
Lemma ParseSSE_no_read_error (w : sched) (body : ReadCloser)
    (onData : string -> StreamChunk * bool) :
  scan_err body = None ->
  sent (trace (ParseSSE w body onData))
  = sent (scan_loop w onData 0 (lines body)).1.1.
Proof.
  intros H. rewrite ParseSSE_unfold, H.
  destruct (scan_loop w onData 0 (lines body)) as [[evs k] f].
  destruct f; cbn [trace fst]; by rewrite ?sent_app, ?app_nil_r.
Qed.

(** ** Closing the body and the channel *)

Lemma body_closes_app (t u : list event) :
  body_closes (t ++ u) = (body_closes t + body_closes u)%nat.
Proof. unfold body_closes. by rewrite List.filter_app, length_app. Qed.

Lemma chan_closes_app (t u : list event) :
  chan_closes (t ++ u) = (chan_closes t + chan_closes u)%nat.
Proof. unfold chan_closes. by rewrite List.filter_app, length_app. Qed.

Lemma no_close_counts (t : list event) :
  Forall (fun e => is_close e = false) t ->
  body_closes t = 0%nat /\ chan_closes t = 0%nat.
Proof.
  induction 1 as [|e t He _ [IHb IHc]]; [done|].
  unfold body_closes, chan_closes in *. by destruct e; cbn in *.
Qed.

Lemma close_is_last (t t1 t2 : list event) :
  Forall (fun e => is_close e = false) t ->
  t ++ [EvBodyClose; EvChanClose] = t1 ++ EvChanClose :: t2 ->
  t2 = [].
Proof.
  intros Ht. revert t1. induction Ht as [|x t Hx Ht IH]; intros t1 E.
  - destruct t1 as [|a [|b [|c t1]]]; cbn in E; by simplify_eq.
  - destruct t1 as [|a t1]; cbn in E; simplify_eq; eauto.
Qed.

Lemma no_close_no_split (t t1 t2 : list event) (e : event) :
  Forall (fun e => is_close e = false) t ->
  is_close e = true ->
  t <> t1 ++ e :: t2.
Proof.
  intros Ht He ->. apply Forall_app in Ht as [_ Ht].
  apply Forall_cons in Ht as [Ht _]. congruence.
Qed.

Lemma deferred_shape_body_closes (g : goroutine) :
  deferred_shape g ->
  body_closes (trace g) = if exited g then 1%nat else 0%nat.
Proof.
  intros (evs & Hn & E). rewrite E.
  pose proof (no_close_counts _ Hn) as [Hb _].
  destruct (exited g); cbn [trace exited]; [|done].
  by rewrite body_closes_app, Hb.
Qed.

Lemma deferred_shape_closes_channel_once (g : goroutine) :
  deferred_shape g -> closes_channel_once g.
Proof.
  intros (evs & Hn & E). rewrite E.
  pose proof (no_close_counts _ Hn) as [_ Hc].
  destruct (exited g); unfold closes_channel_once; cbn [trace exited].
  - rewrite chan_closes_app, Hc. repeat split; [cbn; lia|].
    intros t1 t2 Ht. by eapply close_is_last.
  - rewrite Hc. repeat split; [lia | | done].
    intros t1 t2 Ht. by destruct (no_close_no_split evs t1 t2 EvChanClose).
Qed.

Lemma iteration_no_close (w : sched) (onData : string -> StreamChunk * bool)
    (k : nat) (line : string) :
  Forall (fun e => is_close e = false) (iteration w onData k line).1.1.
Proof.
  rewrite iteration_payload_of.
  destruct (select_poll w k); [constructor|].
  destruct (payload_of line); [|constructor].
  destruct (select_send w (S k)); repeat constructor.
Qed.

Lemma scan_loop_no_close (w : sched) (onData : string -> StreamChunk * bool)
    (ls : list string) (k : nat) :
  Forall (fun e => is_close e = false) (scan_loop w onData k ls).1.1.
Proof.
  revert k. induction ls as [|line rest IH]; intros k; [constructor|].
  rewrite scan_loop_cons.
  pose proof (iteration_no_close w onData k line) as Hi.
  destruct (iteration w onData k line) as [[evs k'] f].
  destruct f; try exact Hi.
  specialize (IH k'). destruct (scan_loop w onData k' rest) as [[evs' k''] f'].
  cbn in *. by apply Forall_app.
Qed.

(** The goroutine of [ParseSSE] either returns, and its trace ends with the
    two deferred calls and has no other close, or sleeps for ever and has
    closed nothing. *)
Lemma ParseSSE_shape (w : sched) (body : ReadCloser)
    (onData : string -> StreamChunk * bool) :
  deferred_shape (ParseSSE w body onData).
Proof.
  unfold deferred_shape. rewrite ParseSSE_unfold.
  pose proof (scan_loop_no_close w onData (lines body) 0) as Hn.
  destruct (scan_loop w onData 0 (lines body)) as [[evs k] f]. cbn in Hn.
  destruct f.
  - destruct (scan_err body) as [err|]; [destruct (select_send w k)|].
    + exists (evs ++ [EvSend (error_chunk err)]). split.
      * apply Forall_app. split; [done | by repeat constructor].
      * cbn. by rewrite <- app_assoc.
    + by exists evs.
    + by exists evs.
    + by exists evs.
  - by exists evs.
  - by exists evs.
Qed.

(** On every path on which the goroutine of [ParseSSE] returns it has
    closed the body once; while it sleeps it has not closed it. *)
Lemma ParseSSE_body_closes (w : sched) (body : ReadCloser)
    (onData : string -> StreamChunk * bool) :
  body_closes (trace (ParseSSE w body onData))
  = if exited (ParseSSE w body onData) then 1%nat else 0%nat.
Proof. apply deferred_shape_body_closes, ParseSSE_shape. Qed.

(** ** Terminal chunks *)

Lemma terminal_last_split (l1 : list StreamChunk) (c : StreamChunk)
    (l2 : list StreamChunk) :
  terminal_last (l1 ++ c :: l2) -> terminal c = true -> l2 = [].
Proof.
  induction l1 as [|x l1 IH]; cbn.
  - intros [H _]. exact H.
  - intros [_ H]. by apply IH.
Qed.

Lemma terminal_last_nonterminal (l : list StreamChunk) :
  Forall (fun c => terminal c = false) l -> terminal_last l.
Proof.
  induction 1 as [|c l Hc _ IH]; cbn; [done|].
  split; [congruence | done].
Qed.

Lemma terminal_last_snoc (l : list StreamChunk) (c : StreamChunk) :
  Forall (fun c => terminal c = false) l -> terminal_last (l ++ [c]).
Proof.
  induction 1 as [|x l Hx _ IH]; cbn; [done|].
  split; [congruence | done].
Qed.

Lemma terminal_last_prefix (l l' : list StreamChunk) :
  l' `prefix_of` l -> terminal_last l -> terminal_last l'.
Proof.
  intros [r ->]. induction l' as [|c l' IH]; cbn; [done|].
  intros [H1 H2]. split; [|by apply IH].
  intros Hc. specialize (H1 Hc). by destruct l'.
Qed.

Lemma terminal_last_filter (f : StreamChunk -> bool) (l : list StreamChunk) :
  terminal_last l -> terminal_last (List.filter f l).
Proof.
  induction l as [|c l IH]; cbn; [done|].
  intros [H1 H2]. destruct (f c); cbn; [|by apply IH].
  split; [|by apply IH].
  intros Hc. by rewrite (H1 Hc).
Qed.

Lemma terminal_last_no_send_after (t : list event) :
  terminal_last (sent t) -> no_send_after_terminal t.
Proof.
  intros H t1 c t2 -> Hc. rewrite sent_app in H. cbn in H.
  by eapply terminal_last_split.
Qed.

(** While the loop goes on, nothing terminal has been sent; whatever way
    it ends, a terminal chunk is the last one sent. *)
Lemma scan_loop_terminal (w : sched) (onData : string -> StreamChunk * bool)
    (ls : list string) (k : nat) :
  stops_on_terminal onData ->
  terminal_last (sent (scan_loop w onData k ls).1.1) /\
  ((scan_loop w onData k ls).2 = Continue ->
   Forall (fun c => terminal c = false) (sent (scan_loop w onData k ls).1.1)).
Proof.
  intros Hs. revert k. induction ls as [|line rest IH]; intros k.
  - by split; [|constructor].
  - rewrite scan_loop_cons, iteration_payload_of.
    destruct (select_poll w k); [by split|].
    destruct (payload_of line) as [d|].
    + destruct (select_send w (S k)); [|by split..].
      destruct (snd (onData d)) eqn:Hstop; [by split|].
      destruct (IH (S (S k))) as [IH1 IH2].
      destruct (scan_loop w onData (S (S k)) rest) as [[evs' k''] f'].
      cbn in *.
      assert (terminal (fst (onData d)) = false) as Hd.
      { destruct (terminal (fst (onData d))) eqn:E; [|done].
        apply Hs in E. congruence. }
      split; [split; [congruence | done]|].
      intros ->. constructor; [done | by apply IH2].
    + destruct (IH (S k)) as [IH1 IH2].
      by destruct (scan_loop w onData (S k) rest) as [[evs' k''] f'].
Qed.

Lemma ParseSSE_terminal_last (w : sched) (body : ReadCloser)
    (onData : string -> StreamChunk * bool) :
  stops_on_terminal onData ->
  terminal_last (sent (trace (ParseSSE w body onData))).
Proof.
  intros Hs. rewrite ParseSSE_unfold.
  destruct (scan_loop_terminal w onData (lines body) 0 Hs) as [H1 H2].
  destruct (scan_loop w onData 0 (lines body)) as [[evs k] f]. cbn in H1, H2.
  destruct f; cbn [trace]; rewrite ?sent_app, ?app_nil_r; try done.
  destruct (scan_err body) as [err|]; [destruct (select_send w k)|];
    cbn [trace]; rewrite ?sent_app, ?app_nil_r; try done.
  apply terminal_last_snoc. by apply H2.
Qed.

(** ** claude.go: the decoder *)

Lemma claude_onData_unfold `{GoLib} (data : string) :
  claude.onData data =
  match json_Unmarshal_map data with
  | Err err => (error_chunk (Errorf_w "failed to parse SSE data" err), true)
  | Ok event =>
      match assert_string (event !! "type") with
      | None => (StreamChunk_zero, false)
      | Some eventType =>
          if String.eqb eventType "content_block_delta" then
            match assert_map (event !! "delta") with
            | None => (StreamChunk_zero, false)
            | Some delta =>
                match assert_string (delta !! "text") with
                | None => (StreamChunk_zero, false)
                | Some text =>
                    ({| Content := text; Done := false; Error := None |}, false)
                end
            end
          else if String.eqb eventType "message_stop" then
            ({| Content := ""; Done := true; Error := None |}, true)
          else if String.eqb eventType "error" then
            (error_chunk (errorString ("API error: " +:+ nested_message event)), true)
          else (StreamChunk_zero, false)
      end
  end.
Proof.
  unfold claude.onData, nested_message, assert_map, assert_string.
  destruct (json_Unmarshal_map data) as [event|err]; [|done].
  destruct (event !! "type") as [[]|]; try done.
  repeat case_match; by simplify_eq.
Qed.

(** C3. The event-typed decoder, for every payload: a content_block_delta
    with a text fragment gives a chunk with that content, continue;
    message_stop gives a done chunk, stop; an error event gives a chunk
    whose error is built from the message of the nested error object,
    "unknown error" when there is none, stop; any other kind, and any
    event without a type string, a delta object or a text string, gives
    the empty chunk, continue; a payload that does not decode gives an
    error chunk, stop. *)
Theorem claude_onData_table `{GoLib} (data : string) :
  (forall err : error,
      json_Unmarshal_map data = Err err ->
      claude.onData data
      = (error_chunk (Errorf_w "failed to parse SSE data" err), true)) /\
  (forall event : gmap string any,
      json_Unmarshal_map data = Ok event ->
      (forall (delta : gmap string any) (text : string),
          event !! "type" = Some (any_string "content_block_delta") ->
          event !! "delta" = Some (any_map delta) ->
          delta !! "text" = Some (any_string text) ->
          claude.onData data
          = ({| Content := text; Done := false; Error := None |}, false)) /\
      (event !! "type" = Some (any_string "message_stop") ->
       claude.onData data
       = ({| Content := ""; Done := true; Error := None |}, true)) /\
      (event !! "type" = Some (any_string "error") ->
       claude.onData data
       = (error_chunk (errorString ("API error: " +:+ nested_message event)), true)) /\
      (forall kind : string,
          event !! "type" = Some (any_string kind) ->
          kind <> "content_block_delta" -> kind <> "message_stop" ->
          kind <> "error" ->
          claude.onData data = (StreamChunk_zero, false)) /\
      (assert_string (event !! "type") = None ->
       claude.onData data = (StreamChunk_zero, false)) /\
      (event !! "type" = Some (any_string "content_block_delta") ->
       assert_map (event !! "delta") = None ->
       claude.onData data = (StreamChunk_zero, false)) /\
      (forall delta : gmap string any,
          event !! "type" = Some (any_string "content_block_delta") ->
          event !! "delta" = Some (any_map delta) ->
          assert_string (delta !! "text") = None ->
          claude.onData data = (StreamChunk_zero, false))).
Proof.
  split.
  - intros err E. by rewrite claude_onData_unfold, E.
  - intros event E. rewrite claude_onData_unfold, E. repeat split.
    + intros delta text Ht Hd Hx. rewrite Ht. cbn. rewrite Hd. cbn. by rewrite Hx.
    + intros ->. reflexivity.
    + intros ->. reflexivity.
    + intros kind -> H1 H2 H3. cbn [assert_string].
      apply String.eqb_neq in H1, H2, H3. by rewrite H1, H2, H3.
    + intros ->. reflexivity.
    + intros Ht Hd. rewrite Ht. cbn. by rewrite Hd.
    + intros delta Ht Hd Hx. rewrite Ht. cbn. rewrite Hd. cbn. by rewrite Hx.
Qed.

Lemma claude_onData_table_witness :
  @claude.onData fixture_lib json_text_delta
  = ({| Content := "Hello"; Done := false; Error := None |}, false) /\
  @claude.onData fixture_lib json_message_stop
  = ({| Content := ""; Done := true; Error := None |}, true) /\
  @claude.onData fixture_lib json_error
  = (error_chunk (errorString "API error: Overloaded"), true) /\
  @claude.onData fixture_lib json_block_stop = (StreamChunk_zero, false) /\
  @claude.onData fixture_lib "{"
  = (error_chunk (Errorf_w "failed to parse SSE data"
                    (errorString "invalid character")), true).
Proof.
  refine (conj _ (conj _ (conj _ (conj _ _)))).
  - eapply (proj1 (proj2 (@claude_onData_table fixture_lib json_text_delta) _ eq_refl)).
    + reflexivity.
    + reflexivity.
    + reflexivity.
  - eapply (proj1 (proj2 (proj2 (@claude_onData_table fixture_lib json_message_stop)
                            _ eq_refl))).
    reflexivity.
  - eapply (proj1 (proj2 (proj2 (proj2 (@claude_onData_table fixture_lib json_error)
                                   _ eq_refl)))).
    reflexivity.
  - eapply (proj1 (proj2 (proj2 (proj2 (proj2
             (@claude_onData_table fixture_lib json_block_stop) _ eq_refl))))
             "content_block_stop"); [reflexivity | discriminate..].
  - exact (proj1 (@claude_onData_table fixture_lib "{") _ eq_refl).
Defined.

Lemma claude_onData_stops `{GoLib} : stops_on_terminal claude.onData.
Proof.
  intros d. rewrite claude_onData_unfold.
  repeat case_match; cbn; congruence.
Qed.

(** ** openai.go: the decoder *)

Lemma openai_parseChunk_unfold `{GoLib} (data : string) :
  openai.parseChunk data =
  if String.eqb data "[DONE]" then
    ({| Content := ""; Done := true; Error := None |}, true)
  else
    match json_Unmarshal_response data with
    | Err err => (error_chunk (Errorf_w "failed to parse chunk" err), true)
    | Ok response =>
        match Choices response with
        | choice :: _ =>
            ({| Content := DeltaContent (Delta choice); Done := false;
                Error := None |}, false)
        | [] => (StreamChunk_zero, false)
        end
    end.
Proof.
  unfold openai.parseChunk. repeat case_match; done.
Qed.

(** C4. The delta-typed decoder, for every payload: the sentinel [DONE]
    gives a done chunk, stop; a decoded payload with at least one choice
    gives a chunk whose content is the delta content of the first choice,
    not done, continue, with or without a finish reason; one with no
    choice gives the empty chunk, continue; a payload that does not decode
    gives an error chunk, stop. *)
Theorem openai_parseChunk_table `{GoLib} (data : string) :
  (data = "[DONE]" ->
   openai.parseChunk data = ({| Content := ""; Done := true; Error := None |}, true)) /\
  (data <> "[DONE]" ->
   (forall err : error,
       json_Unmarshal_response data = Err err ->
       openai.parseChunk data
       = (error_chunk (Errorf_w "failed to parse chunk" err), true)) /\
   (forall (response : openai_response) (choice : openai_choice)
           (rest : list openai_choice),
       json_Unmarshal_response data = Ok response ->
       Choices response = choice :: rest ->
       openai.parseChunk data
       = ({| Content := DeltaContent (Delta choice); Done := false; Error := None |},
          false)) /\
   (forall response : openai_response,
       json_Unmarshal_response data = Ok response ->
       Choices response = [] ->
       openai.parseChunk data = (StreamChunk_zero, false))).
Proof.
  split.
  - intros ->. reflexivity.
  - intros Hd. apply String.eqb_neq in Hd.
    rewrite openai_parseChunk_unfold, Hd. repeat split.
    + intros err ->. reflexivity.
    + intros response choice rest -> ->. reflexivity.
    + intros response -> ->. reflexivity.
Qed.

Lemma openai_parseChunk_table_witness :
  @openai.parseChunk fixture_lib "[DONE]"
  = ({| Content := ""; Done := true; Error := None |}, true) /\
  @openai.parseChunk fixture_lib json_choice_hello
  = ({| Content := "Hello"; Done := false; Error := None |}, false) /\
  @openai.parseChunk fixture_lib json_choice_finish
  = ({| Content := ""; Done := false; Error := None |}, false) /\
  @openai.parseChunk fixture_lib json_no_choices = (StreamChunk_zero, false) /\
  @openai.parseChunk fixture_lib "{"
  = (error_chunk (Errorf_w "failed to parse chunk" (errorString "invalid character")),
     true).
Proof.
  assert (forall d : string, String.eqb d "[DONE]" = false -> d <> "[DONE]") as Hne.
  { intros d Hd. by apply String.eqb_neq. }
  refine (conj _ (conj _ (conj _ (conj _ _)))).
  - exact (proj1 (@openai_parseChunk_table fixture_lib "[DONE]") eq_refl).
  - exact (proj1 (proj2 (proj2 (@openai_parseChunk_table fixture_lib json_choice_hello)
                           (Hne json_choice_hello eq_refl))) _ _ _ eq_refl eq_refl).
  - exact (proj1 (proj2 (proj2 (@openai_parseChunk_table fixture_lib json_choice_finish)
                           (Hne json_choice_finish eq_refl))) _ _ _ eq_refl eq_refl).
  - exact (proj2 (proj2 (proj2 (@openai_parseChunk_table fixture_lib json_no_choices)
                           (Hne json_no_choices eq_refl))) _ eq_refl eq_refl).
  - exact (proj1 (proj2 (@openai_parseChunk_table fixture_lib "{") (Hne "{" eq_refl))
             _ eq_refl).
Defined.

Lemma openai_parseChunk_stops `{GoLib} : stops_on_terminal openai.parseChunk.
Proof.
  intros d. rewrite openai_parseChunk_unfold.
  repeat case_match; cbn; congruence.
Qed.

(** ** claude.go: the forwarding goroutine *)

Lemma forward_no_close (w : sched) (chunks : list StreamChunk) (k : nat) :
  Forall (fun e => is_close e = false) (claude.forward w k chunks).1.1.
Proof.
  revert k. induction chunks as [|c rest IH]; intros k; cbn; [constructor|].
  destruct (claude.passes c); [|apply IH].
  destruct (select_send w k); try constructor.
  specialize (IH (S k)). destruct (claude.forward w (S k) rest) as [[evs k'] f].
  by constructor.
Qed.

(** What is forwarded is a prefix of what passes the filter. *)
Lemma forward_sent (w : sched) (chunks : list StreamChunk) (k : nat) :
  sent (claude.forward w k chunks).1.1 `prefix_of` List.filter claude.passes chunks.
Proof.
  revert k. induction chunks as [|c rest IH]; intros k; cbn; [done|].
  destruct (claude.passes c); [|apply IH].
  destruct (select_send w k); try apply prefix_nil.
  specialize (IH (S k)). destruct (claude.forward w (S k) rest) as [[evs k'] f].
  by apply prefix_cons.
Qed.

Lemma forwarder_shape (w : sched) (sse : goroutine) :
  deferred_shape (claude.forwarder w sse).
Proof.
  unfold deferred_shape, claude.forwarder.
  pose proof (forward_no_close w (sent (trace sse)) 0) as Hn.
  destruct (claude.forward w 0 (sent (trace sse))) as [[evs k] f]. cbn in Hn.
  exists evs. split; [done|].
  destruct f; [destruct (exited sse)|..]; done.
Qed.

Lemma forwarder_sent (w : sched) (sse : goroutine) :
  sent (trace (claude.forwarder w sse))
  = sent (claude.forward w 0 (sent (trace sse))).1.1.
Proof.
  unfold claude.forwarder.
  destruct (claude.forward w 0 (sent (trace sse))) as [[evs k] f].
  destruct f; [destruct (exited sse)|..]; cbn [trace fst];
    by rewrite ?sent_app, ?app_nil_r.
Qed.

Lemma forwarder_meaningful (w : sched) (sse : goroutine) :
  Forall (fun c => meaningful c = true) (sent (trace (claude.forwarder w sse))).
Proof.
  rewrite forwarder_sent.
  destruct (forward_sent w (sent (trace sse)) 0) as [r Hr].
  assert (Forall (fun c => meaningful c = true)
            (List.filter claude.passes (sent (trace sse)))) as H.
  { apply List.Forall_forall. intros c Hc. by apply List.filter_In in Hc as [_ Hc]. }
  rewrite Hr in H. by apply Forall_app in H as [H _].
Qed.

Lemma forwarder_terminal_last (w : sched) (sse : goroutine) :
  terminal_last (sent (trace sse)) ->
  terminal_last (sent (trace (claude.forwarder w sse))).
Proof.
  intros H. rewrite forwarder_sent.
  eapply terminal_last_prefix; [apply forward_sent|].
  by apply terminal_last_filter.
Qed.

(** ** The two [Stream] functions, path by path *)

Lemma claude_Stream_cases `{GoLib} (p : claude.claudeProvider) (w w_sse : sched)
    (messages : list ChatMessage) :
  (exists err : error, claude.Stream p w w_sse messages = fail err []) \/
  (exists req : Request,
      claude_request_ok p messages req /\
      claude.Stream p w w_sse messages =
      match claude.client p req with
      | Err err => fail (Errorf_w "failed to send request" err) [EvDo req]
      | Ok resp =>
          if (StatusCode resp =? 200)%Z then
            {| ret_chan :=
                 Some {| out := claude.forwarder w
                                  (ParseSSE w_sse (RespBody resp) claude.onData);
                         nested := Some (ParseSSE w_sse (RespBody resp) claude.onData) |};
               ret_err := None;
               effects := [EvDo req] |}
          else
            fail (errorString ("API error (status " +:+ itoa (StatusCode resp)
                                 +:+ "): " +:+ read_all (RespBody resp)))
                 [EvDo req; EvBodyClose]
      end).
Proof.
  unfold claude.Stream, NewRequestWithContext.
  match goal with |- context [json_Marshal ?m] => set (body := m) end.
  destruct (json_Marshal body) as [bodyBytes|err] eqn:Hm; [|left; by eexists].
  destruct (url_Parse _) as [err|]; [left; by eexists|].
  right.
  exists (Header_Set
            (Header_Set
               (Header_Set
                  {| Method := "POST"; URL := claude.baseURL p +:+ "/v1/messages";
                     Header := ∅; Body := bodyBytes |}
                  "x-api-key" (claude.apiKey p))
               "anthropic-version" "2023-06-01")
            "content-type" "application/json").
  split.
  - unfold claude_request_ok, Header_Set. cbn [Method URL Header Body].
    split; [done|]. split; [done|].
    split; [by simplify_map_eq|]. split; [by simplify_map_eq|].
    split; [by simplify_map_eq|].
    exists body. split; [done|]. subst body.
    destruct (String.eqb (claude.systemPrompt p) ""); cbn [negb].
    + repeat (split; [by simplify_map_eq|]).
      intros key [v Hv]. rewrite !lookup_insert in Hv.
      repeat case_decide; subst; set_solver.
    + repeat (split; [by simplify_map_eq|]).
      intros key [v Hv]. rewrite !lookup_insert in Hv.
      repeat case_decide; subst; set_solver.
  - destruct (claude.client p _) as [resp|err]; [|done].
    unfold StatusOK. by destruct (StatusCode resp =? 200)%Z.
Qed.

Lemma openai_Stream_cases `{GoLib} (p : openai.openaiProvider) (w : sched)
    (messages : list ChatMessage) :
  (exists err : error, openai.Stream p w messages = fail err []) \/
  (exists req : Request,
      openai_request_ok p messages req /\
      openai.Stream p w messages =
      match openai.client p req with
      | Err err => fail (Errorf_w "failed to send request" err) [EvDo req]
      | Ok resp =>
          if (StatusCode resp =? 200)%Z then
            {| ret_chan :=
                 Some {| out := ParseSSE w (RespBody resp) openai.parseChunk;
                         nested := None |};
               ret_err := None;
               effects := [EvDo req] |}
          else
            fail (errorString ("API error " +:+ itoa (StatusCode resp)
                                 +:+ ": " +:+ read_all (RespBody resp)))
                 [EvDo req; EvBodyClose]
      end).
Proof.
  unfold openai.Stream, NewRequestWithContext.
  match goal with |- context [json_Marshal ?m] => set (body := m) end.
  destruct (json_Marshal body) as [bodyBytes|err] eqn:Hm; [|left; by eexists].
  destruct (url_Parse _) as [err|]; [left; by eexists|].
  right.
  exists (Header_Set
            (Header_Set
               {| Method := "POST"; URL := openai.baseURL p +:+ "/chat/completions";
                  Header := ∅; Body := bodyBytes |}
               "Authorization" ("Bearer " +:+ openai.apiKey p))
            "Content-Type" "application/json").
  split.
  - unfold openai_request_ok, Header_Set. cbn [Method URL Header Body].
    split; [done|]. split; [done|].
    split; [by simplify_map_eq|]. split; [by simplify_map_eq|].
    exists body. split; [done|]. subst body.
    repeat (split; [by simplify_map_eq|]).
    split.
    + rewrite lookup_insert_eq.
      by destruct (String.eqb (openai.systemPrompt p) "").
    + intros key [v Hv]. rewrite !lookup_insert in Hv.
      repeat case_decide; subst; set_solver.
  - destruct (openai.client p _) as [resp|err]; [|done].
    unfold StatusOK. by destruct (StatusCode resp =? 200)%Z.
Qed.

Lemma claude_Stream_chan `{GoLib} (p : claude.claudeProvider) (w w_sse : sched)
    (messages : list ChatMessage) (s : stream) :
  ret_chan (claude.Stream p w w_sse messages) = Some s ->
  exists body : ReadCloser,
    s = {| out := claude.forwarder w (ParseSSE w_sse body claude.onData);
           nested := Some (ParseSSE w_sse body claude.onData) |}.
Proof.
  destruct (claude_Stream_cases p w w_sse messages) as [[err ->] | (req & _ & ->)];
    [done|].
  destruct (claude.client p req) as [resp|err]; [|done].
  destruct (StatusCode resp =? 200)%Z; [|done].
  cbn. intros [= <-]. by exists (RespBody resp).
Qed.

Lemma openai_Stream_chan `{GoLib} (p : openai.openaiProvider) (w : sched)
    (messages : list ChatMessage) (s : stream) :
  ret_chan (openai.Stream p w messages) = Some s ->
  exists body : ReadCloser,
    s = {| out := ParseSSE w body openai.parseChunk; nested := None |}.
Proof.
  destruct (openai_Stream_cases p w messages) as [[err ->] | (req & _ & ->)];
    [done|].
  destruct (openai.client p req) as [resp|err]; [|done].
  destruct (StatusCode resp =? 200)%Z; [|done].
  cbn. intros [= <-]. by exists (RespBody resp).
Qed.

Lemma Stream_effects_request (req req' : Request) (c : call) (resp : result Response)
    (ok : Response -> call) (ko : error -> call) :
  c = match resp with Ok r => ok r | Err e => ko e end ->
  (forall r : Response, effects (ok r) = [EvDo req'] \/ effects (ok r) = [EvDo req'; EvBodyClose]) ->
  (forall e : error, effects (ko e) = [EvDo req']) ->
  In (EvDo req) (effects c) -> req = req'.
Proof.
  intros -> Hok Hko. destruct resp as [r|e].
  - destruct (Hok r) as [-> | ->]; intros Hin; cbn in Hin;
      destruct_or!; by simplify_eq.
  - rewrite Hko. intros Hin. cbn in Hin. destruct_or!; by simplify_eq.
Qed.

Lemma claude_Stream_issued `{GoLib} (p : claude.claudeProvider) (w w_sse : sched)
    (messages : list ChatMessage) (req : Request) :
  In (EvDo req) (effects (claude.Stream p w w_sse messages)) ->
  claude_request_ok p messages req /\
  claude.Stream p w w_sse messages =
  match claude.client p req with
  | Err err => fail (Errorf_w "failed to send request" err) [EvDo req]
  | Ok resp =>
      if (StatusCode resp =? 200)%Z then
        {| ret_chan :=
             Some {| out := claude.forwarder w
                              (ParseSSE w_sse (RespBody resp) claude.onData);
                     nested := Some (ParseSSE w_sse (RespBody resp) claude.onData) |};
           ret_err := None;
           effects := [EvDo req] |}
      else
        fail (errorString ("API error (status " +:+ itoa (StatusCode resp)
                             +:+ "): " +:+ read_all (RespBody resp)))
             [EvDo req; EvBodyClose]
  end.
Proof.
  destruct (claude_Stream_cases p w w_sse messages) as [[err E] | (req' & Hok & E)].
  - rewrite E. intros [].
  - intros Hin. assert (req = req') as ->; [|done].
    eapply Stream_effects_request; [exact E | | | exact Hin].
    + intros r. cbn beta. destruct (StatusCode r =? 200)%Z; auto.
    + done.
Qed.

Lemma openai_Stream_issued `{GoLib} (p : openai.openaiProvider) (w : sched)
    (messages : list ChatMessage) (req : Request) :
  In (EvDo req) (effects (openai.Stream p w messages)) ->
  openai_request_ok p messages req /\
  openai.Stream p w messages =
  match openai.client p req with
  | Err err => fail (Errorf_w "failed to send request" err) [EvDo req]
  | Ok resp =>
      if (StatusCode resp =? 200)%Z then
        {| ret_chan :=
             Some {| out := ParseSSE w (RespBody resp) openai.parseChunk;
                     nested := None |};
           ret_err := None;
           effects := [EvDo req] |}
      else
        fail (errorString ("API error " +:+ itoa (StatusCode resp)
                             +:+ ": " +:+ read_all (RespBody resp)))
             [EvDo req; EvBodyClose]
  end.
Proof.
  destruct (openai_Stream_cases p w messages) as [[err E] | (req' & Hok & E)].
  - rewrite E. intros [].
  - intros Hin. assert (req = req') as ->; [|done].
    eapply Stream_effects_request; [exact E | | | exact Hin].
    + intros r. cbn beta. destruct (StatusCode r =? 200)%Z; auto.
    + done.
Qed.

(** ** The request *)

Lemma claude_body_ok_unique (p : claude.claudeProvider) (messages : list ChatMessage)
    (m1 m2 : gmap string any) :
  claude_body_ok p messages m1 -> claude_body_ok p messages m2 -> m1 = m2.
Proof.
  intros (A1 & A2 & A3 & A4 & A5 & Ak) (B1 & B2 & B3 & B4 & B5 & Bk).
  apply map_eq. intros key.
  destruct (decide (key = "model")) as [->|]; [congruence|].
  destruct (decide (key = "max_tokens")) as [->|]; [congruence|].
  destruct (decide (key = "stream")) as [->|]; [congruence|].
  destruct (decide (key = "messages")) as [->|]; [congruence|].
  destruct (decide (key = "system")) as [->|]; [congruence|].
  destruct (m1 !! key) eqn:E1.
  { assert (key ∈ ["model"; "max_tokens"; "stream"; "messages"; "system"]) as Hin
      by (apply Ak; eauto).
    repeat (apply elem_of_cons in Hin as [?|Hin]; [done|]).
    by apply elem_of_nil in Hin. }
  destruct (m2 !! key) eqn:E2; [|done].
  assert (key ∈ ["model"; "max_tokens"; "stream"; "messages"; "system"]) as Hin
    by (apply Bk; eauto).
  repeat (apply elem_of_cons in Hin as [?|Hin]; [done|]).
  by apply elem_of_nil in Hin.
Qed.

Lemma openai_body_ok_unique (p : openai.openaiProvider) (messages : list ChatMessage)
    (m1 m2 : gmap string any) :
  openai_body_ok p messages m1 -> openai_body_ok p messages m2 -> m1 = m2.
Proof.
  intros (A1 & A2 & A3 & A4 & Ak) (B1 & B2 & B3 & B4 & Bk).
  apply map_eq. intros key.
  destruct (decide (key = "model")) as [->|]; [congruence|].
  destruct (decide (key = "max_tokens")) as [->|]; [congruence|].
  destruct (decide (key = "stream")) as [->|]; [congruence|].
  destruct (decide (key = "messages")) as [->|]; [congruence|].
  destruct (m1 !! key) eqn:E1.
  { assert (key ∈ ["model"; "max_tokens"; "stream"; "messages"]) as Hin
      by (apply Ak; eauto).
    repeat (apply elem_of_cons in Hin as [?|Hin]; [done|]).
    by apply elem_of_nil in Hin. }
  destruct (m2 !! key) eqn:E2; [|done].
  assert (key ∈ ["model"; "max_tokens"; "stream"; "messages"]) as Hin
    by (apply Bk; eauto).
  repeat (apply elem_of_cons in Hin as [?|Hin]; [done|]).
  by apply elem_of_nil in Hin.
Qed.

(** [Stream] of claude.go from its first line to its last, with the map it
    serializes named. *)
Lemma claude_Stream_body `{GoLib} (p : claude.claudeProvider) (w w_sse : sched)
    (messages : list ChatMessage) :
  exists m : gmap string any,
    claude_body_ok p messages m /\
    claude.Stream p w w_sse messages =
    match json_Marshal m with
    | Err err => fail (Errorf_w "failed to marshal request" err) []
    | Ok bodyBytes =>
        match url_Parse (claude.baseURL p +:+ "/v1/messages") with
        | Some err => fail (Errorf_w "failed to create request" err) []
        | None =>
            let req :=
              Header_Set
                (Header_Set
                   (Header_Set
                      {| Method := "POST"; URL := claude.baseURL p +:+ "/v1/messages";
                         Header := ∅; Body := bodyBytes |}
                      "x-api-key" (claude.apiKey p))
                   "anthropic-version" "2023-06-01")
                "content-type" "application/json" in
            match claude.client p req with
            | Err err => fail (Errorf_w "failed to send request" err) [EvDo req]
            | Ok resp =>
                if (StatusCode resp =? 200)%Z then
                  {| ret_chan :=
                       Some {| out := claude.forwarder w
                                        (ParseSSE w_sse (RespBody resp) claude.onData);
                               nested :=
                                 Some (ParseSSE w_sse (RespBody resp) claude.onData) |};
                     ret_err := None;
                     effects := [EvDo req] |}
                else
                  fail (errorString ("API error (status " +:+ itoa (StatusCode resp)
                                       +:+ "): " +:+ read_all (RespBody resp)))
                       [EvDo req; EvBodyClose]
            end
        end
    end.
Proof.
  unfold claude.Stream, NewRequestWithContext.
  match goal with |- context [json_Marshal ?m] => set (body := m) end.
  exists body. split.
  - subst body. unfold claude_body_ok.
    destruct (String.eqb (claude.systemPrompt p) ""); cbn [negb].
    + repeat (split; [by simplify_map_eq|]).
      intros key [v Hv]. rewrite !lookup_insert in Hv.
      repeat case_decide; subst; set_solver.
    + repeat (split; [by simplify_map_eq|]).
      intros key [v Hv]. rewrite !lookup_insert in Hv.
      repeat case_decide; subst; set_solver.
  - destruct (json_Marshal body) as [bodyBytes|err]; [|done].
    destruct (url_Parse _) as [err|]; [done|]. cbv zeta.
    destruct (claude.client p _) as [resp|err]; [|done].
    unfold StatusOK. by destruct (StatusCode resp =? 200)%Z.
Qed.

(** The same for [Stream] of openai.go. *)
Lemma openai_Stream_body `{GoLib} (p : openai.openaiProvider) (w : sched)
    (messages : list ChatMessage) :
  exists m : gmap string any,
    openai_body_ok p messages m /\
    openai.Stream p w messages =
    match json_Marshal m with
    | Err err => fail (Errorf_w "failed to marshal request" err) []
    | Ok bodyBytes =>
        match url_Parse (openai.baseURL p +:+ "/chat/completions") with
        | Some err => fail (Errorf_w "failed to create request" err) []
        | None =>
            let req :=
              Header_Set
                (Header_Set
                   {| Method := "POST";
                      URL := openai.baseURL p +:+ "/chat/completions";
                      Header := ∅; Body := bodyBytes |}
                   "Authorization" ("Bearer " +:+ openai.apiKey p))
                "Content-Type" "application/json" in
            match openai.client p req with
            | Err err => fail (Errorf_w "failed to send request" err) [EvDo req]
            | Ok resp =>
                if (StatusCode resp =? 200)%Z then
                  {| ret_chan :=
                       Some {| out := ParseSSE w (RespBody resp) openai.parseChunk;
                               nested := None |};
                     ret_err := None;
                     effects := [EvDo req] |}
                else
                  fail (errorString ("API error " +:+ itoa (StatusCode resp)
                                       +:+ ": " +:+ read_all (RespBody resp)))
                       [EvDo req; EvBodyClose]
            end
        end
    end.
Proof.
  unfold openai.Stream, NewRequestWithContext.
  match goal with |- context [json_Marshal ?m] => set (body := m) end.
  exists body. split.
  - subst body. unfold openai_body_ok.
    repeat (split; [by simplify_map_eq|]).
    split.
    + rewrite lookup_insert_eq.
      by destruct (String.eqb (openai.systemPrompt p) "").
    + intros key [v Hv]. rewrite !lookup_insert in Hv.
      repeat case_decide; subst; set_solver.
  - destruct (json_Marshal body) as [bodyBytes|err]; [|done].
    destruct (url_Parse _) as [err|]; [done|]. cbv zeta.
    destruct (openai.client p _) as [resp|err]; [|done].
    unfold StatusOK. by destruct (StatusCode resp =? 200)%Z.
Qed.

(** C9. Whatever the messages and the configuration, a request that the
    event-typed provider issues is a POST to base URL + /v1/messages with
    the headers x-api-key, anthropic-version: 2023-06-01 and content-type:
    application/json, and its body is the serialization of a map with
    model, max_tokens, stream: true and messages, and with system exactly
    when the system prompt is not empty; a request that the delta-typed
    provider issues is a POST to base URL + /chat/completions with
    Authorization: Bearer + key and Content-Type: application/json, and its
    messages are the caller's, unchanged and in order, after one system
    message exactly when the system prompt is not empty. Either provider
    does issue that request, once, whenever the library serializes the
    map and accepts the URL; it returns without issuing one in these two
    cases only: the serialization of that map fails, or the URL is
    refused, and then it has done nothing. *)
Theorem Stream_request `{GoLib} :
  (forall (p : claude.claudeProvider) (w w_sse : sched) (messages : list ChatMessage),
      (forall req : Request,
          In (EvDo req) (effects (claude.Stream p w w_sse messages)) ->
          claude_request_ok p messages req) /\
      ((exists req : Request,
           In (EvDo req) (effects (claude.Stream p w w_sse messages))) \/
       (exists err : error, claude.Stream p w w_sse messages = fail err [])) /\
      (forall (m : gmap string any) (bodyBytes : string),
          claude_body_ok p messages m ->
          json_Marshal m = Ok bodyBytes ->
          url_Parse (claude.baseURL p +:+ "/v1/messages") = None ->
          exists req : Request,
            In (EvDo req) (effects (claude.Stream p w w_sse messages)) /\
            Body req = bodyBytes /\
            claude_request_ok p messages req /\
            requests (effects (claude.Stream p w w_sse messages)) = 1%nat) /\
      (requests (effects (claude.Stream p w w_sse messages)) = 0%nat ->
       (exists (m : gmap string any) (err : error),
           claude_body_ok p messages m /\ json_Marshal m = Err err /\
           claude.Stream p w w_sse messages
           = fail (Errorf_w "failed to marshal request" err) []) \/
       (exists err : error,
           url_Parse (claude.baseURL p +:+ "/v1/messages") = Some err /\
           claude.Stream p w w_sse messages
           = fail (Errorf_w "failed to create request" err) []))) /\
  (forall (p : openai.openaiProvider) (w : sched) (messages : list ChatMessage),
      (forall req : Request,
          In (EvDo req) (effects (openai.Stream p w messages)) ->
          openai_request_ok p messages req) /\
      ((exists req : Request,
           In (EvDo req) (effects (openai.Stream p w messages))) \/
       (exists err : error, openai.Stream p w messages = fail err [])) /\
      (forall (m : gmap string any) (bodyBytes : string),
          openai_body_ok p messages m ->
          json_Marshal m = Ok bodyBytes ->
          url_Parse (openai.baseURL p +:+ "/chat/completions") = None ->
          exists req : Request,
            In (EvDo req) (effects (openai.Stream p w messages)) /\
            Body req = bodyBytes /\
            openai_request_ok p messages req /\
            requests (effects (openai.Stream p w messages)) = 1%nat) /\
      (requests (effects (openai.Stream p w messages)) = 0%nat ->
       (exists (m : gmap string any) (err : error),
           openai_body_ok p messages m /\ json_Marshal m = Err err /\
           openai.Stream p w messages
           = fail (Errorf_w "failed to marshal request" err) []) \/
       (exists err : error,
           url_Parse (openai.baseURL p +:+ "/chat/completions") = Some err /\
           openai.Stream p w messages
           = fail (Errorf_w "failed to create request" err) []))).
Proof.
  split.
  - intros p w w_sse messages. refine (conj _ (conj _ (conj _ _))).
    + intros req Hin. by apply claude_Stream_issued in Hin as [Hok _].
    + destruct (claude_Stream_cases p w w_sse messages) as [[err E] | (req & _ & E)].
      * right. by exists err.
      * left. exists req. rewrite E.
        destruct (claude.client p req) as [resp|err]; [|by left].
        destruct (StatusCode resp =? 200)%Z; by left.
    + intros m bodyBytes Hm Hj Hu.
      destruct (claude_Stream_body p w w_sse messages) as (m' & Hm' & E).
      rewrite (claude_body_ok_unique p messages m' m Hm' Hm), Hj, Hu in E.
      cbv zeta in E.
      match type of E with context [claude.client p ?r] => set (req := r) in * end.
      assert (In (EvDo req) (effects (claude.Stream p w w_sse messages)) /\
              requests (effects (claude.Stream p w w_sse messages)) = 1%nat)
        as [Hin Hone].
      { rewrite E. destruct (claude.client p req) as [resp|err]; [|by split; [left|]].
        destruct (StatusCode resp =? 200)%Z; by split; [left|]. }
      exists req. split; [done|]. split; [done|]. split; [|done].
      by apply claude_Stream_issued in Hin as [Hok _].
    + destruct (claude_Stream_body p w w_sse messages) as (m & Hm & E).
      rewrite E. destruct (json_Marshal m) as [bodyBytes|err] eqn:Hj.
      * destruct (url_Parse _) as [err|] eqn:Hu.
        -- intros _. right. by exists err.
        -- cbv zeta. destruct (claude.client p _) as [resp|err]; [|done].
           by destruct (StatusCode resp =? 200)%Z.
      * intros _. left. by exists m, err.
  - intros p w messages. refine (conj _ (conj _ (conj _ _))).
    + intros req Hin. by apply openai_Stream_issued in Hin as [Hok _].
    + destruct (openai_Stream_cases p w messages) as [[err E] | (req & _ & E)].
      * right. by exists err.
      * left. exists req. rewrite E.
        destruct (openai.client p req) as [resp|err]; [|by left].
        destruct (StatusCode resp =? 200)%Z; by left.
    + intros m bodyBytes Hm Hj Hu.
      destruct (openai_Stream_body p w messages) as (m' & Hm' & E).
      rewrite (openai_body_ok_unique p messages m' m Hm' Hm), Hj, Hu in E.
      cbv zeta in E.
      match type of E with context [openai.client p ?r] => set (req := r) in * end.
      assert (In (EvDo req) (effects (openai.Stream p w messages)) /\
              requests (effects (openai.Stream p w messages)) = 1%nat)
        as [Hin Hone].
      { rewrite E. destruct (openai.client p req) as [resp|err]; [|by split; [left|]].
        destruct (StatusCode resp =? 200)%Z; by split; [left|]. }
      exists req. split; [done|]. split; [done|]. split; [|done].
      by apply openai_Stream_issued in Hin as [Hok _].
    + destruct (openai_Stream_body p w messages) as (m & Hm & E).
      rewrite E. destruct (json_Marshal m) as [bodyBytes|err] eqn:Hj.
      * destruct (url_Parse _) as [err|] eqn:Hu.
        -- intros _. right. by exists err.
        -- cbv zeta. destruct (openai.client p _) as [resp|err]; [|done].
           by destruct (StatusCode resp =? 200)%Z.
      * intros _. left. by exists m, err.
Qed.

Lemma Stream_request_witness :
  (exists req : Request,
      In (EvDo req)
         (effects (@claude.Stream fixture_lib (claude_fixture 200 body_claude)
                     quiet quiet hello)) /\
      Body req = "{}" /\
      @claude_request_ok fixture_lib (claude_fixture 200 body_claude) hello req /\
      requests (effects (@claude.Stream fixture_lib (claude_fixture 200 body_claude)
                           quiet quiet hello)) = 1%nat) /\
  (exists req : Request,
      In (EvDo req)
         (effects (@openai.Stream fixture_lib (openai_fixture 200 body_openai)
                     quiet hello)) /\
      Body req = "{}" /\
      @openai_request_ok fixture_lib (openai_fixture 200 body_openai) hello req /\
      requests (effects (@openai.Stream fixture_lib (openai_fixture 200 body_openai)
                           quiet hello)) = 1%nat).
Proof.
  split.
  - refine (proj1 (proj2 (proj2 (proj1 (@Stream_request fixture_lib)
                                   (claude_fixture 200 body_claude) quiet quiet hello)))
              (<["messages" := any_messages hello]>
                 (<["stream" := any_bool true]>
                    (<["max_tokens" := any_int 1024]>
                       (<["model" := any_string "claude-3-5-sonnet-20241022"]> ∅))))
              "{}" _ eq_refl eq_refl).
    unfold claude_body_ok. cbn [claude.systemPrompt claude_fixture String.eqb].
    repeat (split; [by simplify_map_eq|]).
    intros key [v Hv]. rewrite !lookup_insert in Hv.
    repeat case_decide; subst; set_solver.
  - refine (proj1 (proj2 (proj2 (proj2 (@Stream_request fixture_lib)
                                   (openai_fixture 200 body_openai) quiet hello)))
              (<["messages" :=
                   any_messages ({| Role := "system"; MsgContent := "You are helpful" |}
                                 :: hello)]>
                 (<["stream" := any_bool true]>
                    (<["max_tokens" := any_int 4096]>
                       (<["model" := any_string "gpt-4"]> ∅))))
              "{}" _ eq_refl eq_refl).
    unfold openai_body_ok.
    repeat (split; [by simplify_map_eq|]).
    intros key [v Hv]. rewrite !lookup_insert in Hv.
    repeat case_decide; subst; set_solver.
Defined.

(** ** The response status *)

(** C7, as the code has it. For a response whose status is not 200 both
    providers return at once an error that carries the status code and the
    response body, and no channel; for a response with status 200 they
    return a channel and no error. *)
Theorem Stream_status `{GoLib} :
  (forall (p : claude.claudeProvider) (w w_sse : sched) (messages : list ChatMessage)
          (req : Request) (resp : Response),
      In (EvDo req) (effects (claude.Stream p w w_sse messages)) ->
      claude.client p req = Ok resp ->
      (StatusCode resp <> 200%Z ->
       ret_chan (claude.Stream p w w_sse messages) = None /\
       ret_err (claude.Stream p w w_sse messages)
       = Some (errorString ("API error (status " +:+ itoa (StatusCode resp)
                              +:+ "): " +:+ read_all (RespBody resp)))) /\
      (StatusCode resp = 200%Z ->
       is_Some (ret_chan (claude.Stream p w w_sse messages)) /\
       ret_err (claude.Stream p w w_sse messages) = None)) /\
  (forall (p : openai.openaiProvider) (w : sched) (messages : list ChatMessage)
          (req : Request) (resp : Response),
      In (EvDo req) (effects (openai.Stream p w messages)) ->
      openai.client p req = Ok resp ->
      (StatusCode resp <> 200%Z ->
       ret_chan (openai.Stream p w messages) = None /\
       ret_err (openai.Stream p w messages)
       = Some (errorString ("API error " +:+ itoa (StatusCode resp)
                              +:+ ": " +:+ read_all (RespBody resp)))) /\
      (StatusCode resp = 200%Z ->
       is_Some (ret_chan (openai.Stream p w messages)) /\
       ret_err (openai.Stream p w messages) = None)).
Proof.
  split.
  - intros p w w_sse messages req resp Hin Hc.
    apply claude_Stream_issued in Hin as [_ ->]. rewrite Hc. split.
    + intros Hne. apply Z.eqb_neq in Hne. by rewrite Hne.
    + intros ->. cbn. by split; [eexists|].
  - intros p w messages req resp Hin Hc.
    apply openai_Stream_issued in Hin as [_ ->]. rewrite Hc. split.
    + intros Hne. apply Z.eqb_neq in Hne. by rewrite Hne.
    + intros ->. cbn. by split; [eexists|].
Qed.

Lemma Stream_status_witness :
  ret_err (@claude.Stream fixture_lib (claude_fixture 401 body_refused)
             quiet quiet hello)
  = Some (errorString "API error (status 401): no content") /\
  ret_err (@openai.Stream fixture_lib (openai_fixture 401 body_refused) quiet hello)
  = Some (errorString "API error 401: no content") /\
  ret_err (@claude.Stream fixture_lib (claude_fixture 200 body_claude)
             quiet quiet hello) = None /\
  ret_err (@openai.Stream fixture_lib (openai_fixture 200 body_openai) quiet hello)
  = None.
Proof.
  refine (conj _ (conj _ (conj _ _))).
  - refine (proj2 (proj1 (proj1 (@Stream_status fixture_lib)
                            (claude_fixture 401 body_refused) quiet quiet hello
                            _ {| StatusCode := 401; RespBody := body_refused |} _ _) _)).
    + left. reflexivity.
    + reflexivity.
    + discriminate.
  - refine (proj2 (proj1 (proj2 (@Stream_status fixture_lib)
                            (openai_fixture 401 body_refused) quiet hello
                            _ {| StatusCode := 401; RespBody := body_refused |} _ _) _)).
    + left. reflexivity.
    + reflexivity.
    + discriminate.
  - refine (proj2 (proj2 (proj1 (@Stream_status fixture_lib)
                            (claude_fixture 200 body_claude) quiet quiet hello
                            _ {| StatusCode := 200; RespBody := body_claude |} _ _) _)).
    + left. reflexivity.
    + reflexivity.
    + reflexivity.
  - refine (proj2 (proj2 (proj2 (@Stream_status fixture_lib)
                            (openai_fixture 200 body_openai) quiet hello
                            _ {| StatusCode := 200; RespBody := body_openai |} _ _) _)).
    + left. reflexivity.
    + reflexivity.
    + reflexivity.
Defined.

(** C7 as stated fails: 204 is a success status, and both providers answer
    it with an immediate error and no channel. *)
Lemma Stream_204_refused :
  is_2xx 204 = true /\
  (let c := @claude.Stream fixture_lib (claude_fixture 204 body_refused)
              quiet quiet hello in
   ret_chan c = None /\
   ret_err c = Some (errorString "API error (status 204): no content")) /\
  (let c := @openai.Stream fixture_lib (openai_fixture 204 body_refused) quiet hello in
   ret_chan c = None /\
   ret_err c = Some (errorString "API error 204: no content")).
Proof. repeat split. Qed.

(** ** What reaches the caller *)

(** The loop of [ParseSSE] has no filter: every chunk the decoder returns
    is sent, whatever it holds, except possibly the one of the last call,
    when the [select] of its send took the cancellation or still waits. *)
Lemma scan_loop_unfiltered (w : sched) (onData : string -> StreamChunk * bool)
    (ls : list string) (k : nat) :
  exists ds rest : list string,
    invoked (scan_loop w onData k ls).1.1 = ds ++ rest /\
    sent (scan_loop w onData k ls).1.1 = map (fun d => fst (onData d)) ds /\
    (length rest <= 1)%nat /\
    ((scan_loop w onData k ls).2 = Continue -> rest = []).
Proof.
  revert k. induction ls as [|line rest IH]; intros k.
  - exists [], []. cbn. repeat split; try done; lia.
  - rewrite scan_loop_cons, iteration_payload_of.
    destruct (select_poll w k); [exists [], []; cbn; repeat split; try done; lia|].
    destruct (payload_of line) as [d|].
    + destruct (select_send w (S k)).
      * destruct (snd (onData d)).
        { exists [d], []. cbn. repeat split; try done; lia. }
        destruct (IH (S (S k))) as (ds & r & H1 & H2 & H3 & H4).
        destruct (scan_loop w onData (S (S k)) rest) as [[evs' k''] f'].
        cbn [fst snd] in *. exists (d :: ds), r.
        rewrite invoked_app, sent_app, H1, H2. by repeat split.
      * exists [], [d]. cbn. repeat split; try done; lia.
      * exists [], [d]. cbn. repeat split; try done; lia.
    + destruct (IH (S k)) as (ds & r & H1 & H2 & H3 & H4).
      destruct (scan_loop w onData (S k) rest) as [[evs' k''] f'].
      cbn [fst snd] in *. by exists ds, r.
Qed.

Lemma ParseSSE_unfiltered (w : sched) (body : ReadCloser)
    (onData : string -> StreamChunk * bool) :
  exists (ds rest : list string) (tail : list StreamChunk),
    ds ++ rest `prefix_of` payloads (lines body) /\
    invoked (trace (ParseSSE w body onData)) = ds ++ rest /\
    (length rest <= 1)%nat /\
    sent (trace (ParseSSE w body onData)) = map (fun d => fst (onData d)) ds ++ tail /\
    (tail = [] \/
     exists err : error, scan_err body = Some err /\ tail = [error_chunk err]).
Proof.
  pose proof (scan_loop_invoked w onData (lines body) 0) as Hp.
  destruct (scan_loop_unfiltered w onData (lines body) 0) as (ds & r & H1 & H2 & H3 & _).
  rewrite ParseSSE_invoked, ParseSSE_unfold.
  destruct (scan_loop w onData 0 (lines body)) as [[evs k] f]. cbn [fst snd] in *.
  rewrite H1 in Hp.
  assert (sent ParseSSE_deferred = []) as Hd by reflexivity.
  destruct f.
  - destruct (scan_err body) as [err|]; [destruct (select_send w k)|].
    + exists ds, r, [error_chunk err]. cbn [trace].
      rewrite !sent_app, Hd, H2, app_nil_r. repeat split; [done..|].
      right. by exists err.
    + exists ds, r, []. cbn [trace]. rewrite sent_app, Hd, H2. by repeat split; [..|left].
    + exists ds, r, []. cbn [trace]. rewrite H2, app_nil_r. by repeat split; [..|left].
    + exists ds, r, []. cbn [trace]. rewrite sent_app, Hd, H2. by repeat split; [..|left].
  - exists ds, r, []. cbn [trace]. rewrite sent_app, Hd, H2. by repeat split; [..|left].
  - exists ds, r, []. cbn [trace]. rewrite H2, app_nil_r. by repeat split; [..|left].
Qed.

(** C6, as the code has it. On the channel of the event-typed provider
    every chunk carries content, the done marker or an error: the empty
    chunks of its decoder are dropped on the way. The delta-typed provider
    returns the channel of [ParseSSE] on the response body itself, with no
    filter: what the caller receives are the decoder's chunks for the
    payloads of the body, in order and whatever they hold, all but
    possibly the one of the last decoder call (when the send was
    overtaken by the cancellation or still waits), and after them the
    read error if there is one; with no cancellation observed and no send
    waiting for ever, the caller receives the decoder's chunk for every
    payload up to the first stop. *)
Theorem Stream_filter `{GoLib} :
  (forall (p : claude.claudeProvider) (w w_sse : sched) (messages : list ChatMessage)
          (s : stream),
      ret_chan (claude.Stream p w w_sse messages) = Some s ->
      Forall (fun c => meaningful c = true) (sent (trace (out s)))) /\
  (forall (p : openai.openaiProvider) (w : sched) (messages : list ChatMessage)
          (s : stream),
      ret_chan (openai.Stream p w messages) = Some s ->
      exists (req : Request) (resp : Response),
        In (EvDo req) (effects (openai.Stream p w messages)) /\
        openai.client p req = Ok resp /\
        out s = ParseSSE w (RespBody resp) openai.parseChunk /\ nested s = None /\
        (exists (ds rest : list string) (tail : list StreamChunk),
            ds ++ rest `prefix_of` payloads (lines (RespBody resp)) /\
            invoked (trace (out s)) = ds ++ rest /\
            (length rest <= 1)%nat /\
            sent (trace (out s))
            = map (fun d => fst (openai.parseChunk d)) ds ++ tail /\
            (tail = [] \/
             exists err : error,
               scan_err (RespBody resp) = Some err /\ tail = [error_chunk err])) /\
        (undisturbed w ->
         sent (trace (out s))
         = map (fun d => fst (openai.parseChunk d))
             (upto_stop openai.parseChunk (payloads (lines (RespBody resp))))
           ++ sent (trailer openai.parseChunk (RespBody resp)))).
Proof.
  split.
  - intros p w w_sse messages s (body & ->)%claude_Stream_chan.
    apply forwarder_meaningful.
  - intros p w messages s.
    destruct (openai_Stream_cases p w messages) as [[err ->] | (req & _ & E)]; [done|].
    rewrite E. destruct (openai.client p req) as [resp|err] eqn:Hc; [|done].
    destruct (StatusCode resp =? 200)%Z; [|done].
    cbn [ret_chan effects]. intros [= <-]. exists req, resp. cbn [out nested].
    split; [by left|]. split; [done|]. split; [done|]. split; [done|]. split.
    + apply ParseSSE_unfiltered.
    + intros Hw. rewrite (ParseSSE_undisturbed _ _ _ Hw). cbn [trace].
      rewrite !sent_app, sent_emit.
      change (sent ParseSSE_deferred) with (@nil StreamChunk).
      by rewrite app_nil_r.
Qed.

Lemma Stream_filter_witness :
  option_map (fun s => sent (trace (out s)))
    (ret_chan (@claude.Stream fixture_lib (claude_fixture 200 body_claude)
                 quiet quiet hello))
  = Some [{| Content := "Hello"; Done := false; Error := None |};
          {| Content := ""; Done := true; Error := None |}] /\
  Forall (fun c => meaningful c = true)
    [{| Content := "Hello"; Done := false; Error := None |};
     {| Content := ""; Done := true; Error := None |}] /\
  exists (req : Request) (resp : Response),
    openai.client (openai_fixture 200 body_openai) req = Ok resp /\
    (undisturbed quiet ->
     sent (trace (ParseSSE quiet body_openai (@openai.parseChunk fixture_lib)))
     = map (fun d => fst (@openai.parseChunk fixture_lib d))
         (upto_stop (@openai.parseChunk fixture_lib) (payloads (lines (RespBody resp))))
       ++ sent (trailer (@openai.parseChunk fixture_lib) (RespBody resp))).
Proof.
  split; [reflexivity|]. split.
  - exact (proj1 (@Stream_filter fixture_lib)
             (claude_fixture 200 body_claude) quiet quiet hello _ eq_refl).
  - destruct (proj2 (@Stream_filter fixture_lib)
                (openai_fixture 200 body_openai) quiet hello _ eq_refl)
      as (req & resp & _ & Hc & _ & _ & _ & Hu).
    exists req, resp. split; [exact Hc | exact Hu].
Defined.

(** C6 as stated fails for the delta-typed provider: the empty chunk its
    decoder makes of a record without choices reaches the caller. *)
Lemma openai_empty_chunk_published :
  option_map (fun s => sent (trace (out s)))
    (ret_chan (@openai.Stream fixture_lib (openai_fixture 200 body_openai) quiet hello))
  = Some [{| Content := "Hello"; Done := false; Error := None |};
          StreamChunk_zero;
          {| Content := ""; Done := true; Error := None |}] /\
  meaningful StreamChunk_zero = false.
Proof. split; reflexivity. Qed.

(** ** Sleeping goroutines *)

Lemma select_send_blocked (w : sched) (k : nat) :
  select_send w k = SelBlocked ->
  done_ready w k = false /\ send_ready w k = false /\ wake w k = WakeNever.
Proof.
  unfold select_send.
  destruct (send_ready w k), (done_ready w k), (coin w k), (wake w k); by intros.
Qed.

Lemma scan_loop_blocked (w : sched) (onData : string -> StreamChunk * bool)
    (ls : list string) (k : nat) :
  (scan_loop w onData k ls).2 = Block ->
  exists j : nat,
    done_ready w j = false /\ send_ready w j = false /\ wake w j = WakeNever.
Proof.
  revert k. induction ls as [|line rest IH]; intros k; [done|].
  rewrite scan_loop_cons, iteration_payload_of.
  destruct (select_poll w k); [done|].
  destruct (payload_of line) as [d|].
  - destruct (select_send w (S k)) eqn:Hs.
    + destruct (snd (onData d)); [done|].
      specialize (IH (S (S k))).
      by destruct (scan_loop w onData (S (S k)) rest) as [[evs' k''] f'].
    + done.
    + intros _. exists (S k). by apply select_send_blocked.
  - specialize (IH (S k)).
    by destruct (scan_loop w onData (S k) rest) as [[evs' k''] f'].
Qed.

Lemma ParseSSE_blocked (w : sched) (body : ReadCloser)
    (onData : string -> StreamChunk * bool) :
  exited (ParseSSE w body onData) = false ->
  exists k : nat,
    done_ready w k = false /\ send_ready w k = false /\ wake w k = WakeNever.
Proof.
  rewrite ParseSSE_unfold.
  pose proof (scan_loop_blocked w onData (lines body) 0) as Hb.
  destruct (scan_loop w onData 0 (lines body)) as [[evs k] f]. cbn in Hb.
  destruct f; [|done|by intros _; apply Hb].
  destruct (scan_err body) as [err|]; [|done].
  destruct (select_send w k) eqn:Hs; [done..|].
  intros _. exists k. by apply select_send_blocked.
Qed.

Lemma forward_blocked (w : sched) (chunks : list StreamChunk) (k : nat) :
  (claude.forward w k chunks).2 = Block ->
  exists j : nat,
    done_ready w j = false /\ send_ready w j = false /\ wake w j = WakeNever.
Proof.
  revert k. induction chunks as [|c rest IH]; intros k; cbn; [done|].
  destruct (claude.passes c); [|apply IH].
  destruct (select_send w k) eqn:Hs.
  - specialize (IH (S k)). by destruct (claude.forward w (S k) rest) as [[evs k'] f].
  - done.
  - intros _. exists k. by apply select_send_blocked.
Qed.

Lemma never_asleep_awake (w : sched) :
  never_asleep w ->
  ~ exists k : nat,
      done_ready w k = false /\ send_ready w k = false /\ wake w k = WakeNever.
Proof.
  intros Hw (k & Hd & Hs & Hk). apply (Hw k). unfold select_send.
  by rewrite Hs, Hd, Hk.
Qed.

Lemma ParseSSE_never_asleep (w : sched) (body : ReadCloser)
    (onData : string -> StreamChunk * bool) :
  never_asleep w -> exited (ParseSSE w body onData) = true.
Proof.
  intros Hw. destruct (exited (ParseSSE w body onData)) eqn:E; [done|].
  by destruct (never_asleep_awake w Hw (ParseSSE_blocked w body onData E)).
Qed.

Lemma forwarder_never_asleep (w : sched) (sse : goroutine) :
  never_asleep w -> exited sse = true -> exited (claude.forwarder w sse) = true.
Proof.
  intros Hw He. unfold claude.forwarder.
  pose proof (forward_blocked w (sent (trace sse)) 0) as Hb.
  destruct (claude.forward w 0 (sent (trace sse))) as [[evs k] f]. cbn in Hb.
  destruct f; [by rewrite He | done |].
  by destruct (never_asleep_awake w Hw (Hb eq_refl)).
Qed.

(** ** A read that never returns *)

Lemma ParseSSE_stalled_unfold (w : sched) (ls : list string)
    (onData : string -> StreamChunk * bool) :
  ParseSSE_stalled w ls onData =
  match (scan_loop w onData 0 ls).2 with
  | Return => {| trace := (scan_loop w onData 0 ls).1.1 ++ ParseSSE_deferred;
                 exited := true |}
  | _ => {| trace := (scan_loop w onData 0 ls).1.1; exited := false |}
  end.
Proof.
  unfold ParseSSE_stalled. destruct (scan_loop w onData 0 ls) as [[evs k] f].
  by destruct f.
Qed.

Lemma ParseSSE_stalled_shape (w : sched) (ls : list string)
    (onData : string -> StreamChunk * bool) :
  deferred_shape (ParseSSE_stalled w ls onData).
Proof.
  unfold deferred_shape. rewrite ParseSSE_stalled_unfold.
  pose proof (scan_loop_no_close w onData ls 0) as Hn.
  destruct (scan_loop w onData 0 ls) as [[evs k] f]. cbn in *.
  exists evs. split; [done|]. by destruct f.
Qed.

Lemma ParseSSE_stalled_terminal_last (w : sched) (ls : list string)
    (onData : string -> StreamChunk * bool) :
  stops_on_terminal onData ->
  terminal_last (sent (trace (ParseSSE_stalled w ls onData))).
Proof.
  intros Hs. rewrite ParseSSE_stalled_unfold.
  destruct (scan_loop_terminal w onData ls 0 Hs) as [H1 _].
  destruct (scan_loop w onData 0 ls) as [[evs k] f]. cbn in *.
  destruct f; cbn [trace]; by rewrite ?sent_app, ?app_nil_r.
Qed.



(** ** After a terminal chunk *)

Lemma not_Exists_terminal (cs : list StreamChunk) :
  Forall (fun c => terminal c = false) cs ->
  ~ Exists (fun c => terminal c = true) cs.
Proof.
  intros HF HE. apply Exists_exists in HE as (c & Hin & Hc).
  rewrite Forall_forall in HF. specialize (HF c Hin). cbn in HF. congruence.
Qed.

(** The loop does not go on after sending a terminal chunk, and it has not
    sent one when it sleeps in a send. *)
Lemma scan_loop_terminal_returns (w : sched) (onData : string -> StreamChunk * bool)
    (ls : list string) (k : nat) :
  stops_on_terminal onData ->
  Exists (fun c => terminal c = true) (sent (scan_loop w onData k ls).1.1) ->
  (scan_loop w onData k ls).2 = Return.
Proof.
  intros Hs. revert k. induction ls as [|line rest IH]; intros k.
  - intros HE. by apply Exists_nil in HE.
  - rewrite scan_loop_cons, iteration_payload_of.
    destruct (select_poll w k); [done|].
    destruct (payload_of line) as [d|].
    + destruct (select_send w (S k)); [|done|].
      * destruct (snd (onData d)) eqn:Hstop; [done|].
        specialize (IH (S (S k))).
        destruct (scan_loop w onData (S (S k)) rest) as [[evs' k''] f'].
        cbn [fst snd] in *. rewrite sent_app.
        change (sent [EvOnData d; EvSend (fst (onData d))]) with [fst (onData d)].
        cbn [app]. intros [Hc | HE]%Exists_cons; [|by apply IH].
        apply Hs in Hc. congruence.
      * intros HE. by apply Exists_nil in HE.
    + specialize (IH (S k)).
      by destruct (scan_loop w onData (S k) rest) as [[evs' k''] f'].
Qed.

Lemma ParseSSE_terminal_exits (w : sched) (body : ReadCloser)
    (onData : string -> StreamChunk * bool) :
  stops_on_terminal onData ->
  Exists (fun c => terminal c = true) (sent (trace (ParseSSE w body onData))) ->
  exited (ParseSSE w body onData) = true.
Proof.
  intros Hs. rewrite ParseSSE_unfold.
  pose proof (scan_loop_terminal_returns w onData (lines body) 0 Hs) as Hr.
  destruct (scan_loop_terminal w onData (lines body) 0 Hs) as [_ Hc].
  destruct (scan_loop w onData 0 (lines body)) as [[evs k] f]. cbn [fst snd] in *.
  destruct f; [|done|].
  - destruct (scan_err body) as [err|]; [|done].
    destruct (select_send w k); [done..|].
    cbn [trace exited]. intros HE.
    by destruct (not_Exists_terminal _ (Hc eq_refl)).
  - cbn [trace exited]. intros HE. by specialize (Hr HE).
Qed.

Lemma ParseSSE_stalled_terminal_exits (w : sched) (ls : list string)
    (onData : string -> StreamChunk * bool) :
  stops_on_terminal onData ->
  Exists (fun c => terminal c = true) (sent (trace (ParseSSE_stalled w ls onData))) ->
  exited (ParseSSE_stalled w ls onData) = true.
Proof.
  intros Hs. rewrite ParseSSE_stalled_unfold.
  pose proof (scan_loop_terminal_returns w onData ls 0 Hs) as Hr.
  destruct (scan_loop w onData 0 ls) as [[evs k] f]. cbn [fst snd] in *.
  destruct f; [|done|]; cbn [trace exited]; intros HE; by specialize (Hr HE).
Qed.

(** A terminal chunk is the last the forwarding loop receives: once it has
    sent it on, the loop has come to the end of what it received. *)
Lemma forward_terminal_continue (w : sched) (chunks : list StreamChunk) (k : nat) :
  terminal_last chunks ->
  Exists (fun c => terminal c = true) (sent (claude.forward w k chunks).1.1) ->
  (claude.forward w k chunks).2 = Continue.
Proof.
  revert k. induction chunks as [|c rest IH]; intros k; cbn [claude.forward].
  - done.
  - intros [Hlast Hrest]. destruct (claude.passes c); [|by apply IH].
    destruct (select_send w k).
    + specialize (IH (S k) Hrest).
      destruct (claude.forward w (S k) rest) as [[evs k'] f] eqn:E.
      cbn [fst snd] in *.
      change (sent (EvSend c :: evs)) with (c :: sent evs).
      intros [Hc | HE]%Exists_cons; [|by apply IH].
      specialize (Hlast Hc). subst rest. cbn in E. by simplify_eq.
    + intros HE. by apply Exists_nil in HE.
    + intros HE. by apply Exists_nil in HE.
Qed.

Lemma forwarder_terminal_exits (w : sched) (sse : goroutine) :
  terminal_last (sent (trace sse)) ->
  (Exists (fun c => terminal c = true) (sent (trace sse)) -> exited sse = true) ->
  Exists (fun c => terminal c = true) (sent (trace (claude.forwarder w sse))) ->
  exited (claude.forwarder w sse) = true.
Proof.
  intros Hl He HE. rewrite forwarder_sent in HE.
  assert (Exists (fun c => terminal c = true) (sent (trace sse))) as Hsse.
  { apply Exists_exists in HE as (c & Hin & Hc). apply Exists_exists.
    exists c. split; [|done].
    destruct (forward_sent w (sent (trace sse)) 0) as [r Hr].
    assert (c ∈ List.filter claude.passes (sent (trace sse))) as Hf.
    { rewrite Hr. apply elem_of_app. by left. }
    apply list_elem_of_In, List.filter_In in Hf as [Hf _].
    by apply list_elem_of_In. }
  pose proof (forward_terminal_continue w (sent (trace sse)) 0 Hl HE) as Hc.
  unfold claude.forwarder.
  destruct (claude.forward w 0 (sent (trace sse))) as [[evs k] f]. cbn in Hc.
  subst f. by rewrite (He Hsse).
Qed.

Lemma terminal_closed (g : goroutine) :
  closes_channel_once g ->
  (Exists (fun c => terminal c = true) (sent (trace g)) -> exited g = true) ->
  terminal_then_closed g.
Proof. intros (_ & _ & Hc) He HE. specialize (He HE). auto. Qed.

(** ** Terminal chunks and the close of the channel *)

(** C2. On the channel either provider returns, and on the channel of
    [ParseSSE] under any decoder that stops with each done or error chunk
    as both decoders do: nothing is sent after a chunk with done set or
    with an error; the channel is closed at most once and nothing happens
    on it after the close; once such a chunk has been sent the goroutine
    returns and the channel has been closed exactly once; and on a body
    that ends, a goroutine none of whose [select]s sleeps for ever returns
    and has closed the channel exactly once, whether it ends by a stop, at
    the end of the source or on cancellation. On a body with a read that
    never returns the same holds but for the last point: a goroutine
    waiting there has sent no terminal chunk and closed nothing. *)
Theorem Stream_terminal_close `{GoLib} :
  (forall (p : claude.claudeProvider) (w w_sse : sched) (messages : list ChatMessage)
          (s : stream),
      ret_chan (claude.Stream p w w_sse messages) = Some s ->
      no_send_after_terminal (trace (out s)) /\ closes_channel_once (out s) /\
      terminal_then_closed (out s) /\
      (never_asleep w -> never_asleep w_sse ->
       exited (out s) = true /\ chan_closes (trace (out s)) = 1%nat)) /\
  (forall (p : openai.openaiProvider) (w : sched) (messages : list ChatMessage)
          (s : stream),
      ret_chan (openai.Stream p w messages) = Some s ->
      no_send_after_terminal (trace (out s)) /\ closes_channel_once (out s) /\
      terminal_then_closed (out s) /\
      (never_asleep w ->
       exited (out s) = true /\ chan_closes (trace (out s)) = 1%nat)) /\
  (forall (w : sched) (body : ReadCloser) (onData : string -> StreamChunk * bool),
      stops_on_terminal onData ->
      no_send_after_terminal (trace (ParseSSE w body onData)) /\
      closes_channel_once (ParseSSE w body onData) /\
      terminal_then_closed (ParseSSE w body onData) /\
      (never_asleep w ->
       exited (ParseSSE w body onData) = true /\
       chan_closes (trace (ParseSSE w body onData)) = 1%nat)) /\
  (forall (w w_sse : sched) (ls : list string) (onData : string -> StreamChunk * bool),
      stops_on_terminal onData ->
      (no_send_after_terminal (trace (ParseSSE_stalled w_sse ls onData)) /\
       closes_channel_once (ParseSSE_stalled w_sse ls onData) /\
       terminal_then_closed (ParseSSE_stalled w_sse ls onData)) /\
      (no_send_after_terminal
         (trace (claude.forwarder w (ParseSSE_stalled w_sse ls onData))) /\
       closes_channel_once (claude.forwarder w (ParseSSE_stalled w_sse ls onData)) /\
       terminal_then_closed (claude.forwarder w (ParseSSE_stalled w_sse ls onData))) /\
      ((scan_loop w_sse onData 0 ls).2 = Continue ->
       exited (ParseSSE_stalled w_sse ls onData) = false /\
       chan_closes (trace (ParseSSE_stalled w_sse ls onData)) = 0%nat /\
       Forall (fun c => terminal c = false)
         (sent (trace (ParseSSE_stalled w_sse ls onData))))) /\
  stops_on_terminal claude.onData /\
  stops_on_terminal openai.parseChunk.
Proof.
  assert (forall (w : sched) (body : ReadCloser) (onData : string -> StreamChunk * bool),
             stops_on_terminal onData ->
             no_send_after_terminal (trace (ParseSSE w body onData)) /\
             closes_channel_once (ParseSSE w body onData) /\
             terminal_then_closed (ParseSSE w body onData) /\
             (never_asleep w ->
              exited (ParseSSE w body onData) = true /\
              chan_closes (trace (ParseSSE w body onData)) = 1%nat)) as HP.
  { intros w body onData Hs.
    pose proof (deferred_shape_closes_channel_once _ (ParseSSE_shape w body onData))
      as Hc.
    refine (conj _ (conj Hc (conj _ _))).
    - by apply terminal_last_no_send_after, ParseSSE_terminal_last.
    - apply terminal_closed; [done|]. by apply ParseSSE_terminal_exits.
    - intros Hw. pose proof (ParseSSE_never_asleep w body onData Hw) as He.
      split; [done|]. by apply Hc. }
  refine (conj _ (conj _ (conj HP (conj _
            (conj claude_onData_stops openai_parseChunk_stops))))).
  - intros p w w_sse messages s (body & ->)%claude_Stream_chan. cbn [out].
    pose proof (deferred_shape_closes_channel_once _
                  (forwarder_shape w (ParseSSE w_sse body claude.onData))) as Hc.
    pose proof (ParseSSE_terminal_last w_sse body _ claude_onData_stops) as Hl.
    refine (conj _ (conj Hc (conj _ _))).
    + by apply terminal_last_no_send_after, forwarder_terminal_last.
    + apply terminal_closed; [done|].
      apply forwarder_terminal_exits; [done|].
      apply ParseSSE_terminal_exits, claude_onData_stops.
    + intros Hw Hsse.
      assert (exited (claude.forwarder w (ParseSSE w_sse body claude.onData)) = true)
        as He by (by apply forwarder_never_asleep, ParseSSE_never_asleep).
      split; [done|]. by apply Hc.
  - intros p w messages s (body & ->)%openai_Stream_chan. cbn [out].
    apply HP, openai_parseChunk_stops.
  - intros w w_sse ls onData Hs.
    pose proof (deferred_shape_closes_channel_once _
                  (ParseSSE_stalled_shape w_sse ls onData)) as Hc.
    pose proof (deferred_shape_closes_channel_once _
                  (forwarder_shape w (ParseSSE_stalled w_sse ls onData))) as Hf.
    pose proof (ParseSSE_stalled_terminal_last w_sse ls onData Hs) as Hl.
    refine (conj (conj _ (conj Hc _)) (conj (conj _ (conj Hf _)) _)).
    + by apply terminal_last_no_send_after.
    + apply terminal_closed; [done|]. by apply ParseSSE_stalled_terminal_exits.
    + by apply terminal_last_no_send_after, forwarder_terminal_last.
    + apply terminal_closed; [done|].
      apply forwarder_terminal_exits; [done|].
      by apply ParseSSE_stalled_terminal_exits.
    + intros Hcont. rewrite ParseSSE_stalled_unfold, Hcont. cbn [trace exited].
      destruct (scan_loop_terminal w_sse onData ls 0 Hs) as [_ Hn].
      split; [done|]. split; [|by apply Hn].
      by apply no_close_counts, scan_loop_no_close.
Qed.

Lemma Stream_terminal_close_witness :
  (exists s : stream,
      ret_chan (@claude.Stream fixture_lib (claude_fixture 200 body_claude)
                  quiet quiet hello) = Some s /\
      no_send_after_terminal (trace (out s)) /\ closes_channel_once (out s) /\
      exited (out s) = true /\ chan_closes (trace (out s)) = 1%nat) /\
  (exists s : stream,
      ret_chan (@openai.Stream fixture_lib (openai_fixture 200 body_openai)
                  quiet hello) = Some s /\
      no_send_after_terminal (trace (out s)) /\ closes_channel_once (out s) /\
      exited (out s) = true /\ chan_closes (trace (out s)) = 1%nat).
Proof.
  assert (never_asleep quiet) as Hq by (intros k; discriminate).
  split.
  - eexists. split; [reflexivity|].
    pose proof (proj1 (@Stream_terminal_close fixture_lib)
                  (claude_fixture 200 body_claude) quiet quiet hello _ eq_refl)
      as (H1 & H2 & _ & H4).
    exact (conj H1 (conj H2 (H4 Hq Hq))).
  - eexists. split; [reflexivity|].
    pose proof (proj1 (proj2 (@Stream_terminal_close fixture_lib))
                  (openai_fixture 200 body_openai) quiet hello _ eq_refl)
      as (H1 & H2 & _ & H4).
    exact (conj H1 (conj H2 (H4 Hq))).
Defined.

(** ** Closing the response body *)

(** The delta-typed provider closes the body once on every path on which
    its goroutine returns. *)
Lemma openai_Stream_body_closes `{GoLib} (p : openai.openaiProvider) (w : sched)
    (messages : list ChatMessage) (s : stream) :
  ret_chan (openai.Stream p w messages) = Some s ->
  stream_body_closes s = if exited (out s) then 1%nat else 0%nat.
Proof.
  intros (body & ->)%openai_Stream_chan. unfold stream_body_closes. cbn [out nested].
  rewrite ParseSSE_body_closes. lia.
Qed.

(** The event-typed provider closes it twice when both of its goroutines
    return: once in [ParseSSE], once more in the goroutine of [Stream]. *)
Lemma claude_Stream_body_closes `{GoLib} (p : claude.claudeProvider) (w w_sse : sched)
    (messages : list ChatMessage) (s : stream) :
  ret_chan (claude.Stream p w w_sse messages) = Some s ->
  stream_body_closes s
  = ((if exited (out s) then 1 else 0)
     + match nested s with
       | Some g => if exited g then 1 else 0
       | None => 0
       end)%nat.
Proof.
  intros (body & ->)%claude_Stream_chan. unfold stream_body_closes. cbn [out nested].
  by rewrite ParseSSE_body_closes, (deferred_shape_body_closes _ (forwarder_shape _ _)).
Qed.

(** C1, where the code departs from it. An event-typed stream that ends
    with message_stop, never cancelled: both goroutines return, and the
    response body has been closed twice. *)
Theorem claude_Stream_closes_body_twice :
  ret_chan (@claude.Stream fixture_lib (claude_fixture 200 body_claude)
              quiet quiet hello)
  = Some {| out := {| trace := [EvSend {| Content := "Hello"; Done := false;
                                          Error := None |};
                                EvSend {| Content := ""; Done := true; Error := None |};
                                EvBodyClose; EvChanClose];
                      exited := true |};
            nested := Some {| trace := [EvOnData json_text_delta;
                                        EvSend {| Content := "Hello"; Done := false;
                                                  Error := None |};
                                        EvOnData json_block_stop;
                                        EvSend StreamChunk_zero;
                                        EvOnData json_message_stop;
                                        EvSend {| Content := ""; Done := true;
                                                  Error := None |};
                                        EvBodyClose; EvChanClose];
                              exited := true |} |} /\
  option_map stream_body_closes
    (ret_chan (@claude.Stream fixture_lib (claude_fixture 200 body_claude)
                 quiet quiet hello))
  = Some 2%nat.
Proof. split; reflexivity. Qed.

(** * Further properties of the streaming layer *)

(** ** What [Stream] returns and does before returning *)

(** Either provider returns a channel or an error, never both and never
    neither. *)
Theorem Stream_chan_xor_err `{GoLib} :
  (forall (p : claude.claudeProvider) (w w_sse : sched) (messages : list ChatMessage),
      is_Some (ret_chan (claude.Stream p w w_sse messages))
      <-> ret_err (claude.Stream p w w_sse messages) = None) /\
  (forall (p : openai.openaiProvider) (w : sched) (messages : list ChatMessage),
      is_Some (ret_chan (openai.Stream p w messages))
      <-> ret_err (openai.Stream p w messages) = None).
Proof.
  split.
  - intros p w w_sse messages.
    destruct (claude_Stream_cases p w w_sse messages) as [[err ->] | (req & _ & ->)].
    + cbn. split; [by intros [? ?] | done].
    + destruct (claude.client p req) as [resp|err].
      * destruct (StatusCode resp =? 200)%Z; cbn;
          (split; [by intros [? ?] || done | by eauto || done]).
      * cbn. split; [by intros [? ?] | done].
  - intros p w messages.
    destruct (openai_Stream_cases p w messages) as [[err ->] | (req & _ & ->)].
    + cbn. split; [by intros [? ?] | done].
    + destruct (openai.client p req) as [resp|err].
      * destruct (StatusCode resp =? 200)%Z; cbn;
          (split; [by intros [? ?] || done | by eauto || done]).
      * cbn. split; [by intros [? ?] | done].
Qed.

Lemma claude_Stream_effects `{GoLib} (p : claude.claudeProvider) (w w_sse : sched)
    (messages : list ChatMessage) :
  effects (claude.Stream p w w_sse messages) = [] \/
  exists req : Request,
    match claude.client p req with
    | Err err =>
        claude.Stream p w w_sse messages
        = fail (Errorf_w "failed to send request" err) [EvDo req]
    | Ok resp =>
        effects (claude.Stream p w w_sse messages)
        = if (StatusCode resp =? 200)%Z then [EvDo req] else [EvDo req; EvBodyClose]
    end.
Proof.
  destruct (claude_Stream_cases p w w_sse messages) as [[err ->] | (req & _ & E)];
    [by left|].
  right. exists req. destruct (claude.client p req) as [resp|err]; [|done].
  rewrite E. by destruct (StatusCode resp =? 200)%Z.
Qed.

Lemma openai_Stream_effects `{GoLib} (p : openai.openaiProvider) (w : sched)
    (messages : list ChatMessage) :
  effects (openai.Stream p w messages) = [] \/
  exists req : Request,
    match openai.client p req with
    | Err err =>
        openai.Stream p w messages
        = fail (Errorf_w "failed to send request" err) [EvDo req]
    | Ok resp =>
        effects (openai.Stream p w messages)
        = if (StatusCode resp =? 200)%Z then [EvDo req] else [EvDo req; EvBodyClose]
    end.
Proof.
  destruct (openai_Stream_cases p w messages) as [[err ->] | (req & _ & E)];
    [by left|].
  right. exists req. destruct (openai.client p req) as [resp|err]; [|done].
  rewrite E. by destruct (StatusCode resp =? 200)%Z.
Qed.

Lemma In_EvDo_one (req req' : Request) : In (EvDo req') [EvDo req] -> req' = req.
Proof. intros [E | []]. congruence. Qed.

Lemma In_EvDo_two (req req' : Request) :
  In (EvDo req') [EvDo req; EvBodyClose] -> req' = req.
Proof. intros [E | [E | []]]; congruence. Qed.

(** Neither provider retries: [Stream] hands at most one request to the
    client. Before returning it closes the response body itself exactly
    when it has received a response and rejects it for its status; a
    failure of the client comes back wrapped as "failed to send request",
    with nothing closed. *)
Theorem Stream_no_retry `{GoLib} :
  (forall (p : claude.claudeProvider) (w w_sse : sched) (messages : list ChatMessage),
      (requests (effects (claude.Stream p w w_sse messages)) <= 1)%nat /\
      (body_closes (effects (claude.Stream p w w_sse messages)) = 1%nat <->
       exists (req : Request) (resp : Response),
         In (EvDo req) (effects (claude.Stream p w w_sse messages)) /\
         claude.client p req = Ok resp /\ StatusCode resp <> 200%Z) /\
      (body_closes (effects (claude.Stream p w w_sse messages)) <= 1)%nat /\
      (forall (req : Request) (err : error),
          In (EvDo req) (effects (claude.Stream p w w_sse messages)) ->
          claude.client p req = Err err ->
          claude.Stream p w w_sse messages
          = fail (Errorf_w "failed to send request" err) [EvDo req])) /\
  (forall (p : openai.openaiProvider) (w : sched) (messages : list ChatMessage),
      (requests (effects (openai.Stream p w messages)) <= 1)%nat /\
      (body_closes (effects (openai.Stream p w messages)) = 1%nat <->
       exists (req : Request) (resp : Response),
         In (EvDo req) (effects (openai.Stream p w messages)) /\
         openai.client p req = Ok resp /\ StatusCode resp <> 200%Z) /\
      (body_closes (effects (openai.Stream p w messages)) <= 1)%nat /\
      (forall (req : Request) (err : error),
          In (EvDo req) (effects (openai.Stream p w messages)) ->
          openai.client p req = Err err ->
          openai.Stream p w messages
          = fail (Errorf_w "failed to send request" err) [EvDo req])).
Proof.
  split.
  - intros p w w_sse messages.
    destruct (claude_Stream_effects p w w_sse messages) as [E | [req E]].
    + rewrite E. cbn. split; [lia|]. split; [|split; [lia|]].
      * split; [done|]. by intros (? & ? & [] & _).
      * by intros ? ? [].
    + destruct (claude.client p req) as [resp|err] eqn:Hc.
      * rewrite E. destruct (StatusCode resp =? 200)%Z eqn:Hs.
        -- apply Z.eqb_eq in Hs. cbn. split; [lia|]. split; [|split; [lia|]].
           ++ split; [done|].
              intros (req' & resp' & ->%In_EvDo_one & Hc' & Hne). congruence.
           ++ intros req' err ->%In_EvDo_one. congruence.
        -- apply Z.eqb_neq in Hs. cbn. split; [lia|]. split; [|split; [lia|]].
           ++ split; [|done]. intros _. exists req, resp. by repeat split; [left|..].
           ++ intros req' err ->%In_EvDo_two. congruence.
      * rewrite E. cbn. split; [lia|]. split; [|split; [lia|]].
        -- split; [done|].
           intros (req' & resp' & ->%In_EvDo_one & Hc' & _). congruence.
        -- intros req' err' ->%In_EvDo_one. congruence.
  - intros p w messages.
    destruct (openai_Stream_effects p w messages) as [E | [req E]].
    + rewrite E. cbn. split; [lia|]. split; [|split; [lia|]].
      * split; [done|]. by intros (? & ? & [] & _).
      * by intros ? ? [].
    + destruct (openai.client p req) as [resp|err] eqn:Hc.
      * rewrite E. destruct (StatusCode resp =? 200)%Z eqn:Hs.
        -- apply Z.eqb_eq in Hs. cbn. split; [lia|]. split; [|split; [lia|]].
           ++ split; [done|].
              intros (req' & resp' & ->%In_EvDo_one & Hc' & Hne). congruence.
           ++ intros req' err ->%In_EvDo_one. congruence.
        -- apply Z.eqb_neq in Hs. cbn. split; [lia|]. split; [|split; [lia|]].
           ++ split; [|done]. intros _. exists req, resp. by repeat split; [left|..].
           ++ intros req' err ->%In_EvDo_two. congruence.
      * rewrite E. cbn. split; [lia|]. split; [|split; [lia|]].
        -- split; [done|].
           intros (req' & resp' & ->%In_EvDo_one & Hc' & _). congruence.
        -- intros req' err' ->%In_EvDo_one. congruence.
Qed.

Lemma Stream_chan_xor_err_witness :
  is_Some (ret_chan (@claude.Stream fixture_lib (claude_fixture 200 body_claude)
                       quiet quiet hello)) /\
  ret_chan (@openai.Stream fixture_lib (openai_fixture 401 body_refused) quiet hello)
  = None.
Proof.
  split.
  - apply (proj1 (@Stream_chan_xor_err fixture_lib)). reflexivity.
  - destruct (ret_chan (@openai.Stream fixture_lib (openai_fixture 401 body_refused)
                          quiet hello)) as [s|] eqn:E; [|reflexivity].
    assert (is_Some (ret_chan (@openai.Stream fixture_lib
                                 (openai_fixture 401 body_refused) quiet hello))) as Hs
      by (rewrite E; eauto).
    apply (proj2 (@Stream_chan_xor_err fixture_lib)) in Hs. discriminate Hs.
Defined.

Lemma Stream_no_retry_witness :
  body_closes (effects (@claude.Stream fixture_lib (claude_fixture 401 body_refused)
                          quiet quiet hello)) = 1%nat /\
  (requests (effects (@openai.Stream fixture_lib (openai_fixture 401 body_refused)
                        quiet hello)) <= 1)%nat.
Proof.
  split.
  - apply (proj1 (@Stream_no_retry fixture_lib)).
    eexists _, {| StatusCode := 401; RespBody := body_refused |}.
    split; [left; reflexivity|]. split; [reflexivity | discriminate].
  - apply (proj2 (@Stream_no_retry fixture_lib)).
Defined.

(** ** The decoders *)

(** Both decoders say stop exactly with the chunks that end a stream for
    its reader: the stop flag is set if and only if the chunk is done or
    carries an error. *)
Theorem decoders_stop_iff_terminal `{GoLib} (data : string) :
  snd (claude.onData data) = terminal (fst (claude.onData data)) /\
  snd (openai.parseChunk data) = terminal (fst (openai.parseChunk data)).
Proof.
  rewrite claude_onData_unfold, openai_parseChunk_unfold.
  split; repeat case_match; reflexivity.
Qed.

(** ** Cancellation and blocking *)



Lemma scan_loop_cancel_bound (w : sched) (onData : string -> StreamChunk * bool)
    (k0 : nat) (ls : list string) (k : nat) :
  (forall j : nat, (k0 <= j)%nat -> done_ready w j = true) ->
  (2 * length (invoked (scan_loop w onData k ls).1.1) <= (k0 - k) + 1)%nat /\
  (length (sent (scan_loop w onData k ls).1.1)
   <= length (invoked (scan_loop w onData k ls).1.1))%nat.
Proof.
  intros Hc. revert k. induction ls as [|line rest IH]; intros k.
  - cbn. lia.
  - rewrite scan_loop_cons, iteration_payload_of. unfold select_poll.
    destruct (done_ready w k) eqn:Hd; [cbn; lia|].
    assert (k < k0)%nat as Hk.
    { destruct (Nat.lt_ge_cases k k0) as [?|Hge]; [done|].
      apply Hc in Hge. congruence. }
    destruct (payload_of line) as [d|].
    + destruct (select_send w (S k)); [|cbn; lia..].
      destruct (snd (onData d)); [cbn; lia|].
      specialize (IH (S (S k))).
      destruct (scan_loop w onData (S (S k)) rest) as [[evs' k''] f'].
      cbn in *. lia.
    + specialize (IH (S k)).
      destruct (scan_loop w onData (S k) rest) as [[evs' k''] f'].
      cbn in *. lia.
Qed.

(** Cancellation bounds the work, whatever the length of the source: if
    the context is seen cancelled from the [k0]-th [select] on, the decoder
    is called at most [(k0 + 1) / 2] times; and at any time the chunks sent
    are at most one more than the calls made (the read error). *)
Theorem ParseSSE_cancel_bound (w : sched) (body : ReadCloser)
    (onData : string -> StreamChunk * bool) (k0 : nat) :
  (forall j : nat, (k0 <= j)%nat -> done_ready w j = true) ->
  (2 * length (invoked (trace (ParseSSE w body onData))) <= k0 + 1)%nat /\
  (length (sent (trace (ParseSSE w body onData)))
   <= length (invoked (trace (ParseSSE w body onData))) + 1)%nat.
Proof.
  intros Hc. rewrite ParseSSE_invoked.
  destruct (scan_loop_cancel_bound w onData k0 (lines body) 0 Hc) as [H1 H2].
  split; [lia|].
  rewrite ParseSSE_unfold.
  destruct (scan_loop w onData 0 (lines body)) as [[evs k] f].
  cbn [fst] in *.
  assert (sent ParseSSE_deferred = []) as Hd by reflexivity.
  destruct f; cbn [trace]; rewrite ?sent_app, ?Hd, ?app_nil_r; try lia.
  destruct (scan_err body) as [err|]; [destruct (select_send w k)|];
    cbn [trace]; rewrite ?sent_app, ?Hd, ?app_nil_r; try lia.
  change (sent [EvSend (error_chunk err)]) with [error_chunk err].
  rewrite length_app. cbn [length]. lia.
Qed.

Lemma ParseSSE_cancel_bound_witness :
  (forall j : nat, (2 <= j)%nat -> done_ready cancel_after_first j = true) /\
  (2 * length (invoked (trace (ParseSSE cancel_after_first body_five echo))) <= 2 + 1)%nat.
Proof.
  assert (forall j : nat, (2 <= j)%nat -> done_ready cancel_after_first j = true) as Hc.
  { intros j Hj. unfold cancel_after_first. cbn [done_ready]. by apply Nat.leb_le. }
  split; [exact Hc|].
  exact (proj1 (ParseSSE_cancel_bound cancel_after_first body_five echo 2 Hc)).
Defined.




(** ** The forwarding goroutine of claude.go *)

Lemma forward_sublist (w : sched) (chunks : list StreamChunk) (k : nat) :
  sent (claude.forward w k chunks).1.1 `sublist_of` chunks.
Proof.
  revert k. induction chunks as [|c rest IH]; intros k; cbn; [constructor|].
  destruct (claude.passes c); [|by constructor].
  destruct (select_send w k); try apply sublist_nil_l.
  specialize (IH (S k)). destruct (claude.forward w (S k) rest) as [[evs k'] f].
  by constructor.
Qed.

Lemma forward_undisturbed (w : sched) (chunks : list StreamChunk) (k : nat) :
  undisturbed w ->
  exists k' : nat,
    claude.forward w k chunks
    = (map EvSend (List.filter claude.passes chunks), k', Continue).
Proof.
  intros Hw. revert k. induction chunks as [|c rest IH]; intros k; cbn.
  - by exists k.
  - destruct (claude.passes c); [|apply IH].
    destruct (Hw k) as [_ ->]. destruct (IH (S k)) as [k' ->]. by exists k'.
Qed.

Lemma sent_map_EvSend (cs : list StreamChunk) : sent (map EvSend cs) = cs.
Proof.
  induction cs as [|c cs IH]; [done|]. unfold sent in *. cbn. by f_equal.
Qed.

(** The channel of the event-typed provider carries chunks of the decoder
    in the decoder's order, never a chunk of its own making and never two
    swapped; and when no cancellation is observed and no send waits for
    ever, it carries every chunk of the decoder that has content, the done
    marker or an error. *)
Theorem claude_forwarder_order `{GoLib} (p : claude.claudeProvider) (w w_sse : sched)
    (messages : list ChatMessage) (s : stream) :
  ret_chan (claude.Stream p w w_sse messages) = Some s ->
  exists g : goroutine,
    nested s = Some g /\
    sent (trace (out s)) `sublist_of` sent (trace g) /\
    (undisturbed w ->
     sent (trace (out s)) = List.filter meaningful (sent (trace g))).
Proof.
  intros (body & ->)%claude_Stream_chan. eexists. split; [reflexivity|].
  cbn [out]. rewrite forwarder_sent. split.
  - apply forward_sublist.
  - intros Hw.
    destruct (forward_undisturbed w (sent (trace (ParseSSE w_sse body claude.onData)))
                0 Hw) as [k' ->].
    cbn [fst]. apply sent_map_EvSend.
Qed.

Lemma claude_forwarder_order_witness :
  exists g : goroutine,
    nested {| out := claude.forwarder quiet
                       (ParseSSE quiet body_claude (@claude.onData fixture_lib));
              nested := Some (ParseSSE quiet body_claude (@claude.onData fixture_lib)) |}
    = Some g /\
    sent (trace (claude.forwarder quiet
                   (ParseSSE quiet body_claude (@claude.onData fixture_lib))))
      `sublist_of` sent (trace g) /\
    (undisturbed quiet ->
     sent (trace (claude.forwarder quiet
                    (ParseSSE quiet body_claude (@claude.onData fixture_lib))))
     = List.filter meaningful (sent (trace g))).
Proof.
  exact (@claude_forwarder_order fixture_lib (claude_fixture 200 body_claude)
           quiet quiet hello _ eq_refl).
Defined.

(** An event-typed stream left alone, end to end: for a 200 response, with
    no cancellation observed and no send waiting for ever in either
    goroutine, the caller's channel carries exactly the decoder's chunks
    for the payloads of the body up to the first stop, then the read error
    if the source failed before any stop, each kept only if it has content,
    the done marker or an error; then the body and the channel are
    closed. *)
Theorem claude_Stream_undisturbed `{GoLib} (p : claude.claudeProvider)
    (w w_sse : sched) (messages : list ChatMessage) (req : Request) (resp : Response) :
  In (EvDo req) (effects (claude.Stream p w w_sse messages)) ->
  claude.client p req = Ok resp ->
  StatusCode resp = 200%Z ->
  undisturbed w -> undisturbed w_sse ->
  option_map out (ret_chan (claude.Stream p w w_sse messages))
  = Some {| trace :=
              map EvSend
                (List.filter meaningful
                   (map (fun d => fst (claude.onData d))
                      (upto_stop claude.onData (payloads (lines (RespBody resp))))
                    ++ sent (trailer claude.onData (RespBody resp))))
              ++ [EvBodyClose; EvChanClose];
            exited := true |}.
Proof.
  intros Hin Hc Hs Hw Hw'.
  apply claude_Stream_issued in Hin as [_ ->]. rewrite Hc, Hs. cbn.
  f_equal. unfold claude.forwarder.
  rewrite (ParseSSE_undisturbed _ _ _ Hw'). cbn [trace exited].
  destruct (forward_undisturbed w
              (sent (emit claude.onData
                       (upto_stop claude.onData (payloads (lines (RespBody resp))))
                     ++ trailer claude.onData (RespBody resp) ++ ParseSSE_deferred))
              0 Hw) as [k' ->].
  rewrite !sent_app, sent_emit.
  change (sent ParseSSE_deferred) with (@nil StreamChunk). by rewrite app_nil_r.
Qed.

Lemma claude_Stream_undisturbed_witness :
  option_map (fun s => sent (trace (out s)))
    (ret_chan (@claude.Stream fixture_lib (claude_fixture 200 body_claude)
                 quiet quiet hello))
  = Some [{| Content := "Hello"; Done := false; Error := None |};
          {| Content := ""; Done := true; Error := None |}].
Proof.
  pose proof (@claude_Stream_undisturbed fixture_lib (claude_fixture 200 body_claude)
                quiet quiet hello _ {| StatusCode := 200; RespBody := body_claude |}
                (or_introl eq_refl) eq_refl eq_refl quiet_undisturbed quiet_undisturbed)
    as E.
  destruct (ret_chan (@claude.Stream fixture_lib (claude_fixture 200 body_claude)
                        quiet quiet hello)) as [s|]; [|discriminate E].
  cbn in E. injection E as E. cbn [option_map]. rewrite E. reflexivity.
Defined.

(** * Configuration and provider construction *)

(** ** provider.go: BuildProviders *)

Lemma BuildProviders_lookup `{config.Host} (providers : gmap string config.Provider)
    (name : string) :
  BuildProviders providers !! name =
  (fun cfg =>
     if Contains (config.BaseURL cfg) "anthropic.com" then
       Provider_claude
         {| claude.name := name;
            claude.apiKey := config.APIKey cfg;
            claude.baseURL := config.BaseURL cfg;
            claude.model := config.Model cfg;
            claude.systemPrompt := config.SystemPrompt cfg;
            claude.maxTokens := config.MaxTokens cfg;
            claude.client := config.http_Client |}
     else
       Provider_openai
         {| openai.name := name;
            openai.apiKey := config.APIKey cfg;
            openai.baseURL := config.BaseURL cfg;
            openai.model := config.Model cfg;
            openai.systemPrompt := config.SystemPrompt cfg;
            openai.maxTokens := config.MaxTokens cfg;
            openai.client := config.http_Client |})
    <$> providers !! name.
Proof.
  unfold BuildProviders. rewrite map_lookup_imap. by destruct (providers !! name).
Qed.

Lemma BuildProviders_size `{config.Host} (providers : gmap string config.Provider) :
  size (BuildProviders providers) = size providers.
Proof.
  unfold BuildProviders.
  induction providers as [|name cfg m Hm Hfresh IH] using map_first_key_ind.
  - by rewrite map_imap_empty, !map_size_empty.
  - erewrite map_imap_insert_Some by reflexivity.
    rewrite !map_size_insert_None; [by rewrite IH | done |].
    by rewrite map_lookup_imap, Hm.
Qed.

(** [BuildProviders] makes one provider per configured name, no more and no
    fewer, and each provider answers [Name()] with the name it is filed
    under. *)
Theorem BuildProviders_names `{config.Host} (providers : gmap string config.Provider) :
  size (BuildProviders providers) = size providers /\
  (forall name : string,
      BuildProviders providers !! name = None <-> providers !! name = None) /\
  (forall (name : string) (p : Provider),
      BuildProviders providers !! name = Some p -> Provider_Name p = name).
Proof.
  split; [apply BuildProviders_size|]. split.
  - intros name. rewrite BuildProviders_lookup. by destruct (providers !! name).
  - intros name p. rewrite BuildProviders_lookup.
    destruct (providers !! name) as [cfg|]; [|done].
    cbn. intros [= <-]. by destruct (Contains _ _).
Qed.

Lemma BuildProviders_names_witness :
  Provider_Name
    (Provider_claude
       {| claude.name := "anthropic"; claude.apiKey := "$ANTHROPIC_API_KEY";
          claude.baseURL := "https://api.anthropic.com";
          claude.model := "claude-sonnet"; claude.systemPrompt := "";
          claude.maxTokens := 0; claude.client := respond 200 body_claude |})
  = "anthropic".
Proof.
  apply (proj2 (proj2 (@BuildProviders_names fixture_host
                         (config.Providers fixture_config)))).
  reflexivity.
Defined.

(** Routing and use of the configuration: a provider built for an entry
    whose base URL contains "anthropic.com" posts to that base URL +
    /v1/messages with the entry's key in x-api-key; a provider built for
    any other entry posts to its base URL + /chat/completions with the key
    as a bearer token. *)
Theorem BuildProviders_request `{GoLib} `{config.Host}
    (providers : gmap string config.Provider) (name : string)
    (cfg : config.Provider) (p : Provider) (w w_sse : sched)
    (messages : list ChatMessage) (req : Request) :
  providers !! name = Some cfg ->
  BuildProviders providers !! name = Some p ->
  In (EvDo req) (effects (Provider_Stream p w w_sse messages)) ->
  Method req = "POST" /\
  if Contains (config.BaseURL cfg) "anthropic.com"
  then URL req = config.BaseURL cfg +:+ "/v1/messages" /\
       Header req !! "x-api-key" = Some (config.APIKey cfg)
  else URL req = config.BaseURL cfg +:+ "/chat/completions" /\
       Header req !! "Authorization" = Some ("Bearer " +:+ config.APIKey cfg).
Proof.
  intros Hcfg. rewrite BuildProviders_lookup, Hcfg. cbn. intros [= <-].
  destruct (Contains (config.BaseURL cfg) "anthropic.com"); cbn [Provider_Stream].
  - intros (Hm & Hu & Hk & _)%claude_Stream_issued%proj1. auto.
  - intros (Hm & Hu & Hk & _)%openai_Stream_issued%proj1. auto.
Qed.

Lemma BuildProviders_request_witness :
  exists req : Request,
    Method req = "POST" /\
    URL req = "http://localhost:11434/v1/chat/completions" /\
    Header req !! "Authorization" = Some "Bearer none".
Proof.
  eexists.
  refine (@BuildProviders_request fixture_lib fixture_host
            (config.Providers fixture_config) "local" _ _ quiet quiet hello _
            eq_refl eq_refl _).
  left. reflexivity.
Defined.

(** ** config.go *)

Lemma applyDefaults_MaxTokens (cfg : config.Config) (name : string)
    (p : config.Provider) :
  config.Providers (config.applyDefaults cfg) !! name = Some p ->
  config.MaxTokens p <> 0%Z.
Proof.
  cbn. rewrite lookup_fmap.
  destruct (config.Providers cfg !! name) as [p0|]; [|done].
  cbn. intros [= <-]. destruct (config.MaxTokens p0 =? 0)%Z eqn:E; [done|].
  by apply Z.eqb_neq.
Qed.

Lemma applyDefaults_MaxWidth (cfg : config.Config) :
  config.MaxWidth (config.UI_ (config.applyDefaults cfg)) <> 0%Z.
Proof.
  cbn. destruct (config.MaxWidth (config.UI_ cfg) =? 0)%Z eqn:E; [done|].
  by apply Z.eqb_neq.
Qed.

Lemma validate_None (cfg : config.Config) :
  config.validate cfg = None ->
  config.Providers cfg <> ∅ /\
  is_Some (config.Providers cfg !! config.DefaultProvider cfg).
Proof.
  unfold config.validate.
  destruct (size (config.Providers cfg) =? 0)%nat eqn:Hs; [done|].
  apply Nat.eqb_neq in Hs. rewrite map_size_non_empty_iff in Hs.
  destruct (String.eqb (config.DefaultProvider cfg) ""); [done|].
  destruct (config.Providers cfg !! config.DefaultProvider cfg) as [p|]; [|done].
  intros _. eauto.
Qed.

(** After [applyDefaults] no provider has a token limit of 0, the width is
    not 0 and neither storage path is empty. Only what was not set is
    filled in, with 4096, 100 and the two default paths: a token limit or
    width other than 0 (a negative one too) and a storage path that is
    not empty are kept, as are the default provider, the token display
    and every other field of a provider; no provider is added or dropped,
    and applying the defaults again changes nothing. *)
Theorem applyDefaults_fills (cfg : config.Config) :
  (forall (name : string) (p : config.Provider),
      config.Providers (config.applyDefaults cfg) !! name = Some p ->
      config.MaxTokens p <> 0%Z) /\
  config.MaxWidth (config.UI_ (config.applyDefaults cfg)) <> 0%Z /\
  config.DBPath (config.Storage_ (config.applyDefaults cfg)) <> "" /\
  config.NotesDir (config.Storage_ (config.applyDefaults cfg)) <> "" /\
  (forall (name : string) (p : config.Provider),
      config.Providers cfg !! name = Some p ->
      config.Providers (config.applyDefaults cfg) !! name
      = Some (if (config.MaxTokens p =? 0)%Z then config.set_MaxTokens p 4096 else p)) /\
  (forall name : string,
      config.Providers cfg !! name = None ->
      config.Providers (config.applyDefaults cfg) !! name = None) /\
  config.applyDefaults (config.applyDefaults cfg) = config.applyDefaults cfg /\
  (forall (name : string) (p : config.Provider),
      config.Providers cfg !! name = Some p ->
      exists p' : config.Provider,
        config.Providers (config.applyDefaults cfg) !! name = Some p' /\
        config.APIKey p' = config.APIKey p /\
        config.BaseURL p' = config.BaseURL p /\
        config.Model p' = config.Model p /\
        config.SystemPrompt p' = config.SystemPrompt p /\
        (config.MaxTokens p <> 0%Z -> config.MaxTokens p' = config.MaxTokens p) /\
        (config.MaxTokens p = 0%Z -> config.MaxTokens p' = 4096%Z)) /\
  (config.MaxWidth (config.UI_ cfg) <> 0%Z ->
   config.MaxWidth (config.UI_ (config.applyDefaults cfg))
   = config.MaxWidth (config.UI_ cfg)) /\
  (config.MaxWidth (config.UI_ cfg) = 0%Z ->
   config.MaxWidth (config.UI_ (config.applyDefaults cfg)) = 100%Z) /\
  (config.DBPath (config.Storage_ cfg) <> "" ->
   config.DBPath (config.Storage_ (config.applyDefaults cfg))
   = config.DBPath (config.Storage_ cfg)) /\
  (config.DBPath (config.Storage_ cfg) = "" ->
   config.DBPath (config.Storage_ (config.applyDefaults cfg))
   = "~/.local/share/ai-tui/ai-tui.db") /\
  (config.NotesDir (config.Storage_ cfg) <> "" ->
   config.NotesDir (config.Storage_ (config.applyDefaults cfg))
   = config.NotesDir (config.Storage_ cfg)) /\
  (config.NotesDir (config.Storage_ cfg) = "" ->
   config.NotesDir (config.Storage_ (config.applyDefaults cfg)) = "~/ai-notes/") /\
  config.DefaultProvider (config.applyDefaults cfg) = config.DefaultProvider cfg /\
  config.ShowTokens (config.UI_ (config.applyDefaults cfg))
  = config.ShowTokens (config.UI_ cfg).
Proof.
  split; [apply applyDefaults_MaxTokens|].
  refine (conj _ (conj _ (conj _ (conj _ (conj _ (conj _ (conj _ (conj _ (conj _
            (conj _ (conj _ (conj _ (conj _ (conj eq_refl eq_refl)))))))))))))).
  - apply applyDefaults_MaxWidth.
  - cbn. destruct (String.eqb (config.DBPath (config.Storage_ cfg)) "") eqn:E; [done|].
    by apply String.eqb_neq.
  - cbn. destruct (String.eqb (config.NotesDir (config.Storage_ cfg)) "") eqn:E; [done|].
    by apply String.eqb_neq.
  - intros name p Hl. cbn. by rewrite lookup_fmap, Hl.
  - intros name Hl. cbn. by rewrite lookup_fmap, Hl.
  - destruct cfg as [dp ps [db nd] [st mw]].
    unfold config.applyDefaults. cbn. f_equal.
    + apply map_eq. intros name. rewrite !lookup_fmap.
      destruct (ps !! name) as [p|]; [|done]. cbn. f_equal.
      destruct (config.MaxTokens p =? 0)%Z eqn:E; cbn; by rewrite ?E.
    + f_equal.
      * destruct (String.eqb db "") eqn:E; cbn; by rewrite ?E.
      * destruct (String.eqb nd "") eqn:E; cbn; by rewrite ?E.
    + f_equal. destruct (mw =? 0)%Z eqn:E; cbn; by rewrite ?E.
  - intros name p Hl. eexists. split; [cbn; by rewrite lookup_fmap, Hl|].
    destruct (config.MaxTokens p =? 0)%Z eqn:E.
    + apply Z.eqb_eq in E. by repeat split.
    + apply Z.eqb_neq in E. by repeat split.
  - intros Hne. apply Z.eqb_neq in Hne. unfold config.applyDefaults.
    cbn [config.UI_ config.MaxWidth]. by rewrite Hne.
  - intros He. unfold config.applyDefaults.
    cbn [config.UI_ config.MaxWidth]. by rewrite He.
  - intros Hne. apply String.eqb_neq in Hne. unfold config.applyDefaults.
    cbn [config.Storage_ config.DBPath]. by rewrite Hne.
  - intros He. unfold config.applyDefaults.
    cbn [config.Storage_ config.DBPath]. by rewrite He.
  - intros Hne. apply String.eqb_neq in Hne. unfold config.applyDefaults.
    cbn [config.Storage_ config.NotesDir]. by rewrite Hne.
  - intros He. unfold config.applyDefaults.
    cbn [config.Storage_ config.NotesDir]. by rewrite He.
Qed.

Lemma applyDefaults_fills_witness :
  config.Providers (config.applyDefaults fixture_config) !! "anthropic"
  = Some {| config.APIKey := "$ANTHROPIC_API_KEY";
            config.BaseURL := "https://api.anthropic.com";
            config.Model := "claude-sonnet";
            config.SystemPrompt := "";
            config.MaxTokens := 4096 |} /\
  config.MaxWidth (config.UI_ (config.applyDefaults fixture_config)) = 100%Z /\
  config.NotesDir (config.Storage_ (config.applyDefaults fixture_config))
  = config.NotesDir (config.Storage_ fixture_config).
Proof.
  pose proof (applyDefaults_fills fixture_config)
    as (_ & _ & _ & _ & H5 & _ & _ & _ & _ & H10 & _ & _ & H13 & _).
  refine (conj (H5 "anthropic" _ eq_refl) (conj (H10 eq_refl) (H13 _))).
  discriminate.
Defined.

(** [validate] accepts a configuration exactly when it has at least one
    provider and names as default, by a non-empty name, one of them. *)
Theorem validate_iff (cfg : config.Config) :
  config.validate cfg = None <->
  config.Providers cfg <> ∅ /\
  config.DefaultProvider cfg <> "" /\
  is_Some (config.Providers cfg !! config.DefaultProvider cfg).
Proof.
  unfold config.validate.
  destruct (size (config.Providers cfg) =? 0)%nat eqn:Hs.
  - apply Nat.eqb_eq, map_size_empty_iff in Hs. split; [done|]. by intros [? _].
  - apply Nat.eqb_neq in Hs. rewrite map_size_non_empty_iff in Hs.
    destruct (String.eqb (config.DefaultProvider cfg) "") eqn:Hd.
    + apply String.eqb_eq in Hd. split; [done|]. by intros (_ & ? & _).
    + apply String.eqb_neq in Hd.
      destruct (config.Providers cfg !! config.DefaultProvider cfg) as [p|].
      * split; [|done]. intros _. eauto.
      * split; [done|]. by intros (_ & _ & [? ?]).
Qed.

Lemma validate_iff_witness :
  config.validate fixture_config = None.
Proof.
  apply (proj2 (validate_iff fixture_config)). split; [|split].
  - intros E. assert (config.Providers fixture_config !! "local"
                      = (∅ : gmap string config.Provider) !! "local") as E'
      by (by rewrite E).
    discriminate E'.
  - discriminate.
  - eexists. reflexivity.
Defined.

Lemma slice_from_app (p r : string) : slice_from (String.length p) (p +:+ r) = r.
Proof.
  unfold slice_from. rewrite length_app_string.
  replace (String.length p + String.length r - String.length p)%nat
    with (String.length r) by lia.
  apply substring_app_drop.
Qed.

(** [expandHome] rewrites "~" to the home directory and "~/rest" to the
    home directory joined with rest, and nothing else: a path that does not
    begin with "~", a path of the form "~user", and every path when the
    home directory is not known, come back unchanged. *)
Theorem expandHome_cases `{config.Host} (path : string) :
  (HasPrefix path "~" = false -> config.expandHome path = path) /\
  (forall err : error,
      config.os_UserHomeDir = Err err -> config.expandHome path = path) /\
  (HasPrefix path "~" = true -> path <> "~" -> HasPrefix path "~/" = false ->
   config.expandHome path = path) /\
  (forall home : string,
      config.os_UserHomeDir = Ok home ->
      config.expandHome "~" = home /\
      forall rest : string,
        config.expandHome ("~/" +:+ rest) = config.filepath_Join [home; rest]).
Proof.
  unfold config.expandHome. repeat split.
  - by intros ->.
  - intros err ->. by destruct (HasPrefix path "~").
  - intros -> Hne ->. apply String.eqb_neq in Hne. rewrite Hne. cbn.
    by destruct config.os_UserHomeDir.
  - by rewrite H0.
  - intros rest. rewrite H0.
    rewrite (HasPrefix_trans ("~/" +:+ rest) "~/" "~") by
      (apply HasPrefix_app || reflexivity).
    cbn [negb]. rewrite HasPrefix_app.
    assert (String.eqb ("~/" +:+ rest) "~" = false) as -> by reflexivity.
    by rewrite (slice_from_app "~/" rest : slice_from 2 ("~/" +:+ rest) = rest).
Qed.

Lemma expandHome_cases_witness :
  @config.expandHome fixture_host "~/notes" = "/home/u/notes" /\
  @config.expandHome fixture_host "/tmp/test.db" = "/tmp/test.db" /\
  @config.expandHome fixture_host "~other/x" = "~other/x".
Proof.
  refine (conj _ (conj _ _)).
  - exact (proj2 (proj2 (proj2 (proj2 (@expandHome_cases fixture_host "~"))) _ eq_refl)
             "notes").
  - exact (proj1 (@expandHome_cases fixture_host "/tmp/test.db") eq_refl).
  - apply (proj1 (proj2 (proj2 (@expandHome_cases fixture_host "~other/x"))));
      [reflexivity | discriminate | reflexivity].
Defined.

Lemma expandConfig_lookup `{config.Host} (cfg : config.Config) (name : string) :
  config.Providers (config.expandConfig cfg) !! name =
  (fun provider =>
     if HasPrefix (config.APIKey provider) "$" then
       if negb (String.eqb (config.os_Getenv (slice_from 1 (config.APIKey provider))) "")
       then config.set_APIKey provider
              (config.os_Getenv (slice_from 1 (config.APIKey provider)))
       else provider
     else provider)
    <$> config.Providers cfg !! name.
Proof. cbn. by rewrite lookup_fmap. Qed.

(** [expandConfig] keeps the providers and all their fields but the API
    key, and changes a key only when it is "$NAME" and the environment has
    a non-empty value for NAME, which then replaces it; a key that is not
    empty never becomes empty. *)
Theorem expandConfig_keys `{config.Host} (cfg : config.Config) (name : string) :
  (config.Providers cfg !! name = None ->
   config.Providers (config.expandConfig cfg) !! name = None) /\
  (forall p : config.Provider,
      config.Providers cfg !! name = Some p ->
      exists p' : config.Provider,
        config.Providers (config.expandConfig cfg) !! name = Some p' /\
        config.BaseURL p' = config.BaseURL p /\
        config.Model p' = config.Model p /\
        config.SystemPrompt p' = config.SystemPrompt p /\
        config.MaxTokens p' = config.MaxTokens p /\
        (HasPrefix (config.APIKey p) "$" = false -> config.APIKey p' = config.APIKey p) /\
        (forall var : string,
            config.APIKey p = "$" +:+ var ->
            config.APIKey p'
            = if String.eqb (config.os_Getenv var) "" then config.APIKey p
              else config.os_Getenv var) /\
        (config.APIKey p <> "" -> config.APIKey p' <> "")).
Proof.
  rewrite expandConfig_lookup. split; [by intros ->|].
  intros p ->. cbn [fmap option_fmap option_map]. eexists. split; [reflexivity|].
  destruct (HasPrefix (config.APIKey p) "$") eqn:Hp.
  - destruct (String.eqb (config.os_Getenv (slice_from 1 (config.APIKey p))) "") eqn:Hv;
      cbn [negb]; repeat split; try done.
    + intros var E. rewrite E in Hv.
      rewrite (slice_from_app "$" var : slice_from 1 ("$" +:+ var) = var) in Hv.
      by rewrite Hv.
    + intros var E. rewrite E in Hv |- *.
      rewrite (slice_from_app "$" var : slice_from 1 ("$" +:+ var) = var) in Hv |- *.
      cbn. by rewrite Hv.
    + intros _. cbn. by apply String.eqb_neq.
  - repeat split; try done.
    intros var E. rewrite E, HasPrefix_app in Hp. discriminate.
Qed.

Lemma expandConfig_keys_witness :
  exists p' : config.Provider,
    config.Providers (@config.expandConfig fixture_host fixture_config) !! "anthropic"
    = Some p' /\
    config.APIKey p' = "sk-ant-1".
Proof.
  destruct (proj2 (@expandConfig_keys fixture_host fixture_config "anthropic")
              _ eq_refl) as (p' & Hl & _ & _ & _ & _ & _ & Hk & _).
  exists p'. split; [exact Hl|].
  exact (Hk "ANTHROPIC_API_KEY" eq_refl).
Defined.

Lemma Load_inv `{config.Host} (path : string) (cfg : config.Config) :
  config.Load path = Ok cfg ->
  exists raw : config.Config,
    config.toml_DecodeFile path = Ok raw /\
    cfg = config.expandConfig (config.applyDefaults raw) /\
    config.validate cfg = None.
Proof.
  unfold config.Load.
  destruct (config.toml_DecodeFile path) as [raw|err]; [|done].
  destruct (config.validate _) as [err|] eqn:Hv; [done|].
  intros [= <-]. by exists raw.
Qed.

(** A configuration that [Load] returns has passed [validate] after the
    defaults: it has a provider under its default name, every provider has
    a token limit other than 0 and the width is not 0; and [Load] fails
    with the decoder's error, wrapped, when the file does not decode. *)
Theorem Load_valid `{config.Host} (path : string) :
  (forall cfg : config.Config,
      config.Load path = Ok cfg ->
      config.validate cfg = None /\
      is_Some (config.Providers cfg !! config.DefaultProvider cfg) /\
      (forall (name : string) (p : config.Provider),
          config.Providers cfg !! name = Some p -> config.MaxTokens p <> 0%Z) /\
      config.MaxWidth (config.UI_ cfg) <> 0%Z) /\
  (forall err : error,
      config.toml_DecodeFile path = Err err ->
      config.Load path = Err (Errorf_w "failed to parse config file" err)).
Proof.
  split.
  - intros cfg (raw & _ & -> & Hv)%Load_inv.
    split; [exact Hv|]. split; [by apply validate_None in Hv as [_ ?]|].
    split.
    + intros name p. rewrite expandConfig_lookup.
      destruct (config.Providers (config.applyDefaults raw) !! name) as [p0|] eqn:Hp0;
        [|done].
      cbn. intros [= <-].
      apply applyDefaults_MaxTokens in Hp0.
      by repeat case_match.
    + apply applyDefaults_MaxWidth.
  - unfold config.Load. by intros err ->.
Qed.

Lemma Load_valid_witness :
  exists cfg : config.Config,
    @config.Load fixture_host "/home/u/.config/ai-tui/config.toml" = Ok cfg /\
    config.validate cfg = None.
Proof.
  eexists. split; [reflexivity|].
  exact (proj1 (proj1 (@Load_valid fixture_host "/home/u/.config/ai-tui/config.toml")
                  _ eq_refl)).
Defined.

(** main.go after a successful [Load]: [BuildProviders] on the loaded
    providers is not empty and has a provider under the default name, so
    neither of the two checks that follow it can fail; that provider
    answers [Name()] with the default name. *)
Theorem Load_BuildProviders `{config.Host} (path : string) (cfg : config.Config) :
  config.Load path = Ok cfg ->
  size (BuildProviders (config.Providers cfg)) <> 0%nat /\
  exists p : Provider,
    BuildProviders (config.Providers cfg) !! config.DefaultProvider cfg = Some p /\
    Provider_Name p = config.DefaultProvider cfg.
Proof.
  intros (raw & _ & _ & Hv)%Load_inv. apply validate_None in Hv as (Hne & [p0 Hp0]).
  split.
  - rewrite BuildProviders_size. by apply map_size_non_empty_iff.
  - rewrite BuildProviders_lookup, Hp0. cbn. eexists. split; [reflexivity|].
    by destruct (Contains _ _).
Qed.

Lemma Load_BuildProviders_witness :
  exists cfg : config.Config,
    @config.Load fixture_host "/home/u/.config/ai-tui/config.toml" = Ok cfg /\
    size (@BuildProviders fixture_host (config.Providers cfg)) <> 0%nat.
Proof.
  eexists. split; [reflexivity|].
  exact (proj1 (@Load_BuildProviders fixture_host "/home/u/.config/ai-tui/config.toml"
                  _ eq_refl)).
Defined.

(** * The compose view *)

(** ** Chunks into the conversation *)

Lemma texts_cons (c : StreamChunk) (cs : list StreamChunk) :
  texts (c :: cs) = Content c +:+ texts cs.
Proof. reflexivity. Qed.

Lemma texts_app (cs ds : list StreamChunk) : texts (cs ++ ds) = texts cs +:+ texts ds.
Proof.
  induction cs as [|c cs IH]; [done|].
  cbn [app]. by rewrite !texts_cons, IH, app_assoc_string.
Qed.

Lemma app_string_nil_r (s : string) : s +:+ "" = s.
Proof. induction s as [|c s IH]; [done|]. by rewrite app_cons_string, IH. Qed.

Lemma pump_nonterminal (cs ds : list StreamChunk) :
  Forall (fun c => terminal c = false) cs ->
  compose.pump (cs ++ ds)
  = map (fun c => compose.StreamChunkMsg (Content c) false) cs ++ compose.pump ds.
Proof.
  induction 1 as [|c cs Hc _ IH]; [done|].
  cbn. unfold terminal in Hc. apply orb_false_elim in Hc as [Hd He].
  destruct (Error c); [done|]. unfold chunk_Content. by rewrite Hd, IH.
Qed.

Lemma feed_app `{compose.Bubbles} (m : compose.Model) (xs ys : list compose.Msg) :
  compose.feed m (xs ++ ys) = compose.feed (compose.feed m xs) ys.
Proof. revert m. induction xs as [|x xs IH]; intros m; [done|]. cbn. apply IH. Qed.

(** Chunks that are not the last of their stream only grow the buffer. *)
Lemma feed_contents `{compose.Bubbles} (m : compose.Model) (cs : list StreamChunk) :
  let m' := compose.feed m (map (fun c => compose.StreamChunkMsg (Content c) false) cs) in
  compose.messages m' = compose.messages m /\
  compose.streamBuf m' = compose.streamBuf m +:+ texts cs /\
  compose.streaming m' = compose.streaming m /\
  compose.err m' = compose.err m /\
  compose.session m' = compose.session m /\
  compose.db m' = compose.db m /\
  compose.cancelFn m' = compose.cancelFn m.
Proof.
  revert m. induction cs as [|c cs IH]; intros m.
  - cbn. by rewrite app_string_nil_r.
  - cbn [map compose.feed].
    destruct (IH (compose.Update m (compose.StreamChunkMsg (Content c) false)).1.1)
      as (H1 & H2 & H3 & H4 & H5 & H6 & H7).
    cbn zeta. rewrite H1, H2, H3, H4, H5, H6, H7. cbn.
    by rewrite app_assoc_string.
Qed.

(** What a stream does to the conversation. The goroutine of [streamCmd]
    hands the chunks to the program in order and [Update] takes them one
    by one: chunks that are neither done nor errors are appended to the
    buffer and leave the conversation as it is; a done chunk after them
    turns the whole buffer (what it held before the stream, too) with
    all their text into one assistant message and empties it; an error
    chunk after them empties the buffer and records the error, and the
    text received so far is in no message. *)
Theorem feed_pump `{compose.Bubbles} (m : compose.Model) (cs : list StreamChunk)
    (c : StreamChunk) :
  Forall (fun c => terminal c = false) cs ->
  (compose.messages (compose.feed m (compose.pump cs)) = compose.messages m /\
   compose.streamBuf (compose.feed m (compose.pump cs))
   = compose.streamBuf m +:+ texts cs /\
   compose.streaming (compose.feed m (compose.pump cs)) = compose.streaming m) /\
  (Done c = true -> Error c = None ->
   compose.messages (compose.feed m (compose.pump (cs ++ [c])))
   = compose.messages m
       ++ [{| compose.Role := "assistant";
              compose.Content := compose.streamBuf m +:+ texts (cs ++ [c]) |}] /\
   compose.streamBuf (compose.feed m (compose.pump (cs ++ [c]))) = "" /\
   compose.streaming (compose.feed m (compose.pump (cs ++ [c]))) = false) /\
  (forall e : error,
      Error c = Some e ->
      compose.messages (compose.feed m (compose.pump (cs ++ [c]))) = compose.messages m /\
      compose.streamBuf (compose.feed m (compose.pump (cs ++ [c]))) = "" /\
      compose.streaming (compose.feed m (compose.pump (cs ++ [c]))) = false /\
      compose.err (compose.feed m (compose.pump (cs ++ [c]))) = Some e).
Proof.
  intros Hn.
  pose proof (feed_contents m cs) as (H1 & H2 & H3 & H4 & H5 & H6 & H7).
  cbn zeta in *.
  split; [|split].
  - assert (compose.pump cs
            = map (fun c => compose.StreamChunkMsg (Content c) false) cs) as ->.
    { pose proof (pump_nonterminal cs [] Hn) as E.
      by rewrite !app_nil_r in E. }
    auto.
  - intros Hd He. rewrite (pump_nonterminal cs [c] Hn), feed_app.
    cbn [compose.pump]. rewrite He. unfold chunk_Content. rewrite Hd. cbn.
    rewrite H1, H2, texts_app. cbn [texts fold_right].
    by rewrite app_string_nil_r, app_assoc_string.
  - intros e He. rewrite (pump_nonterminal cs [c] Hn), feed_app.
    cbn [compose.pump]. rewrite He. cbn. by rewrite H1.
Qed.

Lemma feed_pump_witness :
  compose.messages
    (@compose.feed fixture_bubbles
       (@compose.New fixture_bubbles false None)
       (compose.pump ([{| Content := "Hello"; Done := false; Error := None |};
                       {| Content := " world"; Done := false; Error := None |}]
                      ++ [{| Content := ""; Done := true; Error := None |}])))
  = [{| compose.Role := "assistant"; compose.Content := "Hello world" |}].
Proof.
  refine (proj1 (proj1 (proj2 (@feed_pump fixture_bubbles
                                 (@compose.New fixture_bubbles false None)
                                 [{| Content := "Hello"; Done := false; Error := None |};
                                  {| Content := " world"; Done := false; Error := None |}]
                                 {| Content := ""; Done := true; Error := None |} _))
                   eq_refl eq_refl)).
  repeat constructor.
Defined.

Lemma terminal_last_body (body : list StreamChunk) (c : StreamChunk) :
  terminal_last (body ++ [c]) -> Forall (fun c => terminal c = false) body.
Proof.
  induction body as [|x body IH]; cbn; [constructor|].
  intros [Hx Hrest]. constructor; [|by apply IH].
  destruct (terminal x); [|done]. specialize (Hx eq_refl). by destruct body.
Qed.

Lemma Provider_Stream_terminal_last `{GoLib} (p : Provider) (w w_sse : sched)
    (msgs : list ChatMessage) (s : stream) :
  ret_chan (Provider_Stream p w w_sse msgs) = Some s ->
  terminal_last (sent (trace (out s))).
Proof.
  destruct p as [c|o]; cbn [Provider_Stream].
  - intros (body & ->)%claude_Stream_chan. cbn [out].
    apply forwarder_terminal_last, ParseSSE_terminal_last, claude_onData_stops.
  - intros (body & ->)%openai_Stream_chan. cbn [out].
    apply ParseSSE_terminal_last, openai_parseChunk_stops.
Qed.

Lemma feed_pump_last `{compose.Bubbles} (m : compose.Model) (body : list StreamChunk)
    (c : StreamChunk) :
  Forall (fun c => terminal c = false) body ->
  let m' := compose.feed m (compose.pump (body ++ [c])) in
  length (compose.pump (body ++ [c])) = length (body ++ [c]) /\
  match Error c with
  | Some e =>
      compose.messages m' = compose.messages m /\ compose.err m' = Some e /\
      compose.streamBuf m' = "" /\ compose.streaming m' = false
  | None =>
      if Done c then
        compose.messages m'
        = compose.messages m
            ++ [{| compose.Role := "assistant";
                   compose.Content := compose.streamBuf m +:+ texts (body ++ [c]) |}] /\
        compose.streamBuf m' = "" /\ compose.streaming m' = false
      else
        compose.messages m' = compose.messages m /\
        compose.streamBuf m' = compose.streamBuf m +:+ texts (body ++ [c]) /\
        compose.streaming m' = compose.streaming m
  end.
Proof.
  intros Hn.
  pose proof (feed_contents m body) as (H1 & H2 & H3 & _). cbn zeta in *.
  rewrite (pump_nonterminal body [c] Hn), feed_app, !length_app, length_map, texts_app.
  cbn [compose.pump texts fold_right]. unfold chunk_Content.
  destruct (Error c) as [e|]; [by cbn; rewrite H1|].
  split; [done|].
  destruct (Done c); cbn; rewrite ?H1, ?H2, ?H3, app_string_nil_r;
    by rewrite ?app_assoc_string.
Qed.

(** A provider's stream, seen from the conversation. The goroutine of
    [streamCmd] takes every chunk the provider publishes, leaving none in
    the channel, and after the program has handled them: if the last
    chunk is an error, the conversation is as before the stream, the error
    is recorded and the text received is dropped; if it is the done chunk,
    the conversation has one more message, from the assistant, whose text
    is the buffer followed by the text of every chunk in order; if the
    stream ended without either, the text is in the buffer and in no
    message. *)
Theorem Stream_into_conversation `{GoLib} `{compose.Bubbles} (p : Provider)
    (w w_sse : sched) (msgs : list ChatMessage) (s : stream) (m : compose.Model) :
  ret_chan (Provider_Stream p w w_sse msgs) = Some s ->
  length (compose.pump (sent (trace (out s)))) = length (sent (trace (out s))) /\
  match last (sent (trace (out s))) with
  | None => compose.feed m (compose.pump (sent (trace (out s)))) = m
  | Some c =>
      match Error c with
      | Some e =>
          compose.messages (compose.feed m (compose.pump (sent (trace (out s)))))
          = compose.messages m /\
          compose.err (compose.feed m (compose.pump (sent (trace (out s))))) = Some e /\
          compose.streamBuf (compose.feed m (compose.pump (sent (trace (out s))))) = "" /\
          compose.streaming (compose.feed m (compose.pump (sent (trace (out s)))))
          = false
      | None =>
          if Done c then
            compose.messages (compose.feed m (compose.pump (sent (trace (out s)))))
            = compose.messages m
                ++ [{| compose.Role := "assistant";
                       compose.Content :=
                         compose.streamBuf m +:+ texts (sent (trace (out s))) |}] /\
            compose.streamBuf (compose.feed m (compose.pump (sent (trace (out s)))))
            = "" /\
            compose.streaming (compose.feed m (compose.pump (sent (trace (out s)))))
            = false
          else
            compose.messages (compose.feed m (compose.pump (sent (trace (out s)))))
            = compose.messages m /\
            compose.streamBuf (compose.feed m (compose.pump (sent (trace (out s)))))
            = compose.streamBuf m +:+ texts (sent (trace (out s))) /\
            compose.streaming (compose.feed m (compose.pump (sent (trace (out s)))))
            = compose.streaming m
      end
  end.
Proof.
  intros Hs%Provider_Stream_terminal_last.
  destruct (sent (trace (out s))) as [|c0 cs0] using rev_ind; [done|].
  rewrite last_snoc.
  apply (feed_pump_last m), (terminal_last_body _ _ Hs).
Qed.

Lemma Stream_into_conversation_witness :
  compose.messages
    (@compose.feed fixture_bubbles (@compose.New fixture_bubbles false None)
       (compose.pump
          [{| Content := "Hello"; Done := false; Error := None |};
           {| Content := ""; Done := true; Error := None |}]))
  = [{| compose.Role := "assistant"; compose.Content := "Hello" |}].
Proof.
  exact (proj1 (proj2 (@Stream_into_conversation fixture_lib fixture_bubbles
                         (Provider_claude (claude_fixture 200 body_claude))
                         quiet quiet hello _
                         (@compose.New fixture_bubbles false None) eq_refl))).
Defined.

(** ** Keys *)

(** Esc (or ctrl+c) during a stream keeps what has been received: after
    chunks that are neither done nor errors, it calls the cancel function
    if the view has one, ends the streaming state, and, unless buffer and
    chunks were all empty, adds their text to the conversation as one
    assistant message; it issues no command. *)
Theorem Esc_keeps_partial `{compose.Bubbles} (m : compose.Model)
    (cs : list StreamChunk) (k : compose.KeyMsg) :
  Forall (fun c => terminal c = false) cs ->
  compose.streaming m = true ->
  compose.Type_ k = compose.KeyEsc \/ compose.Type_ k = compose.KeyCtrlC ->
  let r := compose.Update (compose.feed m (compose.pump cs)) (compose.Key k) in
  r.2 = compose.cancelFn m /\
  r.1.2 = [] /\
  compose.streaming r.1.1 = false /\
  compose.streamBuf r.1.1 = "" /\
  compose.messages r.1.1
  = compose.messages m
      ++ (if (0 <? String.length (compose.streamBuf m +:+ texts cs))%nat
          then [{| compose.Role := "assistant";
                   compose.Content := compose.streamBuf m +:+ texts cs |}]
          else []).
Proof.
  intros Hn Hs Hk.
  pose proof (feed_contents m cs) as (H1 & H2 & H3 & _ & _ & _ & H7).
  pose proof (pump_nonterminal cs [] Hn) as E. rewrite !app_nil_r in E.
  cbn zeta in *. rewrite E.
  set (m1 := compose.feed m _) in *.
  assert (compose.Update m1 (compose.Key k)
          = (compose.updateViewport
               (if (0 <? String.length (compose.streamBuf m1))%nat
                then compose.set_streamBuf
                       (compose.set_messages (compose.set_streaming m1 false)
                          (compose.messages m1
                           ++ [{| compose.Role := "assistant";
                                  compose.Content := compose.streamBuf m1 |}])) ""
                else compose.set_streaming m1 false),
             [], compose.cancelFn m1)) as ->.
  { unfold compose.Update. rewrite H3, Hs. by destruct Hk as [-> | ->]. }
  cbn [fst snd]. rewrite H7. repeat split.
  - by destruct (0 <? _)%nat.
  - destruct (0 <? String.length (compose.streamBuf m1))%nat eqn:Hl; [done|].
    cbn. apply Nat.ltb_ge in Hl.
    by destruct (compose.streamBuf m1); cbn in *; [|lia].
  - rewrite <- H2. destruct (0 <? _)%nat; cbn; by rewrite H1, ?app_nil_r.
Qed.

Lemma Esc_keeps_partial_witness :
  compose.messages
    (@compose.Update fixture_bubbles
       (@compose.feed fixture_bubbles
          (compose.set_streaming (@compose.New fixture_bubbles false None) true)
          (compose.pump [{| Content := "Hel"; Done := false; Error := None |}]))
       (compose.Key {| compose.Type_ := compose.KeyEsc; compose.Runes := "" |})).1.1
  = [{| compose.Role := "assistant"; compose.Content := "Hel" |}].
Proof.
  refine (proj2 (proj2 (proj2 (proj2
            (@Esc_keeps_partial fixture_bubbles
               (compose.set_streaming (@compose.New fixture_bubbles false None) true)
               [{| Content := "Hel"; Done := false; Error := None |}]
               {| compose.Type_ := compose.KeyEsc; compose.Runes := "" |}
               _ eq_refl (or_introl eq_refl)))))).
  repeat constructor.
Defined.

(** The view starts a stream only on Enter while none is in flight: a
    [streamCmd] among the commands of [Update] means the view was not
    streaming and is now, the typed text (not blank) has been added to the
    conversation as the user's message, and the command carries for the
    provider of the view the whole conversation on display, in order,
    that message last. *)
Theorem Update_streamCmd `{compose.Bubbles} (m : compose.Model) (msg : compose.Msg)
    (p : Provider) (msgs : list ChatMessage) :
  In (compose.streamCmd p msgs) (compose.Update m msg).1.2 ->
  compose.streaming m = false /\
  compose.streaming (compose.Update m msg).1.1 = true /\
  compose.provider m = Some p /\
  compose.program m = true /\
  msgs = compose.chatMsgs (compose.messages (compose.Update m msg).1.1) /\
  exists text : string,
    text <> "" /\
    text = compose.strings_TrimSpace (compose.textarea_Value (compose.textarea_ m)) /\
    compose.messages (compose.Update m msg).1.1
    = compose.messages m ++ [{| compose.Role := "user"; compose.Content := text |}].
Proof.
  destruct msg as [k| | | | | |]; cbn; try done.
  - destruct (compose.Type_ k).
    + destruct (compose.streaming m) eqn:Hs; cbn [negb andb].
      * destruct (compose.textarea_Update _ _). cbn. by intros [? | []].
      * destruct (String.eqb _ "") eqn:Ht; cbn [negb].
        -- destruct (compose.textarea_Update _ _). cbn. by intros [? | []].
        -- apply String.eqb_neq in Ht. cbn.
           intros Hin.
           assert (compose.provider m = Some p /\ compose.program m = true /\
                   msgs = compose.chatMsgs
                            (compose.messages m
                             ++ [{| compose.Role := "user";
                                    compose.Content :=
                                      compose.strings_TrimSpace
                                        (compose.textarea_Value (compose.textarea_ m)) |}]))
             as (Hp & Hg & Hm).
           { destruct (compose.session m), (compose.db m), (compose.provider m),
               (compose.program m); cbn in Hin; destruct_or?; by simplify_eq. }
           repeat split; try done. eauto.
    + by destruct (compose.streaming m).
    + by destruct (compose.streaming m).
    + destruct (compose.streaming m); cbn; [done|].
      destruct (compose.textarea_Update _ _). cbn. by intros [? | []].
  - destruct done; cbn; [|done].
    destruct (compose.session m), (compose.db m); cbn; try done; by intros [? | []].
  - destruct (compose.db m); [|done].
    destruct (compose.messages m); [done|]. cbn. by intros [? | [? | []]].
Qed.

Lemma Update_streamCmd_witness :
  compose.streaming
    (@compose.Update fixture_bubbles
       (compose.set_textarea
          (compose.SetProgram
             (@compose.New fixture_bubbles true
                (Some (Provider_openai (openai_fixture 200 body_openai)))))
          "Hi")
       (compose.Key {| compose.Type_ := compose.KeyEnter; compose.Runes := "" |})).1.1
  = true.
Proof.
  refine (proj1 (proj2 (@Update_streamCmd fixture_bubbles _ _
                          (Provider_openai (openai_fixture 200 body_openai))
                          [{| Role := "user"; MsgContent := "Hi" |}] _))).
  right. left. reflexivity.
Defined.

Lemma length_substring_0 (n : nat) (s : string) :
  String.length (String.substring 0 n s) = Nat.min n (String.length s).
Proof.
  revert s. induction n as [|n IH]; intros s.
  - by destruct s.
  - destruct s as [|c s]; [done|]. cbn. by rewrite IH.
Qed.

(** The title the view gives a new session is the first message of the
    conversation, cut to its first 60 bytes followed by "..." when it is
    longer: never more than 63 bytes. It is set only when the view has a
    database and a conversation, together with the deferred save of that
    first message. *)
Theorem SessionCreated_title `{compose.Bubbles} (m : compose.Model) (s : Session)
    (sid title : string) :
  In (compose.updateTitleCmd sid title)
     (compose.Update m (compose.SessionCreatedMsg s)).1.2 ->
  sid = ID s /\
  compose.db m = true /\
  (String.length title <= 63)%nat /\
  exists (first : compose.DisplayMessage) (rest : list compose.DisplayMessage),
    compose.messages m = first :: rest /\
    (compose.Update m (compose.SessionCreatedMsg s)).1.2
    = [compose.saveMessageCmd (ID s) (compose.Role first) (compose.Content first);
       compose.updateTitleCmd (ID s) title] /\
    title = if (60 <? String.length (compose.Content first))%nat
            then String.substring 0 60 (compose.Content first) +:+ "..."
            else compose.Content first.
Proof.
  cbn -[Nat.ltb String.substring String.length].
  destruct (compose.db m); [|done].
  destruct (compose.messages m) as [|first rest]; [done|].
  intros [? | [[= <- <-] | []]]; [done|].
  split; [done|]. split; [done|]. split.
  - destruct (60 <? String.length (compose.Content first))%nat eqn:Hl.
    + rewrite length_app_string, length_substring_0.
      change (String.length "...") with 3%nat. lia.
    + apply Nat.ltb_ge in Hl. lia.
  - by exists first, rest.
Qed.

Lemma SessionCreated_title_witness :
  (String.length "Hello" <= 63)%nat.
Proof.
  refine (proj1 (proj2 (proj2
            (@SessionCreated_title fixture_bubbles
               (compose.set_messages (@compose.New fixture_bubbles true None)
                  [{| compose.Role := "user"; compose.Content := "Hello" |}])
               {| ID := "s1"; Title := ""; SessionProvider := "test"; SessionModel := "";
                  CreatedAt := 0; UpdatedAt := 0; Archived := false |}
               "s1" "Hello" _)))).
  right. left. reflexivity.
Defined.

(** * export.go *)

(** ** sanitizeTitle *)

Lemma no_double_hyphen_cons (c d : Ascii.ascii) (r : string) :
  no_double_hyphen (String c (String d r))
  = negb (Ascii.eqb c export.hyphen && Ascii.eqb d export.hyphen)
    && no_double_hyphen (String d r).
Proof. reflexivity. Qed.

Lemma no_double_hyphen_tail (c : Ascii.ascii) (s : string) :
  no_double_hyphen (String c s) = true -> no_double_hyphen s = true.
Proof.
  destruct s as [|d r]; [done|]. rewrite no_double_hyphen_cons.
  by intros [_ ?]%andb_prop.
Qed.

Lemma replace_runs_forall (class : Ascii.ascii -> bool) (p : Ascii.ascii -> bool)
    (s : string) (b : bool) :
  p export.hyphen = true ->
  (forall c : Ascii.ascii, class c = false -> p c = true) ->
  string_forall p (export.replace_runs class b s) = true.
Proof.
  intros Hh Hp. revert b. induction s as [|c s IH]; intros b; [done|].
  cbn. destruct (class c) eqn:Hc.
  - destruct b; [apply IH|]. cbn. by rewrite Hh, IH.
  - cbn. by rewrite (Hp c Hc), IH.
Qed.

Lemma replace_runs_preserves (class : Ascii.ascii -> bool) (p : Ascii.ascii -> bool)
    (s : string) (b : bool) :
  p export.hyphen = true ->
  string_forall p s = true ->
  string_forall p (export.replace_runs class b s) = true.
Proof.
  intros Hh. revert b. induction s as [|c s IH]; intros b; [done|].
  cbn. intros [Hc Hs]%andb_prop. destruct (class c).
  - destruct b; [by apply IH|]. cbn. by rewrite Hh, IH.
  - cbn. by rewrite Hc, IH.
Qed.

(** After [-+] has been replaced by "-", no two hyphens are in a row; and
    a text that continues a run does not begin with a hyphen. *)
Lemma replace_hyphens_no_double (s : string) (b : bool) :
  no_double_hyphen
    (export.replace_runs (fun c => Ascii.eqb c export.hyphen) b s) = true /\
  (b = true ->
   first_byte (export.replace_runs (fun c => Ascii.eqb c export.hyphen) b s)
   <> Some export.hyphen).
Proof.
  revert b. induction s as [|c s IH]; intros b; [by split|].
  cbn [export.replace_runs]. destruct (Ascii.eqb c export.hyphen) eqn:Hc.
  - destruct b.
    + apply IH.
    + destruct (IH true) as [IH1 IH2]. split; [|done].
      specialize (IH2 eq_refl).
      destruct (export.replace_runs _ true s) as [|d r] eqn:E; [done|].
      rewrite no_double_hyphen_cons, IH1, Ascii.eqb_refl. cbn.
      destruct (Ascii.eqb d export.hyphen) eqn:Hd; [|done].
      apply Ascii.eqb_eq in Hd. subst d. by destruct IH2.
  - destruct (IH false) as [IH1 _]. split.
    + destruct (export.replace_runs _ false s) as [|d r] eqn:E; [done|].
      by rewrite no_double_hyphen_cons, Hc, IH1.
    + intros _. cbn. intros [= ->]. by rewrite Ascii.eqb_refl in Hc.
Qed.

Lemma TrimLeft_hyphen_inv (p : Ascii.ascii -> bool) (s : string) :
  string_forall p s = true -> no_double_hyphen s = true ->
  string_forall p (export.TrimLeft_hyphen s) = true /\
  no_double_hyphen (export.TrimLeft_hyphen s) = true /\
  first_byte (export.TrimLeft_hyphen s) <> Some export.hyphen /\
  (String.length (export.TrimLeft_hyphen s) <= String.length s)%nat.
Proof.
  induction s as [|c s IH]; [done|].
  intros Hf Hn. cbn [export.TrimLeft_hyphen].
  destruct (Ascii.eqb c export.hyphen) eqn:Hc.
  - cbn in Hf. apply andb_prop in Hf as [_ Hf].
    destruct (IH Hf (no_double_hyphen_tail _ _ Hn)) as (? & ? & ? & ?).
    repeat split; try done. cbn. lia.
  - repeat split; try done. cbn. intros [= ->]. by rewrite Ascii.eqb_refl in Hc.
Qed.

Lemma TrimRight_hyphen_cons (c : Ascii.ascii) (s : string) :
  export.TrimRight_hyphen (String c s)
  = match export.TrimRight_hyphen s with
    | EmptyString => if Ascii.eqb c export.hyphen then EmptyString
                     else String c EmptyString
    | String d r => String c (String d r)
    end.
Proof. cbn. by destruct (export.TrimRight_hyphen s). Qed.

Lemma TrimRight_hyphen_first (s : string) (d : Ascii.ascii) (r : string) :
  export.TrimRight_hyphen s = String d r -> first_byte s = Some d.
Proof.
  destruct s as [|c s]; [done|]. rewrite TrimRight_hyphen_cons.
  destruct (export.TrimRight_hyphen s).
  - destruct (Ascii.eqb c export.hyphen); [done|]. by intros [= <- _].
  - by intros [= <- _].
Qed.

Lemma TrimRight_hyphen_inv (p : Ascii.ascii -> bool) (s : string) :
  string_forall p s = true -> no_double_hyphen s = true ->
  string_forall p (export.TrimRight_hyphen s) = true /\
  no_double_hyphen (export.TrimRight_hyphen s) = true /\
  (first_byte s <> Some export.hyphen ->
   first_byte (export.TrimRight_hyphen s) <> Some export.hyphen) /\
  last_byte (export.TrimRight_hyphen s) <> Some export.hyphen /\
  (String.length (export.TrimRight_hyphen s) <= String.length s)%nat.
Proof.
  induction s as [|c s IH]; [done|].
  intros Hf Hn. cbn in Hf. apply andb_prop in Hf as [Hc Hf].
  destruct (IH Hf (no_double_hyphen_tail _ _ Hn)) as (IH1 & IH2 & IH3 & IH4 & IH5).
  rewrite TrimRight_hyphen_cons.
  destruct (export.TrimRight_hyphen s) as [|d r] eqn:E.
  - destruct (Ascii.eqb c export.hyphen) eqn:Hh.
    + repeat split; try done. cbn. lia.
    + repeat split; try done.
      * cbn. by rewrite Hc.
      * cbn. intros [= ->]. by rewrite Ascii.eqb_refl in Hh.
      * cbn. lia.
  - repeat split; try done.
    + cbn [string_forall] in *. by rewrite Hc, IH1.
    + rewrite no_double_hyphen_cons, IH2.
      apply TrimRight_hyphen_first in E. destruct s as [|d' r']; [done|].
      injection E as ->. rewrite no_double_hyphen_cons in Hn.
      apply andb_prop in Hn as [Hn _]. by rewrite Hn.
    + cbn [String.length] in *. lia.
Qed.

Lemma substring_0_inv (p : Ascii.ascii -> bool) (n : nat) (s : string) :
  string_forall p s = true -> no_double_hyphen s = true ->
  string_forall p (String.substring 0 n s) = true /\
  no_double_hyphen (String.substring 0 n s) = true /\
  (first_byte s <> Some export.hyphen ->
   first_byte (String.substring 0 n s) <> Some export.hyphen).
Proof.
  revert s. induction n as [|n IH]; intros s Hf Hn.
  - by destruct s.
  - destruct s as [|c s]; [done|].
    cbn in Hf. apply andb_prop in Hf as [Hc Hf].
    destruct (IH s Hf (no_double_hyphen_tail _ _ Hn)) as (IH1 & IH2 & _).
    cbn [String.substring]. repeat split; try done.
    + cbn. by rewrite Hc, IH1.
    + destruct n as [|n]; [by destruct s|].
      destruct s as [|d r]; [done|].
      cbn [String.substring] in *. rewrite no_double_hyphen_cons in Hn |- *.
      apply andb_prop in Hn as [Hn _]. by rewrite Hn, IH2.
Qed.

(** Whatever the title, [sanitizeTitle] gives a name fit for a file name:
    not empty, at most 50 bytes, made of [a-z0-9-] only, with no two
    hyphens in a row and none at either end. *)
Theorem sanitizeTitle_safe `{export.Host} (title : string) :
  safe_component (export.sanitizeTitle title).
Proof.
  assert (safe_component "untitled") as Hu.
  { unfold safe_component. repeat split; try done. cbn. lia. }
  unfold export.sanitizeTitle.
  destruct (String.eqb title ""); [exact Hu|].
  set (s1 := export.replace_runs (fun c => negb (export.lower_alnum c)) false
               (export.strings_ToLower title)).
  set (s2 := export.replace_runs (fun c => Ascii.eqb c export.hyphen) false s1).
  assert (string_forall alnum_or_hyphen s1 = true) as Hf1.
  { apply replace_runs_forall; [done|].
    intros c Hc. unfold alnum_or_hyphen. by destruct (export.lower_alnum c). }
  assert (string_forall alnum_or_hyphen s2 = true) as Hf2
    by (by apply replace_runs_preserves).
  destruct (replace_hyphens_no_double s1 false) as [Hn2 _]. fold s2 in Hn2.
  unfold export.Trim_hyphen.
  destruct (TrimLeft_hyphen_inv _ s2 Hf2 Hn2) as (Hf3 & Hn3 & Hb3 & Hl3).
  set (s3 := export.TrimLeft_hyphen s2) in *.
  destruct (TrimRight_hyphen_inv _ s3 Hf3 Hn3) as (Hf4 & Hn4 & Hb4 & He4 & Hl4).
  specialize (Hb4 Hb3).
  set (s4 := export.TrimRight_hyphen s3) in *.
  destruct (50 <? String.length s4)%nat eqn:Hlen.
  - destruct (substring_0_inv _ 50 s4 Hf4 Hn4) as (Hf5 & Hn5 & Hb5).
    specialize (Hb5 Hb4).
    destruct (TrimRight_hyphen_inv _ _ Hf5 Hn5) as (Hf6 & Hn6 & Hb6 & He6 & Hl6).
    specialize (Hb6 Hb5). rewrite length_substring_0 in Hl6.
    destruct (String.eqb _ "") eqn:E; [exact Hu|].
    apply String.eqb_neq in E. unfold safe_component. repeat split; try done. lia.
  - apply Nat.ltb_ge in Hlen.
    destruct (String.eqb s4 "") eqn:E; [exact Hu|].
    apply String.eqb_neq in E. by unfold safe_component.
Qed.

Example sanitizeTitle_test_session :
  @export.sanitizeTitle fixture_export "Test Session!" = "test-session".
Proof. reflexivity. Qed.

(** ** The file *)

Lemma write_messages_app (a b : list db.Message) :
  export.write_messages (a ++ b)
  = export.write_messages a +:+ export.write_messages b.
Proof.
  induction a as [|m a IH]; [done|].
  cbn [app export.write_messages]. by rewrite IH, app_assoc_string.
Qed.

(** System messages leave no trace in the file: the content written for a
    conversation is the content written for the same conversation without
    its system messages. *)
Theorem buildMarkdownContent_skips_system `{export.Host} (session : Session)
    (messages : list db.Message) :
  export.buildMarkdownContent session messages
  = export.buildMarkdownContent session
      (List.filter (fun msg => negb (String.eqb (db.Role msg) "system")) messages).
Proof.
  unfold export.buildMarkdownContent.
  enough (export.write_messages messages
          = export.write_messages
              (List.filter (fun msg => negb (String.eqb (db.Role msg) "system"))
                 messages)) as E by (by rewrite E).
  induction messages as [|m ms IH]; [done|].
  cbn [List.filter export.write_messages].
  destruct (String.eqb (db.Role m) "system") eqn:E; cbn [negb].
  - by rewrite app_nil_string.
  - cbn [export.write_messages]. by rewrite E, IH.
Qed.

Lemma free_filename_first `{export.Host} (dir datePrefix sanitizedTitle : string)
    (n j fuel : nat) :
  (forall i : nat, (j <= i < j + n)%nat ->
      export.os_Stat_IsNotExist
        (export.filepath_Join dir (candidate datePrefix sanitizedTitle i)) = false) ->
  export.os_Stat_IsNotExist
    (export.filepath_Join dir (candidate datePrefix sanitizedTitle (j + n))) = true ->
  (n < fuel)%nat ->
  export.free_filename fuel dir datePrefix sanitizedTitle
    (candidate datePrefix sanitizedTitle j) (Z.of_nat j + 1)
  = Some (candidate datePrefix sanitizedTitle (j + n)).
Proof.
  revert j fuel. induction n as [|n IH]; intros j fuel Htaken Hfree Hfuel.
  - destruct fuel as [|fuel]; [lia|]. cbn [export.free_filename].
    rewrite Nat.add_0_r in *. by rewrite Hfree.
  - destruct fuel as [|fuel]; [lia|]. cbn [export.free_filename].
    rewrite (Htaken j) by lia.
    replace (Z.of_nat j + 1)%Z with (Z.of_nat (S j)) by lia.
    change (datePrefix +:+ "-" +:+ sanitizedTitle +:+ "-" +:+ itoa (Z.of_nat (S j))
            +:+ ".md") with (candidate datePrefix sanitizedTitle (S j)).
    replace (j + S n)%nat with (S j + n)%nat in * by lia.
    apply IH; [|done|lia].
    intros i Hi. apply Htaken. lia.
Qed.

(** [ToMarkdown] never writes over a file it has seen: with the directory
    made and the write succeeding, if the first [k] names of the series
    date-title.md, date-title-1.md, ... are taken and the next is not, the
    session is written under that name, with the content
    [buildMarkdownContent] gives, and the loop ends after [k + 1] checks. *)
Theorem ToMarkdown_first_free `{export.Host} (session : Session)
    (messages : list db.Message) (dir : string) (k fuel : nat) :
  export.os_MkdirAll dir = None ->
  export.os_WriteFile
    (export.filepath_Join dir
       (candidate (export.time_Format (CreatedAt session) "2006-01-02")
          (export.sanitizeTitle (Title session)) k))
    (export.buildMarkdownContent session messages) = None ->
  (forall i : nat, (i < k)%nat ->
      export.os_Stat_IsNotExist
        (export.filepath_Join dir
           (candidate (export.time_Format (CreatedAt session) "2006-01-02")
              (export.sanitizeTitle (Title session)) i)) = false) ->
  export.os_Stat_IsNotExist
    (export.filepath_Join dir
       (candidate (export.time_Format (CreatedAt session) "2006-01-02")
          (export.sanitizeTitle (Title session)) k)) = true ->
  (k < fuel)%nat ->
  exists path : string,
    export.ToMarkdown fuel session messages dir
    = Some (Ok path,
            Some (export.filepath_Join dir
                    (candidate (export.time_Format (CreatedAt session) "2006-01-02")
                       (export.sanitizeTitle (Title session)) k),
                  export.buildMarkdownContent session messages)).
Proof.
  intros Hmk Hw Htaken Hfree Hfuel. unfold export.ToMarkdown. rewrite Hmk.
  pose proof (free_filename_first dir
                (export.time_Format (CreatedAt session) "2006-01-02")
                (export.sanitizeTitle (Title session)) k 0 fuel) as E.
  change (Z.of_nat 0 + 1)%Z with 1%Z in E. cbn [Nat.add candidate] in E.
  cbv zeta. rewrite E; [| |done..].
  - rewrite Hw. destruct (export.filepath_Abs _); by eexists.
  - intros i Hi. apply Htaken. lia.
Qed.

Lemma ToMarkdown_first_free_witness :
  exists path : string,
    @export.ToMarkdown fixture_export 3 fixture_session [] "/notes"
    = Some (Ok path,
            Some ("/notes/2026-02-03-test-session-2.md",
                  @export.buildMarkdownContent fixture_export fixture_session [])).
Proof.
  refine (@ToMarkdown_first_free fixture_export fixture_session [] "/notes" 2 3
            eq_refl eq_refl _ eq_refl _).
  - intros [|[|i]] Hi; [reflexivity | reflexivity | lia].
  - lia.
Defined.
